(** * HomebridgeMagicHome dynamic platform: device discovery and accessory
      reconciliation ([src/platform.ts]).

    The development is a shallow embedding of the class
    [HomebridgeMagichomeDynamicPlatform]: [configureAccessory],
    [discoverDevices] and [isAllowed].  The platform object owns one mutable
    array, [this.accessories]; it only ever grows by [push], so the position of
    an accessory in that array is a stable name for the JavaScript object and
    is what the registry effects below carry.  Everything the methods do to the
    outside world (registry calls, log lines, network calls) is recorded, in
    program order, as a list of events. *)

From Stdlib Require Import ZArith String Ascii List Bool Lia.
From stdpp Require Import base option list strings.
Import ListNotations.

Set Warnings "-register-all".

Local Open Scope string_scope.
Local Open Scope Z_scope.
Local Open Scope list_scope.

(** ** JavaScript values found in the user configuration *)

(** A configuration entry is whatever the user wrote in the JSON file. *)
Inductive JsValue : Type :=
| JsUndefined
| JsNull
| JsBoolean (b : bool)
| JsNumber (n : Z)
| JsString (s : string)
| JsArray (xs : list JsValue).

(** Values that can be thrown. *)
Inductive JsError : Type :=
| TypeError (what : string)
| RejectedPromise (what : string).

(** Result of evaluating an expression that may throw. *)
Inductive Completion (A : Type) : Type :=
| Normal (a : A)
| Throw (e : JsError).
Arguments Normal {A} a.
Arguments Throw {A} e.

Definition bindC {A B} (c : Completion A) (k : A → Completion B) : Completion B :=
  match c with
  | Normal a => k a
  | Throw e => Throw e
  end.

Declare Scope js_scope.
Delimit Scope js_scope with js.
Notation "'let*' x ':=' c 'in' k" := (bindC c (λ x, k))
  (at level 10, x name, c at level 100, k at level 200) : js_scope.

(** [s.includes(pat)] on strings: [pat] occurs in [s] as a substring. *)
Fixpoint includes (s pat : string) : bool :=
  if String.prefix pat s then true
  else match s with
       | EmptyString => false
       | String _ s' => includes s' pat
       end.

(** [c.toLowerCase()] on one character.  Only the letters A to Z change; no
    character outside that range lowers to one of the letters of the word
    looked for by the pruning sweep. *)
Definition lower_ascii (c : ascii) : ascii :=
  let n := nat_of_ascii c in
  if ((65 <=? n)%nat && (n <=? 90)%nat)%bool then ascii_of_nat (n + 32) else c.

Fixpoint toLowerCase (s : string) : string :=
  match s with
  | EmptyString => EmptyString
  | String c s' => String (lower_ascii c) (toLowerCase s')
  end.

(** [xs.includes(x)] for an array and a string [x]: some element is the same
    string (SameValueZero never identifies a string with a value of another
    type). *)
Definition array_includes (xs : list JsValue) (x : string) : bool :=
  existsb (λ v, match v with JsString s => String.eqb s x | _ => false end) xs.

(** [v.includes(x)] for a configuration value [v]: arrays and strings have the
    method; reading it off [undefined] or [null] throws, and on booleans and
    numbers the property is [undefined], so calling it throws. *)
Definition js_includes (v : JsValue) (x : string) : Completion bool :=
  match v with
  | JsArray xs => Normal (array_includes xs x)
  | JsString s => Normal (includes s x)
  | JsUndefined | JsNull => Throw (TypeError "Cannot read properties of undefined or null")
  | JsBoolean _ | JsNumber _ => Throw (TypeError "includes is not a function")
  end.

(** The values on which [.includes(...)] can be called. *)
Definition has_includes (v : JsValue) : bool :=
  match v with JsArray _ | JsString _ => true | _ => false end.

(** [v !== undefined] *)
Definition not_undefined (v : JsValue) : bool :=
  match v with JsUndefined => false | _ => true end.

(** ** Data model *)

Record Device : Type := mkDevice {
  uniqueId : string;
  ipAddress : string;
  modelNumber : string;
  lightVersion : Z;
  lightVersionModifier : Z;
  initialState : option string
}.

(** What [discover.createAccessory] returns; only [convenientName] is read. *)
Record DeviceType : Type := mkDeviceType { convenientName : string }.

(** What [transport.getState] returns; only [debugBuffer] is read. *)
Record TransportState : Type := mkTransportState { debugBuffer : string }.

(** [accessory.context], with the fields this file writes when it creates an
    accessory (lines 141 to 152); the counter is a JavaScript number holding an
    integer. *)
Record Context : Type := mkContext {
  deviceType : DeviceType;
  displayName : string;
  device : Device;
  cachedIPAddress : string;
  restartsSinceSeen : Z
}.

Record PlatformAccessory : Type := mkAccessory {
  UUID : string;
  context : Context
}.

Definition set_initialState (d : Device) (s : string) : Device :=
  mkDevice (uniqueId d) (ipAddress d) (modelNumber d) (lightVersion d)
           (lightVersionModifier d) (Some s).

Definition set_restartsSinceSeen (a : PlatformAccessory) (n : Z) : PlatformAccessory :=
  let c := context a in
  mkAccessory (UUID a)
    (mkContext (deviceType c) (displayName c) (device c) (cachedIPAddress c) n).

Definition set_cachedIPAddress (a : PlatformAccessory) (ip : string) : PlatformAccessory :=
  let c := context a in
  mkAccessory (UUID a)
    (mkContext (deviceType c) (displayName c) (device c) ip (restartsSinceSeen c)).

(** [config.deviceManagement] *)
Record DeviceManagement : Type := mkDeviceManagement {
  blacklistedUniqueIDs : JsValue;
  blacklistOrWhitelist : JsValue
}.

(** [config.pruning] *)
Record Pruning : Type := mkPruning {
  pruneMissingCachedAccessories : bool;
  pruneAllAccessoriesNextRestart : bool;
  restartsBeforeMissingAccessoriesPruned : Z
}.

(** [this.config]; [None] is a section the user left out ([undefined]). *)
Record PlatformConfig : Type := mkConfig {
  deviceManagement : option DeviceManagement;
  pruning : option Pruning
}.

(** ** Observable effects *)

Inductive LogLevel : Type := log_debug | log_info | log_warn | log_error.

(** One constructor per call of [this.log] in the source, with its arguments. *)
Inductive Message : Type :=
| LoadingFromCache (name : string)
| ScanningBroadcast
| FoundZeroRescanning (n : nat)
| FoundZeroDevices
| FoundDevices (n : nat)
| NewDeviceNotAllowed (uid : string)
| RegisteringNew (name model uid ip : string) (version modifier : Z)
| IpDiscrepancyFound (name : string)
| ExpectedIp (ip : string)
| DiscoveredIp (ip : string)
| IpReassigned (ip : string)
| WillBePruned (name uid : string)
| RegisteringCached (name model uid ip : string) (version modifier : Z)
| Caught (e : JsError)
| PrunedMarkedForDeletion (name : string)
| PrunedNotSeen (name : string) (restarts : Z)
| ContinuingUnseen (name : string) (restarts : Z) (model uid ip : string)
                   (version modifier : Z)
| Summary (registered new cachedSeen unseen : Z).

(** Accessories are named by their position in [this.accessories]. *)
Inductive Event : Type :=
| Log (lvl : LogLevel) (m : Message)
| Scan (timeout : Z)
| GetState (ip : string) (timeout : Z)
| NewRGBStrip (acc : nat)
| RegisterPlatformAccessories (acc : nat)
| UpdatePlatformAccessories (acc : nat)
| UnregisterPlatformAccessories (acc : nat).

Definition is_scan (e : Event) : bool :=
  match e with Scan _ => true | _ => false end.
Definition is_rescan_warning (e : Event) : bool :=
  match e with Log log_warn (FoundZeroRescanning _) => true | _ => false end.
Definition is_register (e : Event) : bool :=
  match e with RegisterPlatformAccessories _ => true | _ => false end.
Definition is_unregister (e : Event) : bool :=
  match e with UnregisterPlatformAccessories _ => true | _ => false end.
Definition is_unregister_of (i : nat) (e : Event) : bool :=
  match e with UnregisterPlatformAccessories j => Nat.eqb i j | _ => false end.
Definition is_update_of (i : nat) (e : Event) : bool :=
  match e with UpdatePlatformAccessories j => Nat.eqb i j | _ => false end.

Definition is_ip_warning (e : Event) : bool :=
  match e with
  | Log log_warn (IpDiscrepancyFound _) | Log log_warn (ExpectedIp _)
  | Log log_warn (DiscoveredIp _) | Log log_warn (IpReassigned _) => true
  | _ => false
  end.

(** Number of events of a kind in a trace. *)
Definition occurrences (f : Event → bool) (evs : list Event) : nat :=
  length (List.filter f evs).

(** More kinds of events. *)
Definition is_register_of (i : nat) (e : Event) : bool :=
  match e with RegisterPlatformAccessories j => Nat.eqb i j | _ => false end.
Definition is_update (e : Event) : bool :=
  match e with UpdatePlatformAccessories _ => true | _ => false end.
Definition is_unseen_warning (e : Event) : bool :=
  match e with Log log_warn (ContinuingUnseen _ _ _ _ _ _ _) => true | _ => false end.

Definition is_getState (e : Event) : bool :=
  match e with GetState _ _ => true | _ => false end.

(** What [discoverDevices] and [isAllowed] produce outside the bodies of the
    two loops: the scans, the lines about them, the line for a caught error
    and the summary. *)
Definition outside_loops (e : Event) : bool :=
  match e with
  | Scan _ => true
  | Log _ ScanningBroadcast | Log _ (FoundZeroRescanning _)
  | Log _ FoundZeroDevices | Log _ (FoundDevices _)
  | Log _ (Caught _) | Log _ (Summary _ _ _ _) => true
  | _ => false
  end.

(** ** Platform state *)

(** [this.accessories] together with the three counters local to
    [discoverDevices]. *)
Record Run : Type := mkRun {
  accessories : list PlatformAccessory;
  registeredDevices : Z;
  newDevices : Z;
  unseenDevices : Z
}.

(** How a block of statements ends: normally, or by a throw that leaves the
    block; either way with the state and the events produced so far. *)
Inductive Outcome : Type :=
| Completed (r : Run) (evs : list Event)
| Thrown (e : JsError) (r : Run) (evs : list Event).

Definition run_of (o : Outcome) : Run :=
  match o with Completed r _ | Thrown _ r _ => r end.
Definition events_of (o : Outcome) : list Event :=
  match o with Completed _ evs | Thrown _ _ evs => evs end.

(** Events of an earlier block put in front of a later block's outcome. *)
Definition after (evs0 : list Event) (o : Outcome) : Outcome :=
  match o with
  | Completed r evs => Completed r (evs0 ++ evs)
  | Thrown e r evs => Thrown e r (evs0 ++ evs)
  end.

(** ** [isAllowed] *)

Section AllowList.
Variable config : PlatformConfig.

(** The body of the [try] block: [Normal b] is the final value of the local
    [isAllowed]; [Throw] is a throw before the assignment was reached. *)
Definition isAllowed_try (uniqueId : string) : Completion bool :=
  match deviceManagement config with
  | None => Throw (TypeError "Cannot read properties of undefined")
  | Some dm =>
    if (not_undefined (blacklistedUniqueIDs dm)
        && not_undefined (blacklistOrWhitelist dm))%bool
    then
      (let* listed := js_includes (blacklistedUniqueIDs dm) uniqueId in
       let* black := (if listed : bool
                      then js_includes (blacklistOrWhitelist dm) "blacklist"
                      else Normal false) in
       if black : bool then Normal false
       else
         let* listed' := js_includes (blacklistedUniqueIDs dm) uniqueId in
         let* white := (if negb listed'
                        then js_includes (blacklistOrWhitelist dm) "whitelist"
                        else Normal false) in
         Normal (negb white))%js
    else Normal true
  end.

(** [isAllowed(uniqueId)]: the returned flag and what it logged. *)
Definition isAllowed (uniqueId : string) : bool * list Event :=
  match isAllowed_try uniqueId with
  | Normal b => (b, [])
  | Throw e => (true, [Log log_debug (Caught e)])
  end.
End AllowList.

(** ** The platform *)

Section Platform.
(** Collaborators outside this file of the plugin.  The two calls at lines 69
    and 70 (default network interface, broadcast address) only feed the first
    log line and are left out. *)

(** [this.api.hap.uuid.generate] *)
Variable generate : string → string.
(** [discover.scan(2000)]: the answer to the [k]-th call of a run, the first
    call being number 0.  A scan that finds nothing answers the empty list.
    Here every scan answers; scans that reject are those of
    [discoverDevices_awaited] below. *)
Variable scan : nat → list Device.
(** [discover.createAccessory(device)]; a rejected promise throws at the
    [await]. *)
Variable createAccessory : Device → Completion DeviceType.
(** [new Transport(ip, config).getState(1000)], by the address queried; a
    rejected promise throws at the [await]. *)
Variable getState : string → Completion TransportState.

Variable config : PlatformConfig.

(** [configureAccessory(accessory)], called by the host once per accessory
    restored from disk, before [discoverDevices]. *)
Definition configureAccessory (accessory : PlatformAccessory)
    (accs : list PlatformAccessory) : list PlatformAccessory * list Event :=
  let accessory' :=
    set_restartsSinceSeen accessory (restartsSinceSeen (context accessory) + 1) in
  (accs ++ [accessory'],
   [Log log_debug (LoadingFromCache (displayName (context accessory)))]).

(** The host restoring a whole cache into a fresh platform object. *)
Fixpoint restore_from (cache : list PlatformAccessory)
    (accs : list PlatformAccessory) : list PlatformAccessory * list Event :=
  match cache with
  | [] => (accs, [])
  | a :: cache' =>
    let '(accs1, evs1) := configureAccessory a accs in
    let '(accs2, evs2) := restore_from cache' accs1 in
    (accs2, evs1 ++ evs2)
  end.

Definition restore (cache : list PlatformAccessory) :=
  restore_from cache [].

(** *** Scanning *)

(** The [while (devices.length === 0 && scans < 5)] loop.  [remaining] bounds
    the number of iterations still possible; it is [5 - scans] at every entry
    (see [rescan_unfold]), so the bound is never what stops the loop. *)
Fixpoint rescan (remaining : nat) (devices : list Device) (scans : nat)
    : list Device * nat * list Event :=
  match remaining with
  | O => (devices, scans, [])
  | S remaining' =>
    if (Nat.eqb (length devices) 0 && Nat.ltb scans 5)%bool then
      let '(devices', scans', evs) :=
        rescan remaining' (scan (S scans)) (S scans) in
      (devices', scans',
       Log log_warn (FoundZeroRescanning (scans + 1)) :: Scan 2000 :: evs)
    else (devices, scans, [])
  end.

(** Lines 76 to 90: first scan, rescans, and the line reporting the count. *)
Definition scan_phase : list Device * nat * list Event :=
  let '(devices, scans, evs) := rescan 5 (scan 0%nat) 0 in
  (devices, scans,
   [Log log_info ScanningBroadcast; Scan 2000] ++ evs ++
   [if Nat.eqb (length devices) 0 then Log log_warn FoundZeroDevices
    else Log log_info (FoundDevices (length devices))]).

(** *** Reconciliation *)

Definition bump_registered (r : Run) : Run :=
  mkRun (accessories r) (registeredDevices r + 1) (newDevices r) (unseenDevices r).
Definition bump_new (r : Run) : Run :=
  mkRun (accessories r) (registeredDevices r) (newDevices r + 1) (unseenDevices r).
Definition bump_unseen (r : Run) : Run :=
  mkRun (accessories r) (registeredDevices r) (newDevices r) (unseenDevices r + 1).
Definition set_accessories (r : Run) (accs : list PlatformAccessory) : Run :=
  mkRun accs (registeredDevices r) (newDevices r) (unseenDevices r).

(** [this.accessories.find(accessory => accessory.UUID === uuid)], with the
    position of the object found. *)
Definition find_accessory (uuid : string) (accs : list PlatformAccessory)
    : option (nat * PlatformAccessory) :=
  list_find (λ a, UUID a = uuid) accs.

(** The body of [for (const device of devices)], lines 97 to 222; the loop
    variable is [dev] here, [device] being the field of the context. *)
Definition loop_body (dev : Device) (r : Run) : Outcome :=
  let uuid := generate (uniqueId dev) in
  match find_accessory uuid (accessories r) with
  | None =>
    match createAccessory dev with
    | Throw e => Thrown e r []
    | Normal deviceType =>
      match getState (ipAddress dev) with
      | Throw e => Thrown e r [GetState (ipAddress dev) 1000]
      | Normal state =>
        let dev := set_initialState dev (debugBuffer state) in
        let '(allowed, evs) := isAllowed config (uniqueId dev) in
        if negb allowed then
          Completed r
            ([GetState (ipAddress dev) 1000] ++ evs ++
             [Log log_warn (NewDeviceNotAllowed (uniqueId dev))])
        else
          let this := length (accessories r) in
          let accessory :=
            mkAccessory uuid
              (mkContext deviceType (convenientName deviceType) dev
                         (ipAddress dev) 0) in
          Completed
            (set_accessories (bump_new (bump_registered r))
                             (accessories r ++ [accessory]))
            ([GetState (ipAddress dev) 1000] ++ evs ++
             [NewRGBStrip this; NewRGBStrip this;
              RegisterPlatformAccessories this;
              Log log_info
                (RegisteringNew (displayName (context accessory))
                   (modelNumber dev) (uniqueId dev) (ipAddress dev)
                   (lightVersion dev) (lightVersionModifier dev))])
      end
    end
  | Some (this, existingAccessory) =>
    let seen := set_restartsSinceSeen existingAccessory 0 in
    let '(existingAccessory', evs_ip) :=
      if negb (String.eqb (cachedIPAddress (context seen)) (ipAddress dev))
      then
        (set_cachedIPAddress seen (ipAddress dev),
         [Log log_warn (IpDiscrepancyFound (displayName (context seen)));
          Log log_warn (ExpectedIp (cachedIPAddress (context seen)));
          Log log_warn (DiscoveredIp (ipAddress dev));
          Log log_warn (IpReassigned (ipAddress dev))])
      else (seen, []) in
    let r := set_accessories r (<[this := existingAccessory']> (accessories r)) in
    let c := context existingAccessory' in
    let '(allowed, evs) := isAllowed config (uniqueId (device c)) in
    if negb allowed then
      Completed r
        (evs_ip ++ evs ++
         [Log log_warn (WillBePruned (displayName c) (uniqueId (device c)));
          UnregisterPlatformAccessories this])
    else
      Completed (bump_registered r)
        (evs_ip ++ evs ++
         [Log log_info
            (RegisteringCached (displayName c) (modelNumber (device c))
               (uniqueId (device c)) (cachedIPAddress c)
               (lightVersion (device c)) (lightVersionModifier (device c)));
          NewRGBStrip this;
          UpdatePlatformAccessories this])
  end.

(** The four ways one iteration can go. *)
Inductive iteration (dev : Device) (r : Run) : Outcome → Prop :=
| iteration_throws e evs :
    find_accessory (generate (uniqueId dev)) (accessories r) = None →
    iteration dev r (Thrown e r evs)
| iteration_rejects evs :
    find_accessory (generate (uniqueId dev)) (accessories r) = None →
    occurrences is_register evs = 0%nat →
    occurrences is_unregister evs = 0%nat →
    iteration dev r (Completed r evs)
| iteration_registers r' evs a :
    find_accessory (generate (uniqueId dev)) (accessories r) = None →
    accessories r' = accessories r ++ [a] →
    UUID a = generate (uniqueId dev) →
    cachedIPAddress (context a) = ipAddress dev →
    restartsSinceSeen (context a) = 0 →
    iteration dev r (Completed r' evs)
| iteration_matches r' evs this existing :
    find_accessory (generate (uniqueId dev)) (accessories r) = Some (this, existing) →
    accessories r' =
      <[this := set_cachedIPAddress (set_restartsSinceSeen existing 0)
                  (ipAddress dev)]> (accessories r) →
    newDevices r' = newDevices r →
    occurrences is_register evs = 0%nat →
    occurrences (is_unregister_of this) evs =
      (if (isAllowed config (uniqueId (device (context existing)))).1
       then 0%nat else 1%nat) →
    occurrences is_unregister evs =
      (if (isAllowed config (uniqueId (device (context existing)))).1
       then 0%nat else 1%nat) →
    iteration dev r (Completed r' evs).

(** The [for ... of devices] loop: a throw in one iteration leaves the loop. *)
Fixpoint for_of_devices (devices : list Device) (r : Run) : Outcome :=
  match devices with
  | [] => Completed r []
  | dev :: devices' =>
    match loop_body dev r with
    | Completed r' evs => after evs (for_of_devices devices' r')
    | Thrown e r' evs => Thrown e r' evs
    end
  end.

(** The devices of the list whose iteration ran to its end: all of them, or
    those in front of the first one whose iteration threw. *)
Fixpoint processed (devices : list Device) (r : Run) : list Device :=
  match devices with
  | [] => []
  | dev :: devices' =>
    match loop_body dev r with
    | Completed r' _ => dev :: processed devices' r'
    | Thrown _ _ _ => []
    end
  end.

(** Position of the accessory that [find] returns for a device. *)
Definition find_index (dev : Device) (accs : list PlatformAccessory) : option nat :=
  fst <$> find_accessory (generate (uniqueId dev)) accs.

(** Some device of [devices] is matched with the accessory at position [i]
    of [accs]. *)
Definition matched_by (devices : list Device) (accs : list PlatformAccessory)
    (i : nat) : bool :=
  existsb (λ dev, bool_decide (find_index dev accs = Some i)) devices.

(** What a start leaves of a cache in which every discovered device finds
    its accessory, under its current address. *)
Definition settled (devices : list Device) (cache : list PlatformAccessory)
    : list PlatformAccessory :=
  imap (λ i a, if matched_by devices cache i
               then set_restartsSinceSeen a 0
               else set_restartsSinceSeen a (restartsSinceSeen (context a) + 1))
       cache.

(** Every discovered device finds its accessory in the cache, under the
    address it was discovered at. *)
Definition converged (devices : list Device) (cache : list PlatformAccessory)
    : Prop :=
  ∀ d, d ∈ devices →
    ∃ i a, find_accessory (generate (uniqueId d)) cache = Some (i, a)
           ∧ cachedIPAddress (context a) = ipAddress d.

(** [try { for ... } catch (error) { this.log.error(error) }], lines 94 to 229. *)
Definition try_reconcile (devices : list Device) (r : Run) : Run * list Event :=
  match for_of_devices devices r with
  | Completed r' evs => (r', evs)
  | Thrown e r' evs => (r', evs ++ [Log log_error (Caught e)])
  end.

(** *** Pruning *)

(** [accessory.context.displayName.toString().toLowerCase().includes('delete')] *)
Definition marked_for_deletion (accessory : PlatformAccessory) : bool :=
  includes (toLowerCase (displayName (context accessory))) "delete".

(** The body of [for (const accessory of this.accessories)], lines 237 to 280;
    [this] is the position of [accessory]. *)
Definition sweep_body (this : nat) (accessory : PlatformAccessory) (r : Run)
    : Outcome :=
  let c := context accessory in
  let unseen_rule (r : Run) : Outcome :=
    if 0 <? restartsSinceSeen c then
      let '(allowed, evs) := isAllowed config (uniqueId (device c)) in
      if negb allowed then
        Completed r
          (evs ++
           [Log log_warn (WillBePruned (displayName c) (uniqueId (device c)));
            UnregisterPlatformAccessories this])
      else
        Completed (bump_unseen (bump_registered r))
          (evs ++
           [Log log_warn
              (ContinuingUnseen (displayName c) (restartsSinceSeen c)
                 (modelNumber (device c)) (uniqueId (device c))
                 (cachedIPAddress c) (lightVersion (device c))
                 (lightVersionModifier (device c)));
            NewRGBStrip this;
            UpdatePlatformAccessories this])
    else Completed r [] in
  if marked_for_deletion accessory then
    Completed r
      [UnregisterPlatformAccessories this;
       Log log_warn (PrunedMarkedForDeletion (displayName c))]
  else
    match pruning config with
    | None => Thrown (TypeError "Cannot read properties of undefined") r []
    | Some p =>
      if (pruneMissingCachedAccessories p || pruneAllAccessoriesNextRestart p)%bool
      then
        if ((restartsBeforeMissingAccessoriesPruned p <=? restartsSinceSeen c)
            || pruneAllAccessoriesNextRestart p)%bool
        then
          Completed r
            [UnregisterPlatformAccessories this;
             Log log_warn (PrunedNotSeen (displayName c) (restartsSinceSeen c))]
        else unseen_rule r
      else unseen_rule r
    end.

(** The sweep over [this.accessories] from position [this] on; it is not
    inside any [try], so a throw leaves [discoverDevices]. *)
Fixpoint for_of_accessories (this : nat) (accs : list PlatformAccessory)
    (r : Run) : Outcome :=
  match accs with
  | [] => Completed r []
  | accessory :: accs' =>
    match sweep_body this accessory r with
    | Completed r' evs => after evs (for_of_accessories (S this) accs' r')
    | Thrown e r' evs => Thrown e r' evs
    end
  end.

Definition sweep (r : Run) : Outcome :=
  for_of_accessories 0 (accessories r) r.

(** *** [discoverDevices] *)

(** Everything after the scan, for a given list of discovered devices. *)
Definition reconcile_and_prune (devices : list Device)
    (accs : list PlatformAccessory) : Outcome :=
  let '(r, evs) := try_reconcile devices (mkRun accs 0 0 0) in
  match sweep r with
  | Thrown e r' evs' => Thrown e r' (evs ++ evs')
  | Completed r' evs' =>
    Completed r'
      (evs ++ evs' ++
       [Log log_info
          (Summary (registeredDevices r') (newDevices r')
             (registeredDevices r' - newDevices r' - unseenDevices r')
             (unseenDevices r'))])
  end.

(** [discoverDevices()] on a platform whose [this.accessories] is [accs], once
    the calls awaited in front of the [try] (lines 69, 70, 78 and 82) have
    answered; [discoverDevices_awaited] below is the method with these calls.
    [Thrown] is the rejection of the promise the method returns. *)
Definition discoverDevices (accs : list PlatformAccessory) : Outcome :=
  let '(devices, _, evs) := scan_phase in
  after evs (reconcile_and_prune devices accs).

(** One start of the process: the host restores [cache], then fires
    [didFinishLaunching]. *)
Definition startup (cache : list PlatformAccessory) : Outcome :=
  let '(accs, evs) := restore cache in
  after evs (discoverDevices accs).

End Platform.

Arguments isAllowed config uniqueId : simpl never.

(** ** Devices the loop can get past *)

(** Both calls the loop awaits for a new device succeed. *)
Definition answers (createAccessory : Device → Completion DeviceType)
    (getState : string → Completion TransportState) (dev : Device) : Prop :=
  (∃ deviceType, createAccessory dev = Normal deviceType)
  ∧ (∃ state, getState (ipAddress dev) = Normal state).

(** The device has its accessory in [accs], so that the loop awaits nothing
    for it, or both calls succeed. *)
Definition known_or_answers (generate : string → string)
    (createAccessory : Device → Completion DeviceType)
    (getState : string → Completion TransportState)
    (accs : list PlatformAccessory) (dev : Device) : Prop :=
  is_Some (find_index generate dev accs) ∨ answers createAccessory getState dev.

(** ** [discoverDevices] with the calls it awaits outside the [try] *)

(** How the scan loop ends when a scan can reject. *)
Inductive ScanOutcome : Type :=
| Scanned (devices : list Device) (scans : nat) (evs : list Event)
| ScanThrown (e : JsError) (evs : list Event).

Section Launch.
Variable generate : string → string.
(** [await systemInformation.networkInterfaceDefault()], line 69; when it
    resolves, it resolves to a string, as the library declares. *)
Variable networkInterfaceDefault : Completion string.
(** [broadcastAddress(defaultInterface.toString())], line 70 *)
Variable broadcastAddress : string → Completion string.
(** [await discover.scan(2000)], lines 78 and 82: the [k]-th call of the run
    answers a list of devices or rejects. *)
Variable awaited_scan : nat → Completion (list Device).
Variable createAccessory : Device → Completion DeviceType.
Variable getState : string → Completion TransportState.
Variable config : PlatformConfig.

(** The [while] loop of lines 80 to 84; a rejected scan leaves it, and the
    method, by a throw.  [remaining] is as in [rescan]. *)
Fixpoint rescan_awaited (remaining : nat) (devices : list Device) (scans : nat)
    : ScanOutcome :=
  match remaining with
  | O => Scanned devices scans []
  | S remaining' =>
    if (Nat.eqb (length devices) 0 && Nat.ltb scans 5)%bool then
      match awaited_scan (S scans) with
      | Throw e =>
        ScanThrown e [Log log_warn (FoundZeroRescanning (scans + 1)); Scan 2000]
      | Normal devices' =>
        match rescan_awaited remaining' devices' (S scans) with
        | Scanned devices'' scans'' evs =>
          Scanned devices'' scans''
            (Log log_warn (FoundZeroRescanning (scans + 1)) :: Scan 2000 :: evs)
        | ScanThrown e evs =>
          ScanThrown e
            (Log log_warn (FoundZeroRescanning (scans + 1)) :: Scan 2000 :: evs)
        end
      end
    else Scanned devices scans []
  end.

(** [discoverDevices()] from its first line, lines 68 to 290.  Nothing before
    the [try] of line 94 is guarded, so a rejection of one of the awaited calls
    rejects the promise of the method; the two values of lines 69 and 70 are
    only arguments of the first log line, which [ScanningBroadcast] does not
    record.  The registry calls, the handler constructor and the reads of the
    contexts are as in [reconcile_and_prune]. *)
Definition discoverDevices_awaited (accs : list PlatformAccessory) : Outcome :=
  match networkInterfaceDefault with
  | Throw e => Thrown e (mkRun accs 0 0 0) []
  | Normal defaultInterface =>
    match broadcastAddress defaultInterface with
    | Throw e => Thrown e (mkRun accs 0 0 0) []
    | Normal _ =>
      match awaited_scan 0%nat with
      | Throw e =>
        Thrown e (mkRun accs 0 0 0) [Log log_info ScanningBroadcast; Scan 2000]
      | Normal devices0 =>
        match rescan_awaited 5 devices0 0 with
        | ScanThrown e evs =>
          Thrown e (mkRun accs 0 0 0)
            ([Log log_info ScanningBroadcast; Scan 2000] ++ evs)
        | Scanned devices _ evs =>
          after ([Log log_info ScanningBroadcast; Scan 2000] ++ evs ++
                 [if Nat.eqb (length devices) 0 then Log log_warn FoundZeroDevices
                  else Log log_info (FoundDevices (length devices))])
            (reconcile_and_prune generate createAccessory getState config
               devices accs)
        end
      end
    end
  end.

(** The scans the method performs all succeed: scan number [n] is the first
    to find a device, or the sixth, and none up to it rejects. *)
Definition scans_succeed : Prop :=
  ∃ n devices,
    (n ≤ 5)%nat
    ∧ (∀ k, (k < n)%nat → awaited_scan k = Normal [])
    ∧ awaited_scan n = Normal devices
    ∧ (devices = [] → n = 5%nat).

End Launch.

(** ** The hosting registry between two starts *)

(** The host keeps on disk the accessories it restored or that were registered,
    minus those passed to [unregisterPlatformAccessories] (the comments at
    lines 28 to 31, 41 and 233 to 235 of the source describe this contract);
    [updatePlatformAccessories] only saves the context.  All of them are in
    [this.accessories] at the end of the run, so what the next start restores
    is that array without the positions that were unregistered. *)
Fixpoint persisted_from (this : nat) (accs : list PlatformAccessory)
    (evs : list Event) : list PlatformAccessory :=
  match accs with
  | [] => []
  | a :: accs' =>
    if existsb (is_unregister_of this) evs then persisted_from (S this) accs' evs
    else a :: persisted_from (S this) accs' evs
  end.

Definition persisted (o : Outcome) : list PlatformAccessory :=
  persisted_from 0 (accessories (run_of o)) (events_of o).

(** ** Accessories made by a run *)

(** An accessory as lines 135 to 152 make it, whatever its cached address has
    become since: its UUID is generated from the identifier of the device it
    stores, that device passed the allow list and carries a state snapshot,
    the display name is the convenient name of its type, the counter is 0. *)
Definition well_made (generate : string → string) (config : PlatformConfig)
    (a : PlatformAccessory) : Prop :=
  UUID a = generate (uniqueId (device (context a)))
  ∧ (isAllowed config (uniqueId (device (context a)))).1 = true
  ∧ restartsSinceSeen (context a) = 0
  ∧ displayName (context a) = convenientName (deviceType (context a))
  ∧ initialState (device (context a)) ≠ None.

(** [accs'] is [accs] after some iterations of the reconciliation loop: what
    was there is in place, untouched or marked as seen at some address, and
    what was pushed is well made. *)
Definition evolves (generate : string → string) (config : PlatformConfig)
    (accs accs' : list PlatformAccessory) : Prop :=
  (∀ i a, accs !! i = Some a →
     ∃ a', accs' !! i = Some a'
           ∧ (a' = a
              ∨ ∃ ip, a' = set_cachedIPAddress (set_restartsSinceSeen a 0) ip))
  ∧ (∀ i a', accs' !! i = Some a' → (length accs ≤ i)%nat →
       well_made generate config a').

(** ** The allow list as the specification words it *)

(** The reference definition of the allow list: no list or no mode, allowed; a
    mode containing "blacklist", allowed exactly outside the list; otherwise a
    mode containing "whitelist", allowed exactly inside the list. *)
Definition isAllowed_reference (ids : option (list string)) (mode : option string)
    (uniqueId : string) : bool :=
  match ids, mode with
  | Some l, Some m =>
    if includes m "blacklist" then negb (bool_decide (uniqueId ∈ l))
    else if includes m "whitelist" then bool_decide (uniqueId ∈ l)
    else true
  | _, _ => true
  end.

(** A well-typed [deviceManagement] section: a list of strings and a string,
    either of which the user may have left out. *)
Definition allow_list_config (ids : option (list string)) (mode : option string)
    (p : option Pruning) : PlatformConfig :=
  mkConfig
    (Some (mkDeviceManagement
             (match ids with Some l => JsArray (map JsString l) | None => JsUndefined end)
             (match mode with Some m => JsString m | None => JsUndefined end)))
    p.

(** ** Sample data used to exercise the statements below *)

Definition sample_generate (s : string) : string := ("uuid-" ++ s)%string.
Definition sample_type : DeviceType := mkDeviceType "RGB Strip".
Definition sample_createAccessory (d : Device) : Completion DeviceType :=
  Normal sample_type.
(** The device at 10.0.0.66 does not answer. *)
Definition sample_getState (ip : string) : Completion TransportState :=
  if String.eqb ip "10.0.0.66" then Throw (RejectedPromise "getState timed out")
  else Normal (mkTransportState "81").
Definition never_found (k : nat) : list Device := [].

Definition sample_pruning : Pruning := mkPruning false false 3.
Definition sample_config : PlatformConfig := mkConfig None (Some sample_pruning).

Definition device_A1 : Device := mkDevice "A1" "10.0.0.9" "AK001-ZJ200" 8 51 None.
Definition device_B2 : Device := mkDevice "B2" "10.0.0.66" "AK001-ZJ200" 8 51 None.
Definition device_C3 : Device := mkDevice "C3" "10.0.0.7" "AK001-ZJ200" 8 51 None.

(** A cached accessory for [device_A1] at its current address. *)
Definition settled_A1 (restarts : Z) : PlatformAccessory :=
  mkAccessory "uuid-A1" (mkContext sample_type "lamp" device_A1 "10.0.0.9" restarts).
(** A cached accessory for [device_A1], last seen at another address. *)
Definition lamp_A1 (restarts : Z) : PlatformAccessory :=
  mkAccessory "uuid-A1" (mkContext sample_type "lamp" device_A1 "10.0.0.5" restarts).
Definition lamp_C3 (restarts : Z) : PlatformAccessory :=
  mkAccessory "uuid-C3" (mkContext sample_type "desk" device_C3 "10.0.0.7" restarts).
(** The user renamed this one to have it removed. *)
Definition marked_A1 (restarts : Z) : PlatformAccessory :=
  mkAccessory "uuid-A1"
    (mkContext sample_type "Please DELETE me" device_A1 "10.0.0.9" restarts).

(** [A1] is on the black list; nothing is pruned for being missing. *)
Definition blacklist_A1 : PlatformConfig :=
  allow_list_config (Some ["A1"%string]) (Some "blacklist"%string) (Some sample_pruning).

(** Two scans find nothing, the third finds [device_A1]. *)
Definition found_on_third (k : nat) : list Device :=
  if (k <? 2)%nat then [] else [device_A1].

(** Everything is to be pruned at the next restart. *)
Definition prune_all_config : PlatformConfig :=
  mkConfig None (Some (mkPruning false true 3)).

(** A configuration without any section. *)
Definition empty_config : PlatformConfig := mkConfig None None.

(** The network interface is found and has a broadcast address. *)
Definition sample_interface : Completion string := Normal "eth0".
Definition sample_broadcast (interface : string) : Completion string :=
  Normal "10.0.0.255".
(** The first scan finds nothing, the second rejects. *)
Definition second_scan_rejects (k : nat) : Completion (list Device) :=
  if (k <? 1)%nat then Normal [] else Throw (RejectedPromise "socket closed").
(** Every scan finds [device_A1]. *)
Definition scan_finds_A1 (k : nat) : Completion (list Device) := Normal [device_A1].

(** * Properties *)

Section Properties.
Variable generate : string → string.
Variable scan : nat → list Device.
Variable createAccessory : Device → Completion DeviceType.
Variable getState : string → Completion TransportState.
Variable config : PlatformConfig.

(** ** The scan loop *)

(** The bounded recursion [rescan] satisfies the equation of the source's
    [while] loop whenever it is entered with [5 - scans] iterations left. *)
Lemma rescan_unfold (devices : list Device) (scans : nat) :
  rescan scan (5 - scans) devices scans =
  if (Nat.eqb (length devices) 0 && Nat.ltb scans 5)%bool then
    let '(devices', scans', evs) :=
      rescan scan (5 - S scans) (scan (S scans)) (S scans) in
    (devices', scans',
     Log log_warn (FoundZeroRescanning (scans + 1)) :: Scan 2000 :: evs)
  else (devices, scans, []).
Proof.
  destruct (Nat.ltb_spec scans 5) as [Hlt | Hge].
  - replace (5 - scans)%nat with (S (5 - S scans)) by lia.
    cbn [rescan]. apply Nat.ltb_lt in Hlt. by rewrite Hlt.
  - replace (5 - scans)%nat with 0%nat by lia.
    cbn [rescan]. by rewrite andb_false_r.
Qed.

(** The loop over an empty device list does nothing and raises nothing. *)
Lemma try_reconcile_nil (r : Run) :
  try_reconcile generate createAccessory getState config [] r = (r, []).
Proof. reflexivity. Qed.

(** C2 (amended).  When every scan finds nothing, [discoverDevices] calls
    [discover.scan] six times: once before the loop and once in each of the
    five iterations of the loop, each iteration logging one warning; the loop
    leaves with an empty device list and five counted rescans, and the run
    goes on with that empty list, the reconciliation loop doing nothing. *)
Theorem scan_always_empty (accs : list PlatformAccessory) :
  (∀ k, scan k = []) →
  scan_phase scan =
    ([], 5%nat,
     [Log log_info ScanningBroadcast; Scan 2000;
      Log log_warn (FoundZeroRescanning 1); Scan 2000;
      Log log_warn (FoundZeroRescanning 2); Scan 2000;
      Log log_warn (FoundZeroRescanning 3); Scan 2000;
      Log log_warn (FoundZeroRescanning 4); Scan 2000;
      Log log_warn (FoundZeroRescanning 5); Scan 2000;
      Log log_warn FoundZeroDevices]) ∧
  occurrences is_scan (scan_phase scan).2 = 6%nat ∧
  occurrences is_rescan_warning (scan_phase scan).2 = 5%nat ∧
  discoverDevices generate scan createAccessory getState config accs =
    after (scan_phase scan).2
      (reconcile_and_prune generate createAccessory getState config [] accs) ∧
  try_reconcile generate createAccessory getState config
    (scan_phase scan).1.1 (mkRun accs 0 0 0) = (mkRun accs 0 0 0, []).
Proof.
  intros Hempty.
  assert (Hphase : scan_phase scan =
    ([], 5%nat,
     [Log log_info ScanningBroadcast; Scan 2000;
      Log log_warn (FoundZeroRescanning 1); Scan 2000;
      Log log_warn (FoundZeroRescanning 2); Scan 2000;
      Log log_warn (FoundZeroRescanning 3); Scan 2000;
      Log log_warn (FoundZeroRescanning 4); Scan 2000;
      Log log_warn (FoundZeroRescanning 5); Scan 2000;
      Log log_warn FoundZeroDevices])).
  { unfold scan_phase. cbn [rescan]. by rewrite !Hempty. }
  unfold discoverDevices. rewrite Hphase. by cbn.
Qed.

(** ** The allow list *)

Lemma array_includes_strings (l : list string) (x : string) :
  array_includes (map JsString l) x = bool_decide (x ∈ l).
Proof.
  induction l as [| s l IH]; cbn [map array_includes existsb].
  - symmetry. apply bool_decide_eq_false, not_elem_of_nil.
  - fold (array_includes (map JsString l) x). rewrite IH.
    destruct (String.eqb_spec s x) as [-> | Hne]; cbn [orb].
    + symmetry. apply bool_decide_eq_true. by left.
    + apply bool_decide_ext. rewrite elem_of_cons.
      split; [tauto | intros [Heq | Hin]; [congruence | done]].
Qed.

(** C3 (amended).  On a well-typed allow-list section [isAllowed] logs
    nothing and follows the reference definition, with one exception: a mode
    string containing both "blacklist" and "whitelist" disallows every
    identifier.  So with a list or a mode left out every identifier is
    allowed; with a mode containing "blacklist" only, exactly the listed
    identifiers are disallowed; with a mode containing "whitelist" only,
    exactly the unlisted ones are.  A configuration without the section at all
    allows every identifier as well. *)
Theorem isAllowed_refines_reference (ids : option (list string))
    (mode : option string) (p : option Pruning) (uniqueId : string) :
  isAllowed (allow_list_config ids mode p) uniqueId =
    (match ids, mode with
     | Some _, Some m =>
       if (includes m "blacklist" && includes m "whitelist")%bool then false
       else isAllowed_reference ids mode uniqueId
     | _, _ => isAllowed_reference ids mode uniqueId
     end, []) ∧
  (isAllowed (mkConfig None p) uniqueId).1 = true.
Proof.
  split; [| reflexivity].
  unfold isAllowed, isAllowed_try, allow_list_config, isAllowed_reference.
  destruct ids as [l |], mode as [m |]; cbn; try reflexivity.
  rewrite array_includes_strings.
  destruct (bool_decide (uniqueId ∈ l)), (includes m "blacklist"),
    (includes m "whitelist"); reflexivity.
Qed.

(** ** Counting events *)

Lemma occurrences_app (f : Event → bool) (evs1 evs2 : list Event) :
  occurrences f (evs1 ++ evs2) = (occurrences f evs1 + occurrences f evs2)%nat.
Proof. unfold occurrences. by rewrite List.filter_app, length_app. Qed.

(** [isAllowed] produces nothing but debug lines. *)
Lemma isAllowed_only_logs (cfg : PlatformConfig) (uniqueId : string)
    (f : Event → bool) :
  (∀ m, f (Log log_debug m) = false) →
  occurrences f (isAllowed cfg uniqueId).2 = 0%nat.
Proof.
  intros Hf. unfold isAllowed.
  destruct (isAllowed_try cfg uniqueId); cbn; [done |].
  unfold occurrences. cbn. by rewrite Hf.
Qed.

Lemma events_of_after (evs : list Event) (o : Outcome) :
  events_of (after evs o) = evs ++ events_of o.
Proof. by destruct o. Qed.

Lemma run_of_after (evs : list Event) (o : Outcome) :
  run_of (after evs o) = run_of o.
Proof. by destruct o. Qed.

(** ** The pruning sweep *)

(** With a [pruning] section the body of the sweep never throws, and it never
    touches [this.accessories]. *)
Lemma sweep_body_completes (p : Pruning) (this : nat) (a : PlatformAccessory)
    (r : Run) :
  pruning config = Some p →
  ∃ r' evs, sweep_body config this a r = Completed r' evs
            ∧ accessories r' = accessories r.
Proof.
  intros Hp. unfold sweep_body. rewrite Hp.
  destruct (marked_for_deletion a); [by eauto |].
  destruct (isAllowed config (uniqueId (device (context a)))) as [allowed evs].
  destruct (pruneMissingCachedAccessories p || pruneAllAccessoriesNextRestart p)%bool,
    ((restartsBeforeMissingAccessoriesPruned p <=? restartsSinceSeen (context a))
     || pruneAllAccessoriesNextRestart p)%bool,
    (0 <? restartsSinceSeen (context a)), allowed; cbn; by eauto.
Qed.

(** What the body logs and asks of the registry does not depend on the
    counters. *)
Lemma sweep_body_events (this : nat) (a : PlatformAccessory) (r1 r2 : Run) :
  events_of (sweep_body config this a r1) = events_of (sweep_body config this a r2).
Proof.
  unfold sweep_body.
  destruct (marked_for_deletion a); [done |].
  destruct (pruning config) as [p |]; [| done].
  destruct (isAllowed config (uniqueId (device (context a)))) as [allowed evs].
  destruct (pruneMissingCachedAccessories p || pruneAllAccessoriesNextRestart p)%bool,
    ((restartsBeforeMissingAccessoriesPruned p <=? restartsSinceSeen (context a))
     || pruneAllAccessoriesNextRestart p)%bool,
    (0 <? restartsSinceSeen (context a)), allowed; by cbn.
Qed.

(** Unregistrations by one iteration of the sweep: only of its own accessory,
    and exactly under the three pruning rules. *)
Lemma sweep_body_unregisters (p : Pruning) (this i : nat)
    (a : PlatformAccessory) (r : Run) :
  pruning config = Some p →
  occurrences (is_unregister_of i) (events_of (sweep_body config this a r)) =
  if (Nat.eqb i this
      && (marked_for_deletion a
          || (pruneAllAccessoriesNextRestart p
              || pruneMissingCachedAccessories p
                 && (restartsBeforeMissingAccessoriesPruned p
                     <=? restartsSinceSeen (context a)))
          || (0 <? restartsSinceSeen (context a))
             && negb (isAllowed config (uniqueId (device (context a)))).1))%bool
  then 1%nat else 0%nat.
Proof.
  intros Hp. unfold sweep_body. rewrite Hp.
  pose proof (isAllowed_only_logs config (uniqueId (device (context a)))
                (is_unregister_of i)) as Hlogs.
  destruct (isAllowed config (uniqueId (device (context a)))) as [allowed evs].
  cbn [fst snd] in *. specialize (Hlogs (λ _, eq_refl)).
  destruct (marked_for_deletion a), (pruneMissingCachedAccessories p),
    (pruneAllAccessoriesNextRestart p),
    (restartsBeforeMissingAccessoriesPruned p <=? restartsSinceSeen (context a)),
    (0 <? restartsSinceSeen (context a)), allowed;
    cbn [orb andb negb events_of]; rewrite ?occurrences_app, ?Hlogs;
    unfold occurrences; cbn [List.filter is_unregister_of length];
    destruct (Nat.eqb i this); reflexivity.
Qed.

(** Updates by one iteration of the sweep: only of its own accessory, when no
    rule prunes it and it was not seen this run. *)
Lemma sweep_body_updates (p : Pruning) (this i : nat)
    (a : PlatformAccessory) (r : Run) :
  pruning config = Some p →
  occurrences (is_update_of i) (events_of (sweep_body config this a r)) =
  if (Nat.eqb i this
      && negb (marked_for_deletion a)
      && negb (pruneAllAccessoriesNextRestart p
               || pruneMissingCachedAccessories p
                  && (restartsBeforeMissingAccessoriesPruned p
                      <=? restartsSinceSeen (context a)))
      && (0 <? restartsSinceSeen (context a))
      && (isAllowed config (uniqueId (device (context a)))).1)%bool
  then 1%nat else 0%nat.
Proof.
  intros Hp. unfold sweep_body. rewrite Hp.
  pose proof (isAllowed_only_logs config (uniqueId (device (context a)))
                (is_update_of i)) as Hlogs.
  destruct (isAllowed config (uniqueId (device (context a)))) as [allowed evs].
  cbn [fst snd] in *. specialize (Hlogs (λ _, eq_refl)).
  destruct (marked_for_deletion a), (pruneMissingCachedAccessories p),
    (pruneAllAccessoriesNextRestart p),
    (restartsBeforeMissingAccessoriesPruned p <=? restartsSinceSeen (context a)),
    (0 <? restartsSinceSeen (context a)), allowed;
    cbn [orb andb negb events_of]; rewrite ?occurrences_app, ?Hlogs;
    unfold occurrences; cbn [List.filter is_update_of length];
    destruct (Nat.eqb i this); reflexivity.
Qed.

(** The whole sweep, seen from one position [i]: it completes, leaves
    [this.accessories] alone, and the events of a kind [f] that only the
    iteration on [i] can produce are those of that iteration. *)
Lemma for_of_accessories_at (p : Pruning) (f : Event → bool) (i : nat) :
  pruning config = Some p →
  (∀ this a r, this ≠ i →
     occurrences f (events_of (sweep_body config this a r)) = 0%nat) →
  ∀ accs this r,
    ∃ r' evs,
      for_of_accessories config this accs r = Completed r' evs
      ∧ accessories r' = accessories r
      ∧ occurrences f evs =
        match (if (this <=? i)%nat then accs !! (i - this)%nat else None) with
        | Some a => occurrences f (events_of (sweep_body config i a r))
        | None => 0%nat
        end.
Proof.
  intros Hp Hother accs.
  induction accs as [| a accs IH]; intros this r; cbn [for_of_accessories].
  - exists r, []. split_and!; [done.. |].
    by destruct (this <=? i)%nat.
  - destruct (sweep_body_completes p this a r Hp) as (r1 & evs1 & Hbody & Hacc1).
    rewrite Hbody.
    destruct (IH (S this) r1) as (r' & evs' & Hrest & Hacc' & Hocc).
    rewrite Hrest. cbn [after].
    exists r', (evs1 ++ evs'). split_and!; [done | congruence |].
    rewrite occurrences_app, Hocc.
    replace evs1 with (events_of (sweep_body config this a r)) by by rewrite Hbody.
    destruct (Nat.leb_spec this i) as [Hle | Hgt].
    + destruct (decide (this = i)) as [-> | Hne].
      * rewrite Nat.sub_diag. cbn [lookup list_lookup].
        destruct (Nat.leb_spec (S i) i); [lia |]. lia.
      * rewrite (Hother this a r Hne).
        destruct (Nat.leb_spec (S this) i); [| lia].
        replace (i - this)%nat with (S (i - S this)) by lia.
        cbn [lookup list_lookup plus].
        destruct (accs !! (i - S this)%nat) as [a' |]; [| done].
        cbn. f_equal. apply sweep_body_events.
    + rewrite (Hother this a r) by lia.
      destruct (Nat.leb_spec (S this) i); [lia | done].
Qed.

(** C5.  An accessory whose display name contains "delete" in any letter case
    is unregistered by its iteration of the sweep whatever the configuration
    and its counter are, and nothing else happens for it: no other rule is
    consulted, no counter moves.  In a sweep with any pruning flags it is
    therefore unregistered exactly once and never updated. *)
Theorem marked_for_deletion_always_pruned (p : Pruning) (r : Run) (i : nat)
    (a : PlatformAccessory) :
  pruning config = Some p →
  accessories r !! i = Some a →
  marked_for_deletion a = true →
  (∀ config' this r0,
     sweep_body config' this a r0 =
     Completed r0
       [UnregisterPlatformAccessories this;
        Log log_warn (PrunedMarkedForDeletion (displayName (context a)))])
  ∧ ∃ r' evs,
      sweep config r = Completed r' evs
      ∧ occurrences (is_unregister_of i) evs = 1%nat
      ∧ occurrences (is_update_of i) evs = 0%nat.
Proof.
  intros Hp Hi Hmarked. split.
  { intros config' this r0. unfold sweep_body. by rewrite Hmarked. }
  unfold sweep.
  destruct (for_of_accessories_at p (is_unregister_of i) i Hp) with
    (accs := accessories r) (this := 0%nat) (r := r)
    as (r' & evs & Hsweep & _ & Hunreg).
  { intros this a' r0 Hne. rewrite (sweep_body_unregisters p) by done.
    by destruct (Nat.eqb_spec i this). }
  destruct (for_of_accessories_at p (is_update_of i) i Hp) with
    (accs := accessories r) (this := 0%nat) (r := r)
    as (r'' & evs'' & Hsweep' & _ & Hupd).
  { intros this a' r0 Hne. rewrite (sweep_body_updates p) by done.
    by destruct (Nat.eqb_spec i this). }
  rewrite Hsweep in Hsweep'. injection Hsweep' as <- <-.
  exists r', evs. split; [done |].
  cbn [Nat.leb] in Hunreg, Hupd. rewrite Nat.sub_0_r, Hi in Hunreg, Hupd.
  rewrite Hunreg, Hupd.
  rewrite (sweep_body_unregisters p), (sweep_body_updates p) by done.
  by rewrite Nat.eqb_refl, Hmarked.
Qed.

(** C4 (amended).  In a sweep with a [pruning] section, an accessory whose
    display name does not contain "delete" is unregistered exactly when
    [pruneAllAccessoriesNextRestart] holds, or [pruneMissingCachedAccessories]
    holds and its counter has reached the threshold, or its counter is
    positive and the allow list rejects its device; it is updated exactly
    when none of these holds and its counter is positive.  In particular, one
    restart short of the threshold (and without [pruneAll...]) it is kept
    unless the allow list rejects it, and updated if its counter is
    positive. *)
Theorem sweep_prunes_exactly (p : Pruning) (r : Run) (i : nat)
    (a : PlatformAccessory) :
  pruning config = Some p →
  accessories r !! i = Some a →
  marked_for_deletion a = false →
  let seen := restartsSinceSeen (context a) in
  let allowed := (isAllowed config (uniqueId (device (context a)))).1 in
  let retention :=
    (pruneAllAccessoriesNextRestart p
     || pruneMissingCachedAccessories p
        && (restartsBeforeMissingAccessoriesPruned p <=? seen))%bool in
  ∃ r' evs,
    sweep config r = Completed r' evs
    ∧ occurrences (is_unregister_of i) evs =
      (if (retention || (0 <? seen) && negb allowed)%bool then 1%nat else 0%nat)
    ∧ occurrences (is_update_of i) evs =
      (if (negb retention && (0 <? seen) && allowed)%bool then 1%nat else 0%nat)
    ∧ (seen = restartsBeforeMissingAccessoriesPruned p - 1 →
       pruneAllAccessoriesNextRestart p = false →
       retention = false).
Proof.
  intros Hp Hi Hmarked seen allowed retention. unfold sweep.
  destruct (for_of_accessories_at p (is_unregister_of i) i Hp) with
    (accs := accessories r) (this := 0%nat) (r := r)
    as (r' & evs & Hsweep & _ & Hunreg).
  { intros this a' r0 Hne. rewrite (sweep_body_unregisters p) by done.
    by destruct (Nat.eqb_spec i this). }
  destruct (for_of_accessories_at p (is_update_of i) i Hp) with
    (accs := accessories r) (this := 0%nat) (r := r)
    as (r'' & evs'' & Hsweep' & _ & Hupd).
  { intros this a' r0 Hne. rewrite (sweep_body_updates p) by done.
    by destruct (Nat.eqb_spec i this). }
  rewrite Hsweep in Hsweep'. injection Hsweep' as <- <-.
  exists r', evs. split; [done |].
  cbn [Nat.leb] in Hunreg, Hupd. rewrite Nat.sub_0_r, Hi in Hunreg, Hupd.
  rewrite Hunreg, Hupd.
  rewrite (sweep_body_unregisters p), (sweep_body_updates p) by done.
  rewrite Nat.eqb_refl, Hmarked. cbn [andb orb negb].
  split_and!; [done.. |].
  intros Hseen HpA. subst retention. rewrite HpA. cbn [orb].
  apply andb_false_intro2, Z.leb_gt. lia.
Qed.

(** ** Field updates *)

Lemma UUID_set_restartsSinceSeen a n : UUID (set_restartsSinceSeen a n) = UUID a.
Proof. reflexivity. Qed.
Lemma device_set_restartsSinceSeen a n :
  device (context (set_restartsSinceSeen a n)) = device (context a).
Proof. reflexivity. Qed.
Lemma displayName_set_restartsSinceSeen a n :
  displayName (context (set_restartsSinceSeen a n)) = displayName (context a).
Proof. reflexivity. Qed.
Lemma cachedIPAddress_set_restartsSinceSeen a n :
  cachedIPAddress (context (set_restartsSinceSeen a n)) = cachedIPAddress (context a).
Proof. reflexivity. Qed.
Lemma restartsSinceSeen_set_restartsSinceSeen a n :
  restartsSinceSeen (context (set_restartsSinceSeen a n)) = n.
Proof. reflexivity. Qed.
Lemma UUID_set_cachedIPAddress a ip : UUID (set_cachedIPAddress a ip) = UUID a.
Proof. reflexivity. Qed.
Lemma device_set_cachedIPAddress a ip :
  device (context (set_cachedIPAddress a ip)) = device (context a).
Proof. reflexivity. Qed.
Lemma displayName_set_cachedIPAddress a ip :
  displayName (context (set_cachedIPAddress a ip)) = displayName (context a).
Proof. reflexivity. Qed.
Lemma cachedIPAddress_set_cachedIPAddress a ip :
  cachedIPAddress (context (set_cachedIPAddress a ip)) = ip.
Proof. reflexivity. Qed.
Lemma restartsSinceSeen_set_cachedIPAddress a ip :
  restartsSinceSeen (context (set_cachedIPAddress a ip)) = restartsSinceSeen (context a).
Proof. reflexivity. Qed.

Create Rewrite HintDb accessory.
Hint Rewrite UUID_set_restartsSinceSeen device_set_restartsSinceSeen
  displayName_set_restartsSinceSeen cachedIPAddress_set_restartsSinceSeen
  restartsSinceSeen_set_restartsSinceSeen UUID_set_cachedIPAddress
  device_set_cachedIPAddress displayName_set_cachedIPAddress
  cachedIPAddress_set_cachedIPAddress restartsSinceSeen_set_cachedIPAddress
  : accessory.

(** ** One iteration of the reconciliation loop *)

(** One iteration on a match.  When the discovered device matches a cached
    accessory, the iteration completes, puts back at the same position an accessory with the same
    UUID whose cached address is the discovered one, adds nothing to
    [this.accessories] and registers nothing.  If the cached address
    differed, the iteration starts with the four warnings, the second
    carrying the old address and the third the new one; if it was equal, only
    the counter of the accessory changes and no address warning is logged. *)
Lemma loop_body_corrects_drift (dev : Device) (r : Run) (this : nat)
    (existing : PlatformAccessory) :
  find_accessory (generate (uniqueId dev)) (accessories r) = Some (this, existing) →
  ∃ r' evs existing',
    loop_body generate createAccessory getState config dev r = Completed r' evs
    ∧ accessories r' = <[this := existing']> (accessories r)
    ∧ length (accessories r') = length (accessories r)
    ∧ UUID existing' = UUID existing
    ∧ cachedIPAddress (context existing') = ipAddress dev
    ∧ occurrences is_register evs = 0%nat
    ∧ (cachedIPAddress (context existing) ≠ ipAddress dev →
       ∃ evs',
         evs =
         [Log log_warn (IpDiscrepancyFound (displayName (context existing)));
          Log log_warn (ExpectedIp (cachedIPAddress (context existing)));
          Log log_warn (DiscoveredIp (ipAddress dev));
          Log log_warn (IpReassigned (ipAddress dev))] ++ evs')
    ∧ (cachedIPAddress (context existing) = ipAddress dev →
       existing' = set_restartsSinceSeen existing 0
       ∧ cachedIPAddress (context existing') = cachedIPAddress (context existing)
       ∧ occurrences is_ip_warning evs = 0%nat).
Proof.
  intros Hfind. unfold loop_body. rewrite Hfind. cbv zeta.
  autorewrite with accessory.
  destruct (String.eqb_spec (cachedIPAddress (context existing)) (ipAddress dev))
    as [Heq | Hne]; cbn [negb].
  - pose proof (isAllowed_only_logs config (uniqueId (device (context existing)))
                  is_register (λ _, eq_refl)) as Hreg.
    pose proof (isAllowed_only_logs config (uniqueId (device (context existing)))
                  is_ip_warning (λ _, eq_refl)) as Hip.
    autorewrite with accessory.
    destruct (isAllowed config (uniqueId (device (context existing))))
      as [[] evs]; cbn [negb fst snd] in *;
      eexists _, _, _; (split; [reflexivity |]);
      cbn [accessories set_accessories bump_registered];
      rewrite length_insert; autorewrite with accessory;
      rewrite ?occurrences_app, ?Hreg, ?Hip;
      (split_and!; [done | done | done | done | done | done | by intros _]).
  - pose proof (isAllowed_only_logs config (uniqueId (device (context existing)))
                  is_register (λ _, eq_refl)) as Hreg.
    autorewrite with accessory.
    destruct (isAllowed config (uniqueId (device (context existing))))
      as [[] evs]; cbn [negb fst snd] in *;
      eexists _, _, _; (split; [reflexivity |]);
      cbn [accessories set_accessories bump_registered];
      rewrite length_insert; autorewrite with accessory;
      rewrite ?occurrences_app, ?Hreg;
      (split_and!; [done | done | done | done | done | by eexists | done]).
Qed.

(** ** The reconciliation loop *)

(** [find] looks at UUIDs only. *)
Lemma find_index_UUIDs (dev : Device) (accs1 accs2 : list PlatformAccessory) :
  UUID <$> accs1 = UUID <$> accs2 →
  find_index generate dev accs1 = find_index generate dev accs2.
Proof.
  intros Huuids. unfold find_index, find_accessory.
  pose proof (list_find_fmap UUID (λ u, u = generate (uniqueId dev)) accs1) as H1.
  pose proof (list_find_fmap UUID (λ u, u = generate (uniqueId dev)) accs2) as H2.
  rewrite Huuids in H1. rewrite H1 in H2.
  apply (f_equal (fmap fst)) in H2. rewrite <- !option_fmap_compose in H2.
  exact H2.
Qed.

Lemma UUIDs_insert (accs : list PlatformAccessory) (i : nat)
    (a a' : PlatformAccessory) :
  accs !! i = Some a → UUID a' = UUID a →
  UUID <$> <[i := a']> accs = UUID <$> accs.
Proof.
  intros Hi Huuid. rewrite list_fmap_insert, Huuid.
  apply list_insert_id. by rewrite list_lookup_fmap, Hi.
Qed.

(** Pushing accessories does not change what is found among the old ones. *)
Lemma find_index_app (dev : Device) (accs news : list PlatformAccessory) (i : nat) :
  (i < length accs)%nat →
  find_index generate dev (accs ++ news) = Some i ↔
  find_index generate dev accs = Some i.
Proof.
  intros Hlt. unfold find_index, find_accessory. split.
  - intros ([j a] & Hfind & [= ->])%fmap_Some.
    apply list_find_app_Some in Hfind as [Hfind | (Hge & _)]; [| lia].
    by rewrite Hfind.
  - intros ([j a] & Hfind & [= ->])%fmap_Some.
    by rewrite (list_find_app_l _ _ _ _ _ Hfind).
Qed.

Lemma matched_by_UUIDs (devices : list Device)
    (accs1 accs2 : list PlatformAccessory) (i : nat) :
  UUID <$> accs1 = UUID <$> accs2 →
  matched_by generate devices accs1 i = matched_by generate devices accs2 i.
Proof.
  intros Huuids. unfold matched_by.
  induction devices as [| d devices IH]; cbn [existsb]; [done |].
  by rewrite IH, (find_index_UUIDs d accs1 accs2 Huuids).
Qed.

Lemma matched_by_app (devices : list Device)
    (accs news : list PlatformAccessory) (i : nat) :
  (i < length accs)%nat →
  matched_by generate devices (accs ++ news) i = matched_by generate devices accs i.
Proof.
  intros Hlt. unfold matched_by.
  induction devices as [| d devices IH]; cbn [existsb]; [done |].
  rewrite IH. f_equal. apply bool_decide_ext. by apply find_index_app.
Qed.

Lemma set_cachedIPAddress_same (a : PlatformAccessory) :
  set_cachedIPAddress a (cachedIPAddress (context a)) = a.
Proof. by destruct a as [u []]. Qed.

Lemma set_restartsSinceSeen_drift (a : PlatformAccessory) (ip : string) :
  cachedIPAddress (context a) = ip →
  set_restartsSinceSeen a 0 = set_cachedIPAddress (set_restartsSinceSeen a 0) ip.
Proof. intros <-. by destruct a as [u []]. Qed.

Lemma occurrences_cons (f : Event → bool) (e : Event) (evs : list Event) :
  occurrences f (e :: evs) = ((if f e then 1 else 0) + occurrences f evs)%nat.
Proof. unfold occurrences. cbn [List.filter]. by destruct (f e). Qed.

Lemma occurrences_nil (f : Event → bool) : occurrences f [] = 0%nat.
Proof. reflexivity. Qed.

Lemma loop_body_iteration (dev : Device) (r : Run) :
  iteration generate config dev r
    (loop_body generate createAccessory getState config dev r).
Proof.
  unfold loop_body.
  destruct (find_accessory (generate (uniqueId dev)) (accessories r))
    as [[this existing] |] eqn:Hfind.
  - cbv zeta.
    pose proof (isAllowed_only_logs config (uniqueId (device (context existing))))
      as Hlogs.
    destruct (String.eqb_spec
                (cachedIPAddress (context (set_restartsSinceSeen existing 0)))
                (ipAddress dev)) as [Heq | Hne]; cbn [negb];
      autorewrite with accessory;
      destruct (isAllowed config (uniqueId (device (context existing))))
        as [[] evs] eqn:Hallowed; cbn [negb fst snd] in *;
      (eapply iteration_matches; [exact Hfind | ..]);
      cbn [accessories set_accessories bump_registered newDevices];
      rewrite ?Hallowed, ?occurrences_app, ?occurrences_cons, ?occurrences_nil,
        ?(Hlogs is_register (λ _, eq_refl)),
        ?(Hlogs is_unregister (λ _, eq_refl)),
        ?(Hlogs (is_unregister_of this) (λ _, eq_refl));
      cbn [is_register is_unregister is_unregister_of fst];
      rewrite ?Nat.eqb_refl; try reflexivity;
      by rewrite <- (set_restartsSinceSeen_drift existing (ipAddress dev) Heq).
  - destruct (createAccessory dev) as [deviceType | e]; [| by constructor].
    destruct (getState (ipAddress dev)) as [state | e]; [| by constructor].
    cbv zeta.
    pose proof (isAllowed_only_logs config
                  (uniqueId (set_initialState dev (debugBuffer state)))) as Hlogs.
    destruct (isAllowed config (uniqueId (set_initialState dev (debugBuffer state))))
      as [[] evs]; cbn [negb fst snd] in *.
    + by eapply iteration_registers.
    + apply iteration_rejects; [done | |];
        rewrite !occurrences_app, Hlogs by done; reflexivity.
Qed.

Lemma set_twice (a : PlatformAccessory) (ip ip' : string) :
  set_cachedIPAddress
    (set_restartsSinceSeen (set_cachedIPAddress (set_restartsSinceSeen a 0) ip) 0) ip'
  = set_cachedIPAddress (set_restartsSinceSeen a 0) ip'.
Proof. reflexivity. Qed.

Lemma find_index_Some (dev : Device) (accs : list PlatformAccessory) (i : nat)
    (a : PlatformAccessory) :
  find_accessory (generate (uniqueId dev)) accs = Some (i, a) →
  find_index generate dev accs = Some i ∧ accs !! i = Some a.
Proof.
  intros Hfind. unfold find_index. rewrite Hfind. split; [done |].
  by apply list_find_Some in Hfind as (? & _).
Qed.

Lemma find_index_None (dev : Device) (accs : list PlatformAccessory) :
  find_accessory (generate (uniqueId dev)) accs = None →
  find_index generate dev accs = None.
Proof. intros Hfind. unfold find_index. by rewrite Hfind. Qed.

Lemma matched_by_cons (dev : Device) (devices : list Device)
    (accs : list PlatformAccessory) (i : nat) :
  matched_by generate (dev :: devices) accs i =
  (bool_decide (find_index generate dev accs = Some i)
   || matched_by generate devices accs i)%bool.
Proof. reflexivity. Qed.

(** What the loop does to [this.accessories], whether it runs to its end or
    is left by a throw: nothing is removed; an accessory that was there is
    either untouched, or was matched by a processed device and then has a
    zero counter and that device's address; whatever was pushed has a zero
    counter. *)
Lemma for_of_devices_accessories (devices : list Device) :
  ∀ r,
    let o := for_of_devices generate createAccessory getState config devices r in
    let done := processed generate createAccessory getState config devices r in
    (length (accessories r) ≤ length (accessories (run_of o)))%nat
    ∧ (∀ i a, accessories r !! i = Some a →
         ∃ a', accessories (run_of o) !! i = Some a'
               ∧ if matched_by generate done (accessories r) i
                 then ∃ d, d ∈ done
                           ∧ find_index generate d (accessories r) = Some i
                           ∧ a' = set_cachedIPAddress (set_restartsSinceSeen a 0)
                                    (ipAddress d)
                 else a' = a)
    ∧ (∀ i a', accessories (run_of o) !! i = Some a' →
         (length (accessories r) ≤ i)%nat →
         restartsSinceSeen (context a') = 0).
Proof.
  induction devices as [| dev devices IH]; intros r;
    cbn [for_of_devices processed]; cbv zeta.
  { split_and!; [done | by intros i a Hi; exists a |].
    intros i a' Hi Hge. apply lookup_lt_Some in Hi. cbn in Hi. lia. }
  pose proof (loop_body_iteration dev r) as Hit.
  remember (loop_body generate createAccessory getState config dev r) as o eqn:Ho.
  clear Ho.
  destruct Hit as [e evs Hfind | evs Hfind _ _ | r' evs a Hfind Haccs Huuid Hip Hseen
                  | r' evs this existing Hfind Haccs _ _ _ _].
  - (* the iteration threw *)
    split_and!; [done | by intros i a Hi; exists a |].
    intros i a' Hi Hge. apply lookup_lt_Some in Hi. cbn in Hi. lia.
  - (* a new device that the allow list rejects *)
    rewrite run_of_after. destruct (IH r) as (Hlen & Hold & Hnew).
    split_and!; [done | | done].
    intros i a Hi. destruct (Hold i a Hi) as (a' & Hi' & Hcase).
    exists a'. split; [done |].
    rewrite matched_by_cons, (find_index_None _ _ Hfind).
    rewrite bool_decide_eq_false_2 by done. cbn [orb].
    destruct (matched_by generate _ (accessories r) i); [| done].
    destruct Hcase as (d & Hd & Hrest). exists d. split; [by right | done].
  - (* a new device, registered and pushed *)
    rewrite run_of_after. destruct (IH r') as (Hlen & Hold & Hnew).
    rewrite Haccs in Hlen, Hold, Hnew. rewrite length_app in Hlen, Hnew.
    cbn [length] in Hlen, Hnew.
    split_and!; [lia | |].
    + intros i a0 Hi.
      assert (i < length (accessories r))%nat as Hlt by by eapply lookup_lt_Some.
      destruct (Hold i a0) as (a' & Hi' & Hcase); [by apply lookup_app_l_Some |].
      exists a'. split; [done |].
      rewrite matched_by_cons, (find_index_None _ _ Hfind).
      rewrite bool_decide_eq_false_2 by done. cbn [orb].
      rewrite matched_by_app in Hcase by done.
      destruct (matched_by generate _ (accessories r) i); [| done].
      destruct Hcase as (d & Hd & Hfd & Ha'). exists d.
      split_and!; [by right | by apply find_index_app in Hfd | done].
    + intros i a' Hi' Hge.
      destruct (decide (i = length (accessories r))) as [-> | Hne].
      * destruct (Hold (length (accessories r)) a) as (a'' & Hi'' & Hcase).
        { by rewrite lookup_app_r, Nat.sub_diag by lia. }
        rewrite Hi' in Hi''. injection Hi'' as <-.
        destruct (matched_by generate _ _ _).
        -- by destruct Hcase as (d & _ & _ & ->).
        -- by subst a'.
      * apply (Hnew i a' Hi'). lia.
  - (* a device matched with a cached accessory *)
    rewrite run_of_after. destruct (IH r') as (Hlen & Hold & Hnew).
    apply find_index_Some in Hfind as [Hfind Hthis].
    assert (UUID <$> accessories r' = UUID <$> accessories r) as Huuids.
    { rewrite Haccs. by eapply UUIDs_insert. }
    rewrite Haccs, length_insert in Hlen, Hnew.
    split_and!; [done | | done].
    intros i a0 Hi. rewrite matched_by_cons, Hfind.
    destruct (decide (i = this)) as [-> | Hne].
    + rewrite bool_decide_eq_true_2 by done. cbn [orb].
      rewrite Hthis in Hi. injection Hi as <-.
      destruct (Hold this (set_cachedIPAddress (set_restartsSinceSeen existing 0)
                             (ipAddress dev))) as (a' & Hi' & Hcase).
      { rewrite Haccs. apply list_lookup_insert_eq. by eapply lookup_lt_Some. }
      exists a'. split; [done |].
      destruct (matched_by generate _ (accessories r') this).
      * destruct Hcase as (d & Hd & Hfd & ->). exists d.
        rewrite (find_index_UUIDs d _ _ Huuids) in Hfd.
        split_and!; [by right | done | apply set_twice].
      * exists dev. split_and!; [by left | done | done].
    + rewrite bool_decide_eq_false_2 by congruence. cbn [orb].
      destruct (Hold i a0) as (a' & Hi' & Hcase).
      { rewrite Haccs. by rewrite list_lookup_insert_ne. }
      exists a'. split; [done |].
      rewrite (matched_by_UUIDs _ _ _ i Huuids) in Hcase.
      destruct (matched_by generate _ (accessories r) i); [| done].
      destruct Hcase as (d & Hd & Hfd & ->). exists d.
      rewrite (find_index_UUIDs d _ _ Huuids) in Hfd.
      split_and!; [by right | done | done].
Qed.

(** If the loop runs to its end, every device was processed. *)
Lemma processed_all (devices : list Device) :
  ∀ r r' evs,
    for_of_devices generate createAccessory getState config devices r
      = Completed r' evs →
    processed generate createAccessory getState config devices r = devices.
Proof.
  induction devices as [| dev devices IH]; intros r r' evs;
    cbn [for_of_devices processed]; [done |].
  destruct (loop_body generate createAccessory getState config dev r)
    as [r1 evs1 | e r1 evs1]; [| done].
  destruct (for_of_devices generate createAccessory getState config devices r1)
    as [r2 evs2 | e r2 evs2] eqn:Hrest; cbn [after]; [| done].
  intros _. f_equal. by eapply IH.
Qed.

(** ** The run as a whole *)

Lemma sweep_body_accessories (this : nat) (a : PlatformAccessory) (r : Run) :
  accessories (run_of (sweep_body config this a r)) = accessories r.
Proof.
  unfold sweep_body.
  destruct (marked_for_deletion a); [done |].
  destruct (pruning config) as [p |]; [| done].
  destruct (isAllowed config (uniqueId (device (context a)))) as [allowed evs].
  destruct (pruneMissingCachedAccessories p || pruneAllAccessoriesNextRestart p)%bool,
    ((restartsBeforeMissingAccessoriesPruned p <=? restartsSinceSeen (context a))
     || pruneAllAccessoriesNextRestart p)%bool,
    (0 <? restartsSinceSeen (context a)), allowed; by cbn.
Qed.

(** The sweep never changes [this.accessories], thrown or not. *)
Lemma for_of_accessories_accessories (accs : list PlatformAccessory) :
  ∀ this r,
    accessories (run_of (for_of_accessories config this accs r)) = accessories r.
Proof.
  induction accs as [| a accs IH]; intros this r; cbn [for_of_accessories]; [done |].
  pose proof (sweep_body_accessories this a r) as Hbody.
  destruct (sweep_body config this a r) as [r1 evs1 | e r1 evs1]; [| done].
  rewrite run_of_after, IH. exact Hbody.
Qed.

Lemma reconcile_and_prune_accessories (devices : list Device)
    (accs : list PlatformAccessory) :
  accessories
    (run_of (reconcile_and_prune generate createAccessory getState config devices accs))
  = accessories
      (run_of (for_of_devices generate createAccessory getState config devices
                 (mkRun accs 0 0 0))).
Proof.
  unfold reconcile_and_prune, try_reconcile.
  destruct (for_of_devices generate createAccessory getState config devices
              (mkRun accs 0 0 0)) as [r evs | e r evs]; cbn [run_of];
    pose proof (for_of_accessories_accessories (accessories r) 0 r) as Hsweep;
    unfold sweep;
    by destruct (for_of_accessories config 0 (accessories r) r).
Qed.

Lemma restore_from_spec (cache : list PlatformAccessory) :
  ∀ accs,
    (restore_from cache accs).1 =
    accs ++ ((λ a, set_restartsSinceSeen a (restartsSinceSeen (context a) + 1))
               <$> cache).
Proof.
  induction cache as [| a cache IH]; intros accs; cbn [restore_from fmap list_fmap].
  - by rewrite app_nil_r.
  - unfold configureAccessory. specialize (IH (accs ++
      [set_restartsSinceSeen a (restartsSinceSeen (context a) + 1)])).
    destruct (restore_from cache _) as [accs2 evs2]. cbn [fst] in *.
    by rewrite IH, <- app_assoc.
Qed.

Lemma startup_accessories (cache : list PlatformAccessory) :
  accessories
    (run_of (startup generate scan createAccessory getState config cache))
  = accessories
      (run_of (for_of_devices generate createAccessory getState config
                 (scan_phase scan).1.1 (mkRun (restore cache).1 0 0 0))).
Proof.
  unfold startup, discoverDevices.
  destruct (restore cache) as [accs evs0]. cbn [fst].
  destruct (scan_phase scan) as [[devices scans] evs]. cbn [fst].
  by rewrite !run_of_after, reconcile_and_prune_accessories.
Qed.

(** The counters over the devices whose iteration ran.  Every accessory
    restored from the cache enters reconciliation with its counter one higher
    than it was stored.  At the end of the run, a
    restored accessory has counter 0 if a processed device was matched with
    it and its incremented counter otherwise, and every accessory created
    during the run has counter 0.  Hence, counters in the cache being
    non-negative, the counter is 0 at the end of the run exactly for the
    accessories seen this run: the new ones and the matched ones. *)
Lemma restartsSinceSeen_over_processed (cache : list PlatformAccessory) :
  let restored := (restore cache).1 in
  let done :=
    processed generate createAccessory getState config (scan_phase scan).1.1
      (mkRun restored 0 0 0) in
  let final :=
    accessories
      (run_of (startup generate scan createAccessory getState config cache)) in
  restored =
    (λ a, set_restartsSinceSeen a (restartsSinceSeen (context a) + 1)) <$> cache
  ∧ (length cache ≤ length final)%nat
  ∧ (∀ i a, cache !! i = Some a →
       ∃ a', final !! i = Some a'
             ∧ UUID a' = UUID a
             ∧ restartsSinceSeen (context a') =
               if matched_by generate done restored i then 0
               else restartsSinceSeen (context a) + 1)
  ∧ (∀ i a', final !! i = Some a' → (length cache ≤ i)%nat →
       restartsSinceSeen (context a') = 0)
  ∧ ((∀ a, a ∈ cache → 0 ≤ restartsSinceSeen (context a)) →
     ∀ i a', final !! i = Some a' →
       restartsSinceSeen (context a') = 0 ↔
       (length cache ≤ i)%nat ∨ matched_by generate done restored i = true).
Proof.
  intros restored done final.
  assert (Hrestored : restored =
    (λ a, set_restartsSinceSeen a (restartsSinceSeen (context a) + 1)) <$> cache).
  { subst restored. unfold restore. by rewrite restore_from_spec. }
  assert (Hlen0 : length restored = length cache).
  { by rewrite Hrestored, length_fmap. }
  destruct (for_of_devices_accessories (scan_phase scan).1.1 (mkRun restored 0 0 0))
    as (Hlen & Hold & Hnew).
  cbn [accessories] in Hlen, Hold, Hnew.
  fold done in Hold. subst final. rewrite startup_accessories. fold restored.
  rewrite Hlen0 in Hlen, Hnew.
  assert (Hcached : ∀ i a, cache !! i = Some a →
    ∃ a', accessories
            (run_of (for_of_devices generate createAccessory getState config
                       (scan_phase scan).1.1 (mkRun restored 0 0 0))) !! i = Some a'
          ∧ UUID a' = UUID a
          ∧ restartsSinceSeen (context a') =
            if matched_by generate done restored i then 0
            else restartsSinceSeen (context a) + 1).
  { intros i a Hi.
    destruct (Hold i (set_restartsSinceSeen a (restartsSinceSeen (context a) + 1)))
      as (a' & Hi' & Hcase).
    { by rewrite Hrestored, list_lookup_fmap, Hi. }
    exists a'. split; [done |].
    destruct (matched_by generate done restored i).
    - by destruct Hcase as (d & _ & _ & ->).
    - by subst a'. }
  split_and!; [done | done | done | done |].
  intros Hnonneg i a' Hi'.
  destruct (Nat.le_gt_cases (length cache) i) as [Hge | Hlt].
  - split; [by left | intros _; by apply (Hnew i)].
  - destruct (lookup_lt_is_Some_2 cache i Hlt) as [a Hi].
    destruct (Hcached i a Hi) as (a'' & Hi'' & _ & Hseen).
    rewrite Hi' in Hi''. injection Hi'' as <-. rewrite Hseen.
    assert (0 ≤ restartsSinceSeen (context a)) as Hpos.
    { apply Hnonneg. by eapply list_elem_of_lookup_2. }
    destruct (matched_by generate done restored i).
    + split; [by right | done].
    + split; [lia | intros [? | ?]; [lia | done]].
Qed.

(** ** A throw inside the loop *)

Lemma for_of_devices_app (pre rest : list Device) :
  ∀ r,
    for_of_devices generate createAccessory getState config (pre ++ rest) r =
    match for_of_devices generate createAccessory getState config pre r with
    | Completed r1 evs1 =>
      after evs1 (for_of_devices generate createAccessory getState config rest r1)
    | Thrown e r1 evs1 => Thrown e r1 evs1
    end.
Proof.
  induction pre as [| dev pre IH]; intros r; cbn [app for_of_devices].
  - by destruct (for_of_devices generate createAccessory getState config rest r).
  - destruct (loop_body generate createAccessory getState config dev r)
      as [r1 evs1 | e r1 evs1]; [| done].
    rewrite IH.
    destruct (for_of_devices generate createAccessory getState config pre r1)
      as [r2 evs2 | e r2 evs2]; cbn [after]; [| done].
    destruct (for_of_devices generate createAccessory getState config rest r2);
      cbn [after]; by rewrite app_assoc.
Qed.

Lemma processed_app (pre rest : list Device) :
  ∀ r,
    processed generate createAccessory getState config (pre ++ rest) r =
    match for_of_devices generate createAccessory getState config pre r with
    | Completed r1 _ =>
      pre ++ processed generate createAccessory getState config rest r1
    | Thrown _ _ _ => processed generate createAccessory getState config pre r
    end.
Proof.
  induction pre as [| dev pre IH]; intros r; cbn [app for_of_devices processed].
  - done.
  - destruct (loop_body generate createAccessory getState config dev r)
      as [r1 evs1 | e r1 evs1]; [| done].
    rewrite IH.
    by destruct (for_of_devices generate createAccessory getState config pre r1);
      cbn [after].
Qed.

(** C1 (amended).  When the iteration for one discovered device throws, after
    the devices in front of it were processed, the iteration itself leaves
    [this.accessories] and the counters as they were, the error is caught
    and logged once at error level, and the loop is over: the devices behind
    the failing one are not processed and have no influence on the rest of
    the run, which goes on to the pruning sweep with what the devices in
    front had done. *)
Theorem failure_leaves_the_loop (pre post : list Device) (dev : Device)
    (accs : list PlatformAccessory) (r1 r2 : Run) (e : JsError)
    (evs1 evs2 : list Event) :
  for_of_devices generate createAccessory getState config pre (mkRun accs 0 0 0)
    = Completed r1 evs1 →
  loop_body generate createAccessory getState config dev r1 = Thrown e r2 evs2 →
  r2 = r1
  ∧ try_reconcile generate createAccessory getState config (pre ++ dev :: post)
      (mkRun accs 0 0 0)
    = (r1, evs1 ++ evs2 ++ [Log log_error (Caught e)])
  ∧ processed generate createAccessory getState config (pre ++ dev :: post)
      (mkRun accs 0 0 0) = pre
  ∧ reconcile_and_prune generate createAccessory getState config
      (pre ++ dev :: post) accs
    = reconcile_and_prune generate createAccessory getState config
        (pre ++ [dev]) accs.
Proof.
  intros Hpre Hdev.
  assert (r2 = r1) as ->.
  { pose proof (loop_body_iteration dev r1) as Hit. rewrite Hdev in Hit.
    by inversion Hit. }
  assert (Htry : ∀ rest,
    try_reconcile generate createAccessory getState config (pre ++ dev :: rest)
      (mkRun accs 0 0 0) = (r1, evs1 ++ evs2 ++ [Log log_error (Caught e)])).
  { intros rest. unfold try_reconcile.
    rewrite for_of_devices_app, Hpre. cbn [for_of_devices]. rewrite Hdev.
    cbn [after]. by rewrite app_assoc. }
  split_and!; [done | apply Htry | |].
  - rewrite processed_app, Hpre. cbn [processed]. rewrite Hdev.
    apply app_nil_r.
  - unfold reconcile_and_prune. by rewrite (Htry post), (Htry []).
Qed.

(** ** No uncaught exception *)

Lemma for_of_accessories_completes (p : Pruning) (accs : list PlatformAccessory) :
  pruning config = Some p →
  ∀ this r, ∃ r' evs, for_of_accessories config this accs r = Completed r' evs.
Proof.
  intros Hp. induction accs as [| a accs IH]; intros this r;
    cbn [for_of_accessories]; [by eauto |].
  destruct (sweep_body_completes p this a r Hp) as (r1 & evs1 & -> & _).
  destruct (IH (S this) r1) as (r2 & evs2 & ->). cbn [after]. by eauto.
Qed.

Lemma js_includes_throws (v : JsValue) (x : string) :
  has_includes v = false → ∃ e, js_includes v x = Throw e.
Proof. destruct v; cbn; by eauto. Qed.

(** From the first scan on, all scans answering: with a [pruning] section in
    the configuration, [discoverDevices] completes without an uncaught
    exception, whatever the scans return, the collaborators do, the cache holds and the
    [deviceManagement] section contains.  [isAllowed] itself never throws: it
    answers true whenever its evaluation throws, which is the case when the
    section is missing and when the list or the mode is a value without an
    [includes] method. *)
Lemma completes_when_scans_answer (p : Pruning)
    (accs : list PlatformAccessory) :
  pruning config = Some p →
  (∃ r evs,
     discoverDevices generate scan createAccessory getState config accs
       = Completed r evs)
  ∧ (∀ cfg uniqueId e,
       isAllowed_try cfg uniqueId = Throw e →
       isAllowed cfg uniqueId = (true, [Log log_debug (Caught e)]))
  ∧ (∀ pr uniqueId, (isAllowed (mkConfig None pr) uniqueId).1 = true)
  ∧ (∀ ids mode pr uniqueId,
       has_includes ids = false ∨ has_includes mode = false →
       (isAllowed (mkConfig (Some (mkDeviceManagement ids mode)) pr) uniqueId).1
         = true).
Proof.
  intros Hp. split_and!.
  - unfold discoverDevices.
    destruct (scan_phase scan) as [[devices scans] evs0].
    unfold reconcile_and_prune.
    destruct (try_reconcile generate createAccessory getState config devices
                (mkRun accs 0 0 0)) as [r evs].
    unfold sweep.
    destruct (for_of_accessories_completes p (accessories r) Hp 0%nat r)
      as (r' & evs' & ->).
    cbn [after]. by eauto.
  - intros cfg uniqueId e Htry. unfold isAllowed. by rewrite Htry.
  - done.
  - intros ids mode pr uniqueId Hbad.
    unfold isAllowed, isAllowed_try.
    cbn [deviceManagement blacklistedUniqueIDs blacklistOrWhitelist].
    destruct (not_undefined ids && not_undefined mode)%bool eqn:Hguard; [| done].
    destruct Hbad as [Hids | Hmode].
    + destruct (js_includes_throws ids uniqueId Hids) as [e ->]. done.
    + destruct (js_includes ids uniqueId) as [[] | e] eqn:Hlisted; cbn [bindC];
        [| | done].
      * destruct (js_includes_throws mode "blacklist" Hmode) as [e ->]. done.
      * cbn [negb].
        destruct (js_includes_throws mode "whitelist" Hmode) as [e ->]. done.
Qed.

(** ** Unregistered, but still in memory *)

Lemma discoverDevices_accessories (accs : list PlatformAccessory) :
  accessories
    (run_of (discoverDevices generate scan createAccessory getState config accs))
  = accessories
      (run_of (for_of_devices generate createAccessory getState config
                 (scan_phase scan).1.1 (mkRun accs 0 0 0))).
Proof.
  unfold discoverDevices.
  destruct (scan_phase scan) as [[devices scans] evs]. cbn [fst].
  by rewrite run_of_after, reconcile_and_prune_accessories.
Qed.

Lemma matched_by_true (devices : list Device) (accs : list PlatformAccessory)
    (dev : Device) (i : nat) :
  dev ∈ devices → find_index generate dev accs = Some i →
  matched_by generate devices accs i = true.
Proof.
  intros Hin Hfind. unfold matched_by. apply existsb_exists.
  exists dev. split; [by apply list_elem_of_In | by apply bool_decide_eq_true].
Qed.

Lemma find_accessory_index (dev : Device) (accs : list PlatformAccessory)
    (i : nat) (a : PlatformAccessory) :
  find_index generate dev accs = Some i → accs !! i = Some a →
  find_accessory (generate (uniqueId dev)) accs = Some (i, a).
Proof.
  unfold find_index. intros ([j b] & Hfind & [= ->])%fmap_Some Hi.
  pose proof Hfind as (Hb & _)%list_find_Some. congruence.
Qed.

(** A processed device matched with an accessory whose device the allow list
    rejects makes the loop unregister that accessory. *)
Lemma for_of_devices_unregisters (devices : list Device) (dev : Device) (i : nat) :
  ∀ r a,
    dev ∈ processed generate createAccessory getState config devices r →
    find_index generate dev (accessories r) = Some i →
    accessories r !! i = Some a →
    (isAllowed config (uniqueId (device (context a)))).1 = false →
    (1 ≤ occurrences (is_unregister_of i)
           (events_of (for_of_devices generate createAccessory getState config
                         devices r)))%nat.
Proof.
  induction devices as [| d0 devices IH]; intros r a;
    cbn [processed for_of_devices].
  { by intros ?%elem_of_nil. }
  pose proof (loop_body_iteration d0 r) as Hit.
  destruct (loop_body generate createAccessory getState config d0 r)
    as [r1 evs0 | e r1 evs0]; [| by intros ?%elem_of_nil].
  rewrite events_of_after, occurrences_app.
  intros [-> | Hin]%elem_of_cons Hfind Hi Hdis.
  - (* the device of this iteration *)
    pose proof (find_accessory_index _ _ _ _ Hfind Hi) as Hfa.
    inversion Hit as [| ? Hnone | ? ? ? Hnone | ? ? this existing Hsome _ _ _ Hunreg _];
      subst; try congruence.
    rewrite Hfa in Hsome. injection Hsome as <- <-.
    rewrite Hdis in Hunreg. lia.
  - (* a later device *)
    enough (∃ a1, find_index generate dev (accessories r1) = Some i
                  ∧ accessories r1 !! i = Some a1
                  ∧ device (context a1) = device (context a))
      as (a1 & Hfind1 & Hi1 & Hdev).
    { pose proof (IH r1 a1 Hin Hfind1 Hi1) as Hrest.
      rewrite Hdev in Hrest. specialize (Hrest Hdis). lia. }
    inversion Hit as [| ? Hnone | ? ? b Hnone Haccs | ? ? this existing Hsome Haccs];
      subst.
    + by exists a.
    + exists a. rewrite Haccs. split_and!; [| by apply lookup_app_l_Some | done].
      apply find_index_app; [by eapply lookup_lt_Some | done].
    + apply find_index_Some in Hsome as [_ Hthis].
      assert (UUID <$> accessories r1 = UUID <$> accessories r) as Huuids.
      { rewrite Haccs. by eapply UUIDs_insert. }
      rewrite (find_index_UUIDs dev _ _ Huuids), Haccs.
      destruct (decide (i = this)) as [-> | Hne].
      * eexists. split_and!; [done | |].
        -- apply list_lookup_insert_eq. by eapply lookup_lt_Some.
        -- autorewrite with accessory. congruence.
      * exists a. by rewrite list_lookup_insert_ne.
Qed.

Lemma try_reconcile_spec (devices : list Device) (r : Run) :
  (try_reconcile generate createAccessory getState config devices r).1
    = run_of (for_of_devices generate createAccessory getState config devices r)
  ∧ ∃ caught,
      (try_reconcile generate createAccessory getState config devices r).2
      = events_of (for_of_devices generate createAccessory getState config devices r)
        ++ caught.
Proof.
  unfold try_reconcile.
  destruct (for_of_devices generate createAccessory getState config devices r);
    cbn [fst snd run_of events_of]; split; [done | | done |].
  - exists []. by rewrite app_nil_r.
  - by eexists.
Qed.

Lemma discoverDevices_events (p : Pruning) (accs : list PlatformAccessory) :
  pruning config = Some p →
  let reconciled :=
    try_reconcile generate createAccessory getState config (scan_phase scan).1.1
      (mkRun accs 0 0 0) in
  ∃ r' swept summary,
    sweep config reconciled.1 = Completed r' swept
    ∧ events_of (discoverDevices generate scan createAccessory getState config accs)
      = (scan_phase scan).2 ++ reconciled.2 ++ swept ++ [Log log_info summary].
Proof.
  intros Hp reconciled. subst reconciled. unfold discoverDevices.
  destruct (scan_phase scan) as [[devices scans] evs0]. cbn [fst snd].
  unfold reconcile_and_prune.
  destruct (try_reconcile generate createAccessory getState config devices
              (mkRun accs 0 0 0)) as [r evs]. cbn [fst snd].
  unfold sweep.
  destruct (for_of_accessories_completes p (accessories r) Hp 0%nat r)
    as (r' & swept & Hsweep).
  rewrite Hsweep. cbn [after events_of]. by eauto.
Qed.

(** C10.  Nothing is ever removed from [this.accessories]: every accessory
    the run started with is still at its position at the end, with the same
    UUID.  In particular, when a processed device is matched with a cached
    accessory whose device the allow list rejects, the loop unregisters the
    accessory but leaves it in the array, with counter 0 and the address of
    a device matched with it; the pruning sweep then meets it again and, if
    its display name contains "delete" or [pruneAllAccessoriesNextRestart]
    is set, unregisters it once more, so that the run unregisters it at least
    twice. *)
Theorem unregistered_stays_in_memory (accs : list PlatformAccessory) :
  let devices := (scan_phase scan).1.1 in
  let done :=
    processed generate createAccessory getState config devices (mkRun accs 0 0 0) in
  let reconciled :=
    try_reconcile generate createAccessory getState config devices
      (mkRun accs 0 0 0) in
  let o := discoverDevices generate scan createAccessory getState config accs in
  (∀ j b, accs !! j = Some b →
     ∃ b', accessories (run_of o) !! j = Some b' ∧ UUID b' = UUID b)
  ∧ (∀ p dev i a,
       pruning config = Some p →
       dev ∈ done →
       find_accessory (generate (uniqueId dev)) accs = Some (i, a) →
       (isAllowed config (uniqueId (device (context a)))).1 = false →
       marked_for_deletion a = true ∨ pruneAllAccessoriesNextRestart p = true →
       ∃ a' d,
         accessories (run_of o) !! i = Some a'
         ∧ accessories reconciled.1 !! i = Some a'
         ∧ d ∈ done
         ∧ find_index generate d accs = Some i
         ∧ a' = set_cachedIPAddress (set_restartsSinceSeen a 0) (ipAddress d)
         ∧ (1 ≤ occurrences (is_unregister_of i) reconciled.2)%nat
         ∧ occurrences (is_unregister_of i) (events_of (sweep config reconciled.1))
           = 1%nat
         ∧ (2 ≤ occurrences (is_unregister_of i) (events_of o))%nat).
Proof.
  intros devices done reconciled o.
  destruct (for_of_devices_accessories devices (mkRun accs 0 0 0))
    as (Hlen & Hold & _).
  cbn [accessories] in Hlen, Hold. fold done in Hold.
  assert (Hfinal : accessories (run_of o) =
    accessories (run_of (for_of_devices generate createAccessory getState config
                           devices (mkRun accs 0 0 0)))).
  { subst o devices. apply discoverDevices_accessories. }
  destruct (try_reconcile_spec devices (mkRun accs 0 0 0)) as (Hrun & caught & Hevs).
  fold reconciled in Hrun, Hevs.
  split.
  - intros j b Hj. destruct (Hold j b Hj) as (b' & Hj' & Hcase).
    exists b'. rewrite Hfinal. split; [done |].
    destruct (matched_by generate done accs j).
    + by destruct Hcase as (d & _ & _ & ->).
    + by subst b'.
  - intros p dev i a Hp Hdone Hfind Hdis Hrule.
    apply find_index_Some in Hfind as [Hfind Hi].
    destruct (Hold i a Hi) as (a' & Hi' & Hcase).
    rewrite (matched_by_true done accs dev i Hdone Hfind) in Hcase.
    destruct Hcase as (d & Hd & Hfd & Ha').
    pose proof (for_of_devices_unregisters devices dev i (mkRun accs 0 0 0) a
                  Hdone Hfind Hi Hdis) as Hloop.
    destruct (for_of_accessories_at p (is_unregister_of i) i Hp) with
      (accs := accessories reconciled.1) (this := 0%nat) (r := reconciled.1)
      as (r' & swept & Hsweep & _ & Hswept).
    { intros this a0 r0 Hne. rewrite (sweep_body_unregisters p) by done.
      by destruct (Nat.eqb_spec i this). }
    cbn [Nat.leb] in Hswept. rewrite Nat.sub_0_r, Hrun, Hi' in Hswept.
    rewrite (sweep_body_unregisters p) in Hswept by done.
    rewrite Nat.eqb_refl in Hswept.
    assert (marked_for_deletion a' = marked_for_deletion a) as Hmarked
      by by rewrite Ha'.
    rewrite Hmarked in Hswept.
    assert (occurrences (is_unregister_of i) swept = 1%nat) as Hone.
    { rewrite Hswept.
      destruct Hrule as [-> | ->]; [done |].
      by destruct (marked_for_deletion a). }
    destruct (discoverDevices_events p accs Hp) as (r'' & swept' & summary & Hsw & Hall).
    fold devices reconciled in Hsw, Hall. unfold sweep in Hsw.
    rewrite Hsweep in Hsw. injection Hsw as <- <-.
    assert (1 ≤ occurrences (is_unregister_of i) reconciled.2)%nat as Hrec.
    { rewrite Hevs, occurrences_app. lia. }
    exists a', d. unfold sweep. rewrite Hsweep. cbn [events_of]. rewrite Hfinal.
    split_and!; [done | by rewrite Hrun | done | done | done | done | done |].
    fold o in Hall. rewrite Hall, !occurrences_app. lia.
Qed.

(** ** Two starts in a row *)

(** Nothing but the reconciliation loop registers accessories. *)
Lemma rescan_no_register (remaining : nat) :
  ∀ devices scans,
    occurrences is_register (rescan scan remaining devices scans).2 = 0%nat.
Proof.
  induction remaining as [| remaining IH]; intros devices scans; cbn [rescan];
    [done |].
  destruct (Nat.eqb (length devices) 0 && Nat.ltb scans 5)%bool; [| done].
  specialize (IH (scan (S scans)) (S scans)).
  destruct (rescan scan remaining (scan (S scans)) (S scans)) as [[ds sc] evs].
  cbn [snd] in *. by rewrite !occurrences_cons, IH.
Qed.

Lemma scan_phase_no_register :
  occurrences is_register (scan_phase scan).2 = 0%nat.
Proof.
  unfold scan_phase. pose proof (rescan_no_register 5 (scan 0%nat) 0) as Hloop.
  destruct (rescan scan 5 (scan 0%nat) 0) as [[ds sc] evs]. cbn [snd] in *.
  rewrite !occurrences_app, Hloop. by destruct (Nat.eqb (length ds) 0).
Qed.

Lemma restore_from_no_register (cache : list PlatformAccessory) :
  ∀ accs, occurrences is_register (restore_from cache accs).2 = 0%nat.
Proof.
  induction cache as [| a cache IH]; intros accs; cbn [restore_from]; [done |].
  unfold configureAccessory.
  specialize (IH (accs ++
    [set_restartsSinceSeen a (restartsSinceSeen (context a) + 1)])).
  destruct (restore_from cache _) as [accs2 evs2]. cbn [snd] in *.
  by rewrite occurrences_app, IH.
Qed.

Lemma sweep_body_no_register (this : nat) (a : PlatformAccessory) (r : Run) :
  occurrences is_register (events_of (sweep_body config this a r)) = 0%nat.
Proof.
  unfold sweep_body.
  destruct (marked_for_deletion a); [done |].
  destruct (pruning config) as [p |]; [| done].
  pose proof (isAllowed_only_logs config (uniqueId (device (context a)))
                is_register (λ _, eq_refl)) as Hlogs.
  destruct (isAllowed config (uniqueId (device (context a)))) as [allowed evs].
  cbn [snd] in Hlogs.
  destruct (pruneMissingCachedAccessories p || pruneAllAccessoriesNextRestart p)%bool,
    ((restartsBeforeMissingAccessoriesPruned p <=? restartsSinceSeen (context a))
     || pruneAllAccessoriesNextRestart p)%bool,
    (0 <? restartsSinceSeen (context a)), allowed;
    cbn [negb events_of]; rewrite ?occurrences_app, ?Hlogs; reflexivity.
Qed.

Lemma for_of_accessories_no_register (accs : list PlatformAccessory) :
  ∀ this r,
    occurrences is_register (events_of (for_of_accessories config this accs r))
      = 0%nat.
Proof.
  induction accs as [| a accs IH]; intros this r; cbn [for_of_accessories]; [done |].
  pose proof (sweep_body_no_register this a r) as Hbody.
  destruct (sweep_body config this a r) as [r1 evs1 | e r1 evs1]; [| done].
  cbn [events_of] in Hbody. by rewrite events_of_after, occurrences_app, Hbody, IH.
Qed.

(** When every device is matched with an accessory, the loop runs to its end
    over all of them and registers nothing. *)
Lemma for_of_devices_all_matched (devices : list Device) :
  ∀ r,
    (∀ d, d ∈ devices → is_Some (find_index generate d (accessories r))) →
    ∃ r' evs,
      for_of_devices generate createAccessory getState config devices r
        = Completed r' evs
      ∧ occurrences is_register evs = 0%nat
      ∧ length (accessories r') = length (accessories r).
Proof.
  induction devices as [| dev devices IH]; intros r Hall; cbn [for_of_devices];
    [by eauto |].
  pose proof (loop_body_iteration dev r) as Hit.
  destruct (Hall dev) as [i Hi]; [by left |].
  assert (find_accessory (generate (uniqueId dev)) (accessories r) ≠ None) as Hsome.
  { intros Hnone. by rewrite (find_index_None _ _ Hnone) in Hi. }
  inversion Hit as [| | | r1 evs1 this existing Hfind Haccs _ Hreg _ _];
    subst; try done.
  apply find_index_Some in Hfind as [_ Hthis].
  assert (UUID <$> accessories r1 = UUID <$> accessories r) as Huuids.
  { rewrite Haccs. by eapply UUIDs_insert. }
  destruct (IH r1) as (r' & evs & -> & Hregs & Hlen).
  { intros d Hd. rewrite (find_index_UUIDs d _ _ Huuids). apply Hall. by right. }
  cbn [after]. exists r', (evs1 ++ evs). split_and!; [done | |].
  - rewrite occurrences_app. lia.
  - by rewrite Hlen, Haccs, length_insert.
Qed.

Lemma UUIDs_settled (devices : list Device) (cache : list PlatformAccessory) :
  UUID <$> settled generate devices cache = UUID <$> cache.
Proof.
  apply list_eq. intros i. unfold settled.
  rewrite !list_lookup_fmap, list_lookup_imap.
  destruct (cache !! i) as [a |]; cbn; [| done].
  by destruct (matched_by generate devices cache i).
Qed.

Lemma UUIDs_restore (cache : list PlatformAccessory) :
  UUID <$> (restore cache).1 = UUID <$> cache.
Proof.
  unfold restore. rewrite restore_from_spec, app_nil_l, <- list_fmap_compose.
  by apply list_fmap_ext.
Qed.

Lemma converged_run (cache : list PlatformAccessory) :
  converged generate (scan_phase scan).1.1 cache →
  let o := startup generate scan createAccessory getState config cache in
  occurrences is_register (events_of o) = 0%nat
  ∧ accessories (run_of o) = settled generate (scan_phase scan).1.1 cache.
Proof.
  intros Hconv o. set (devices := (scan_phase scan).1.1) in *.
  set (restored := (restore cache).1).
  assert (Hrestored : restored =
    (λ a, set_restartsSinceSeen a (restartsSinceSeen (context a) + 1)) <$> cache).
  { subst restored. unfold restore. by rewrite restore_from_spec. }
  pose proof (UUIDs_restore cache) as Huuids. fold restored in Huuids.
  destruct (for_of_devices_all_matched devices (mkRun restored 0 0 0))
    as (r' & evs & Hloop & Hreg & Hsame).
  { intros d Hd. cbn [accessories]. rewrite (find_index_UUIDs d _ _ Huuids).
    destruct (Hconv d Hd) as (i & a & Hfind & _).
    exists i. by apply find_index_Some in Hfind as [-> _]. }
  split.
  - subst o. unfold startup, discoverDevices.
    pose proof (restore_from_no_register cache []) as Hrest.
    pose proof scan_phase_no_register as Hscan.
    fold (restore cache) in Hrest. fold restored devices in Hloop.
    destruct (restore cache) as [accs evs0]. cbn [fst snd] in *.
    subst devices. destruct (scan_phase scan) as [[devices scans] evs1].
    cbn [fst snd] in *. subst restored.
    unfold reconcile_and_prune, try_reconcile. rewrite Hloop.
    pose proof (for_of_accessories_no_register (accessories r') 0 r') as Hsweep.
    unfold sweep.
    destruct (for_of_accessories config 0 (accessories r') r');
      cbn [after events_of] in *; rewrite !occurrences_app; cbn in *; lia.
  - subst o. rewrite startup_accessories. fold devices restored.
    destruct (for_of_devices_accessories devices (mkRun restored 0 0 0))
      as (Hlen & Hold & Hnew).
    rewrite (processed_all _ _ _ _ Hloop) in Hold.
    rewrite Hloop in *. cbn [run_of accessories] in *.
    apply list_eq. intros i. unfold settled. rewrite list_lookup_imap.
    destruct (cache !! i) as [a |] eqn:Hi; cbn [fmap option_fmap option_map].
    + destruct (Hold i (set_restartsSinceSeen a (restartsSinceSeen (context a) + 1)))
        as (a' & -> & Hcase).
      { by rewrite Hrestored, list_lookup_fmap, Hi. }
      f_equal. rewrite (matched_by_UUIDs _ _ _ i Huuids) in Hcase.
      destruct (matched_by generate devices cache i); [| done].
      destruct Hcase as (d & Hd & Hfd & ->).
      rewrite (find_index_UUIDs d _ _ Huuids) in Hfd.
      destruct (Hconv d Hd) as (i' & a0 & Hfind & Hip).
      apply find_index_Some in Hfind as [Hfind Hi0].
      assert (i' = i) as -> by congruence.
      assert (a0 = a) as -> by congruence.
      rewrite <- Hip. by destruct a as [u []].
    + apply lookup_ge_None. apply lookup_ge_None in Hi.
      cbn [accessories] in Hsame. rewrite Hsame, Hrestored, length_fmap. lia.
Qed.

Lemma no_unregister_of (evs : list Event) (i : nat) :
  occurrences is_unregister evs = 0%nat →
  existsb (is_unregister_of i) evs = false.
Proof.
  induction evs as [| e evs IH]; [done |].
  rewrite occurrences_cons. cbn [existsb]. intros Hzero.
  rewrite IH by lia. by destruct e; cbn in *; try lia.
Qed.

(** If nothing was unregistered, the host keeps the whole array. *)
Lemma persisted_all (o : Outcome) :
  occurrences is_unregister (events_of o) = 0%nat →
  persisted o = accessories (run_of o).
Proof.
  intros Hzero. unfold persisted. generalize 0%nat.
  induction (accessories (run_of o)) as [| a accs IH]; intros this;
    cbn [persisted_from]; [done |].
  by rewrite (no_unregister_of _ this Hzero), IH.
Qed.

Lemma converged_settled (devices : list Device) (cache : list PlatformAccessory) :
  converged generate devices cache → converged generate devices (settled generate devices cache).
Proof.
  intros Hconv d Hd. destruct (Hconv d Hd) as (i & a & Hfind & Hip).
  apply find_index_Some in Hfind as [Hfind Hi].
  exists i. eexists. split.
  - apply find_accessory_index.
    + by rewrite (find_index_UUIDs d _ _ (UUIDs_settled devices cache)).
    + unfold settled. by rewrite list_lookup_imap, Hi.
  - by destruct (matched_by generate devices cache i).
Qed.

(** C8 (amended).  Start the process twice with the same scans, on a cache
    in which every discovered device has its accessory with the discovered
    address, and suppose the first run unregisters nothing, so that the
    second start restores what the first run left.  Then the second run
    registers no accessory, and leaves as many accessories as the first,
    each with the same UUID and the same cached address; the counter of an
    accessory matched by a discovered device is 0 after both runs, and the
    counter of any other accessory is one higher after the second run than
    after the first. *)
Theorem second_run_on_converged_cache (cache : list PlatformAccessory) :
  let devices := (scan_phase scan).1.1 in
  let first := startup generate scan createAccessory getState config cache in
  let second :=
    startup generate scan createAccessory getState config (persisted first) in
  converged generate devices cache →
  occurrences is_unregister (events_of first) = 0%nat →
  occurrences is_register (events_of second) = 0%nat
  ∧ length (accessories (run_of second)) = length (accessories (run_of first))
  ∧ ∀ i a1,
      accessories (run_of first) !! i = Some a1 →
      ∃ a2,
        accessories (run_of second) !! i = Some a2
        ∧ UUID a2 = UUID a1
        ∧ cachedIPAddress (context a2) = cachedIPAddress (context a1)
        ∧ if matched_by generate devices cache i
          then restartsSinceSeen (context a1) = 0
               ∧ restartsSinceSeen (context a2) = 0
          else restartsSinceSeen (context a2) = restartsSinceSeen (context a1) + 1.
Proof.
  intros devices first second Hconv Hkept.
  destruct (converged_run cache Hconv) as [_ Hfirst]. fold devices first in Hfirst.
  pose proof (persisted_all first Hkept) as Hpersisted.
  subst second. rewrite Hpersisted, Hfirst.
  destruct (converged_run (settled generate devices cache)) as [Hreg Hsecond].
  { by apply converged_settled. }
  fold devices in Hreg, Hsecond. rewrite Hsecond.
  split_and!; [done | unfold settled; by rewrite !length_imap |].
  intros i a1 Hi. unfold settled at 1. rewrite list_lookup_imap, Hi. cbn.
  eexists. split; [done |].
  rewrite (matched_by_UUIDs _ _ _ i (UUIDs_settled devices cache)).
  unfold settled in Hi. rewrite list_lookup_imap in Hi.
  destruct (cache !! i) as [a |]; [| done]. cbn in Hi. injection Hi as <-.
  by destruct (matched_by generate devices cache i).
Qed.



End Properties.

(** C2, as stated, fails: with a discovery that never finds anything the run
    performs six scans, not five. *)
Lemma scan_always_empty_counterexample :
  occurrences is_scan
    (events_of (discoverDevices sample_generate never_found sample_createAccessory
                  sample_getState sample_config [])) = 6%nat ∧
  occurrences is_scan
    (events_of (discoverDevices sample_generate never_found sample_createAccessory
                  sample_getState sample_config [])) ≠ 5%nat.
Proof. by vm_compute. Qed.

Lemma scan_always_empty_witness :
  (∀ k, never_found k = []) ∧
  occurrences is_scan (scan_phase never_found).2 = 6%nat.
Proof.
  split; [reflexivity |].
  apply (scan_always_empty sample_generate never_found sample_createAccessory
           sample_getState sample_config []).
  reflexivity.
Defined.

(** C3, as stated, fails: the mode below contains "blacklist" and the
    identifier is not in the list, so the reference definition allows it, yet
    [isAllowed] returns false. *)
Lemma isAllowed_refines_reference_counterexample :
  includes "blacklist,whitelist" "blacklist" = true ∧
  ("B2"%string ∉ ["A1"%string]) ∧
  isAllowed_reference (Some ["A1"%string]) (Some "blacklist,whitelist"%string) "B2" = true ∧
  (isAllowed (allow_list_config (Some ["A1"%string])
                (Some "blacklist,whitelist"%string) None) "B2").1 = false.
Proof.
  split_and!; try by vm_compute.
  intros Hin. apply list_elem_of_singleton in Hin. discriminate.
Qed.

Lemma marked_for_deletion_always_pruned_witness :
  pruning sample_config = Some sample_pruning ∧
  [marked_A1 0] !! 0%nat = Some (marked_A1 0) ∧
  marked_for_deletion (marked_A1 0) = true ∧
  ∃ r' evs,
    sweep sample_config (mkRun [marked_A1 0] 0 0 0) = Completed r' evs
    ∧ occurrences (is_unregister_of 0) evs = 1%nat
    ∧ occurrences (is_update_of 0) evs = 0%nat.
Proof.
  split_and!; [reflexivity.. |].
  apply (marked_for_deletion_always_pruned sample_config sample_pruning
           (mkRun [marked_A1 0] 0 0 0) 0%nat (marked_A1 0)); reflexivity.
Defined.

(** C4, as stated, fails: the accessory below is one restart short of the
    threshold, no pruning flag is set, and still the sweep unregisters it,
    because its device is on the black list. *)
Lemma sweep_prunes_exactly_counterexample :
  marked_for_deletion (lamp_A1 2) = false ∧
  pruning blacklist_A1 = Some (mkPruning false false 3) ∧
  restartsSinceSeen (context (lamp_A1 2)) = 3 - 1 ∧
  sweep blacklist_A1 (mkRun [lamp_A1 2] 0 0 0) =
    Completed (mkRun [lamp_A1 2] 0 0 0)
      [Log log_warn (WillBePruned "lamp" "A1"); UnregisterPlatformAccessories 0].
Proof. by vm_compute. Qed.

Lemma sweep_prunes_exactly_witness :
  pruning sample_config = Some sample_pruning ∧
  [lamp_A1 2] !! 0%nat = Some (lamp_A1 2) ∧
  marked_for_deletion (lamp_A1 2) = false ∧
  ∃ r' evs,
    sweep sample_config (mkRun [lamp_A1 2] 0 0 0) = Completed r' evs
    ∧ occurrences (is_unregister_of 0) evs = 0%nat
    ∧ occurrences (is_update_of 0) evs = 1%nat.
Proof.
  split_and!; [reflexivity.. |].
  destruct (sweep_prunes_exactly sample_config sample_pruning
              (mkRun [lamp_A1 2] 0 0 0) 0%nat (lamp_A1 2))
    as (r' & evs & Hsweep & Hunreg & Hupd & _); [reflexivity.. |].
  exists r', evs. split_and!; [exact Hsweep | exact Hunreg | exact Hupd].
Defined.

Lemma loop_body_corrects_drift_witness :
  find_accessory (sample_generate (uniqueId device_A1)) [lamp_A1 1]
    = Some (0%nat, lamp_A1 1) ∧
  ∃ r' evs existing',
    loop_body sample_generate sample_createAccessory sample_getState sample_config
      device_A1 (mkRun [lamp_A1 1] 0 0 0) = Completed r' evs
    ∧ accessories r' = [existing']
    ∧ cachedIPAddress (context existing') = "10.0.0.9"%string.
Proof.
  split; [reflexivity |].
  destruct (loop_body_corrects_drift sample_generate sample_createAccessory
              sample_getState sample_config device_A1 (mkRun [lamp_A1 1] 0 0 0)
              0%nat (lamp_A1 1))
    as (r' & evs & existing' & Hbody & Haccs & _ & _ & Hip & _); [reflexivity |].
  exists r', evs, existing'. split_and!; [exact Hbody | exact Haccs | exact Hip].
Defined.

(** C1, as stated, fails: the second device is new and reachable, and alone it
    is registered; behind a device whose state query fails it is neither
    registered nor added to the accessories. *)
Lemma failure_leaves_the_loop_counterexample :
  occurrences is_register
    (events_of (discoverDevices sample_generate (λ _, [device_C3])
                  sample_createAccessory sample_getState sample_config [])) = 1%nat ∧
  sample_getState (ipAddress device_B2) = Throw (RejectedPromise "getState timed out") ∧
  discoverDevices sample_generate (λ _, [device_B2; device_C3])
    sample_createAccessory sample_getState sample_config [] =
  Completed (mkRun [] 0 0 0)
    [Log log_info ScanningBroadcast; Scan 2000; Log log_info (FoundDevices 2);
     GetState "10.0.0.66" 1000;
     Log log_error (Caught (RejectedPromise "getState timed out"));
     Log log_info (Summary 0 0 0 0)].
Proof. by vm_compute. Qed.

Lemma failure_leaves_the_loop_witness :
  for_of_devices sample_generate sample_createAccessory sample_getState
    sample_config [device_A1] (mkRun [lamp_A1 1] 0 0 0)
  = Completed (mkRun [set_cachedIPAddress (lamp_A1 0) "10.0.0.9"] 1 0 0)
      [Log log_warn (IpDiscrepancyFound "lamp");
       Log log_warn (ExpectedIp "10.0.0.5");
       Log log_warn (DiscoveredIp "10.0.0.9");
       Log log_warn (IpReassigned "10.0.0.9");
       Log log_debug (Caught (TypeError "Cannot read properties of undefined"));
       Log log_info (RegisteringCached "lamp" "AK001-ZJ200" "A1" "10.0.0.9" 8 51);
       NewRGBStrip 0; UpdatePlatformAccessories 0] ∧
  loop_body sample_generate sample_createAccessory sample_getState sample_config
    device_B2 (mkRun [set_cachedIPAddress (lamp_A1 0) "10.0.0.9"] 1 0 0)
  = Thrown (RejectedPromise "getState timed out")
      (mkRun [set_cachedIPAddress (lamp_A1 0) "10.0.0.9"] 1 0 0)
      [GetState "10.0.0.66" 1000] ∧
  processed sample_generate sample_createAccessory sample_getState sample_config
    ([device_A1] ++ device_B2 :: [device_C3]) (mkRun [lamp_A1 1] 0 0 0)
  = [device_A1].
Proof.
  split_and!; [reflexivity | reflexivity |].
  eapply (failure_leaves_the_loop sample_generate sample_createAccessory
            sample_getState sample_config [device_A1] [device_C3] device_B2
            [lamp_A1 1]); reflexivity.
Defined.

(** Without a [pruning] section, the sweep over a cache holding one ordinary
    accessory throws, and nothing catches it.  And a malformed allow list need
    not be ignored: given as one string instead of an array, it still
    black-lists the identifiers occurring in it. *)
Lemma sweep_throws_without_pruning :
  discoverDevices sample_generate never_found sample_createAccessory
    sample_getState (mkConfig None None) [lamp_A1 1]
  = Thrown (TypeError "Cannot read properties of undefined")
      (mkRun [lamp_A1 1] 0 0 0)
      [Log log_info ScanningBroadcast; Scan 2000;
       Log log_warn (FoundZeroRescanning 1); Scan 2000;
       Log log_warn (FoundZeroRescanning 2); Scan 2000;
       Log log_warn (FoundZeroRescanning 3); Scan 2000;
       Log log_warn (FoundZeroRescanning 4); Scan 2000;
       Log log_warn (FoundZeroRescanning 5); Scan 2000;
       Log log_warn FoundZeroDevices] ∧
  isAllowed
    (mkConfig (Some (mkDeviceManagement (JsString "A1,B2") (JsString "blacklist")))
       None) "A1"
  = (false, []).
Proof. by vm_compute. Qed.

Lemma completes_when_scans_answer_witness :
  pruning sample_config = Some sample_pruning ∧
  ∃ r evs,
    discoverDevices sample_generate never_found sample_createAccessory
      sample_getState sample_config [lamp_A1 1] = Completed r evs.
Proof.
  split; [reflexivity |].
  apply (completes_when_scans_answer sample_generate never_found
           sample_createAccessory sample_getState sample_config sample_pruning
           [lamp_A1 1]).
  reflexivity.
Defined.

Lemma unregistered_stays_in_memory_witness :
  pruning blacklist_A1 = Some sample_pruning ∧
  device_A1 ∈ processed sample_generate sample_createAccessory sample_getState
                blacklist_A1 (scan_phase (λ _, [device_A1])).1.1
                (mkRun [marked_A1 1] 0 0 0) ∧
  find_accessory (sample_generate (uniqueId device_A1)) [marked_A1 1]
    = Some (0%nat, marked_A1 1) ∧
  (isAllowed blacklist_A1 (uniqueId (device (context (marked_A1 1))))).1 = false ∧
  marked_for_deletion (marked_A1 1) = true ∧
  (2 ≤ occurrences (is_unregister_of 0)
         (events_of (discoverDevices sample_generate (λ _, [device_A1])
                       sample_createAccessory sample_getState blacklist_A1
                       [marked_A1 1])))%nat.
Proof.
  assert (Hdone : device_A1 ∈ processed sample_generate sample_createAccessory
                    sample_getState blacklist_A1 (scan_phase (λ _, [device_A1])).1.1
                    (mkRun [marked_A1 1] 0 0 0)).
  { vm_compute. by left. }
  split_and!; [reflexivity | exact Hdone | reflexivity | reflexivity | reflexivity |].
  destruct (proj2 (unregistered_stays_in_memory sample_generate (λ _, [device_A1])
                     sample_createAccessory sample_getState blacklist_A1
                     [marked_A1 1])
              sample_pruning device_A1 0%nat (marked_A1 1))
    as (a' & d & _ & _ & _ & _ & _ & _ & _ & Htwice);
    [reflexivity | exact Hdone | reflexivity | reflexivity | by left |].
  exact Htwice.
Defined.

(** C8, as stated, fails.  In both scenarios the one discovered device has its
    accessory in the cache under the discovered address.  In the first, the
    cache also holds an accessory that is not discovered: its counter is 1
    after the first run and 2 after the second.  In the second, the matched
    accessory is marked for deletion: the first run unregisters it, the second
    start does not restore it, and the second run registers the device anew. *)
Lemma second_run_on_converged_cache_counterexample :
  (let scan := λ _ : nat, [device_A1] in
   let cache := [settled_A1 0; lamp_C3 0] in
   let first := startup sample_generate scan sample_createAccessory
                  sample_getState sample_config cache in
   let second := startup sample_generate scan sample_createAccessory
                   sample_getState sample_config (persisted first) in
   find_accessory (sample_generate (uniqueId device_A1)) cache
     = Some (0%nat, settled_A1 0)
   ∧ cachedIPAddress (context (settled_A1 0)) = ipAddress device_A1
   ∧ persisted first = [settled_A1 0; lamp_C3 1]
   ∧ accessories (run_of first) = [settled_A1 0; lamp_C3 1]
   ∧ accessories (run_of second) = [settled_A1 0; lamp_C3 2])
  ∧
  (let scan := λ _ : nat, [device_A1] in
   let cache := [marked_A1 0] in
   let first := startup sample_generate scan sample_createAccessory
                  sample_getState sample_config cache in
   let second := startup sample_generate scan sample_createAccessory
                   sample_getState sample_config (persisted first) in
   find_accessory (sample_generate (uniqueId device_A1)) cache
     = Some (0%nat, marked_A1 0)
   ∧ cachedIPAddress (context (marked_A1 0)) = ipAddress device_A1
   ∧ persisted first = []
   ∧ occurrences is_register (events_of second) = 1%nat).
Proof. by vm_compute. Qed.

Lemma second_run_on_converged_cache_witness :
  let scan := λ _ : nat, [device_A1] in
  let cache := [settled_A1 0; lamp_C3 0] in
  let first := startup sample_generate scan sample_createAccessory
                 sample_getState sample_config cache in
  let second := startup sample_generate scan sample_createAccessory
                  sample_getState sample_config (persisted first) in
  converged sample_generate (scan_phase scan).1.1 cache
  ∧ occurrences is_unregister (events_of first) = 0%nat
  ∧ occurrences is_register (events_of second) = 0%nat
  ∧ length (accessories (run_of second)) = length (accessories (run_of first)).
Proof.
  intros scan cache first second.
  assert (Hconv : converged sample_generate (scan_phase scan).1.1 cache).
  { intros d Hd. vm_compute in Hd. apply list_elem_of_singleton in Hd as ->.
    exists 0%nat, (settled_A1 0). split; reflexivity. }
  assert (Hkept : occurrences is_unregister (events_of first) = 0%nat)
    by reflexivity.
  destruct (second_run_on_converged_cache sample_generate scan
              sample_createAccessory sample_getState sample_config cache
              Hconv Hkept) as (Hreg & Hlen & _).
  split_and!; [exact Hconv | exact Hkept | exact Hreg | exact Hlen].
Defined.

Lemma restartsSinceSeen_over_processed_witness :
  let scan := λ _ : nat, [device_A1] in
  let cache := [lamp_A1 0; lamp_C3 2] in
  let restored := (restore cache).1 in
  let done :=
    processed sample_generate sample_createAccessory sample_getState sample_config
      (scan_phase scan).1.1 (mkRun restored 0 0 0) in
  let final :=
    accessories (run_of (startup sample_generate scan sample_createAccessory
                           sample_getState sample_config cache)) in
  (∀ a, a ∈ cache → 0 ≤ restartsSinceSeen (context a))
  ∧ ∀ i a', final !! i = Some a' →
      restartsSinceSeen (context a') = 0 ↔
      (length cache ≤ i)%nat ∨ matched_by sample_generate done restored i = true.
Proof.
  intros scan cache restored done final.
  assert (Hnonneg : ∀ a, a ∈ cache → 0 ≤ restartsSinceSeen (context a)).
  { intros a Ha. subst cache.
    apply elem_of_cons in Ha as [-> | Ha]; [cbn; lia |].
    apply list_elem_of_singleton in Ha as ->. cbn. lia. }
  split; [exact Hnonneg |].
  destruct (restartsSinceSeen_over_processed sample_generate scan
              sample_createAccessory sample_getState sample_config cache)
    as (_ & _ & _ & _ & Hiff).
  exact (Hiff Hnonneg).
Defined.

(** The scenario of the specification: an empty cache, one discovered device,
    no allow list.  One new registration, counters 1, 1, 0 and 0. *)
Example first_registration :
  discoverDevices sample_generate (λ _, [device_A1]) sample_createAccessory
    sample_getState sample_config []
  = Completed
      (mkRun [mkAccessory "uuid-A1"
                (mkContext sample_type "RGB Strip"
                   (set_initialState device_A1 "81") "10.0.0.9" 0)] 1 1 0)
      [Log log_info ScanningBroadcast; Scan 2000; Log log_info (FoundDevices 1);
       GetState "10.0.0.9" 1000;
       Log log_debug (Caught (TypeError "Cannot read properties of undefined"));
       NewRGBStrip 0; NewRGBStrip 0; RegisterPlatformAccessories 0;
       Log log_info (RegisteringNew "RGB Strip" "AK001-ZJ200" "A1" "10.0.0.9" 8 51);
       Log log_info (Summary 1 1 0 0)].
Proof. by vm_compute. Qed.

(** * Further properties of the platform *)

Section Further.
Variable generate : string → string.
Variable scan : nat → list Device.
Variable createAccessory : Device → Completion DeviceType.
Variable getState : string → Completion TransportState.
Variable config : PlatformConfig.

(** Case analysis on every comparison of naturals in the goal. *)
Ltac nat_cases :=
  repeat match goal with
         | |- context [(?a <=? ?b)%nat] => destruct (Nat.leb_spec a b)
         | |- context [(?a <? ?b)%nat] => destruct (Nat.ltb_spec a b)
         | |- context [Nat.eqb ?a ?b] => destruct (Nat.eqb_spec a b)
         end;
  cbn [andb orb negb]; try reflexivity; try lia.

(** The kind of events at hand is produced inside the two loops only. *)
Ltac kind_inside_loops :=
  let e := fresh "e" in
  let He := fresh "He" in
  intros e He; destruct e as [[] [] | | | | | |]; cbn in *; congruence.

(** ** Counters and events *)

(** [isAllowed] logs nothing but the line for a caught error. *)
Lemma isAllowed_outside_loops (cfg : PlatformConfig) (uniqueId : string)
    (f : Event → bool) :
  (∀ e, outside_loops e = true → f e = false) →
  occurrences f (isAllowed cfg uniqueId).2 = 0%nat.
Proof.
  intros Hf. unfold isAllowed.
  destruct (isAllowed_try cfg uniqueId); cbn [snd]; [done |].
  rewrite occurrences_cons, Hf; done.
Qed.

(** One iteration of the reconciliation loop: the counters move with the
    registrations and updates it asks for, and the array grows by the
    registrations, each naming the position just filled. *)
Lemma loop_body_accounting (dev : Device) (r : Run) :
  let o := loop_body generate createAccessory getState config dev r in
  newDevices (run_of o)
    = newDevices r + Z.of_nat (occurrences is_register (events_of o))
  ∧ registeredDevices (run_of o)
    = registeredDevices r + Z.of_nat (occurrences is_register (events_of o))
      + Z.of_nat (occurrences is_update (events_of o))
  ∧ unseenDevices (run_of o) = unseenDevices r
  ∧ occurrences is_unseen_warning (events_of o) = 0%nat
  ∧ length (accessories (run_of o))
    = (length (accessories r) + occurrences is_register (events_of o))%nat
  ∧ ∀ i, occurrences (is_register_of i) (events_of o)
         = if ((length (accessories r) <=? i)%nat
               && (i <? length (accessories (run_of o)))%nat)%bool
           then 1%nat else 0%nat.
Proof.
  unfold loop_body.
  destruct (find_accessory (generate (uniqueId dev)) (accessories r))
    as [[this existing] |] eqn:Hfind.
  - cbv zeta.
    pose proof (isAllowed_only_logs config
                  (uniqueId (device (context
                     (if negb (cachedIPAddress (context
                                 (set_restartsSinceSeen existing 0))
                               =? ipAddress dev)%string
                      then set_cachedIPAddress (set_restartsSinceSeen existing 0)
                             (ipAddress dev)
                      else set_restartsSinceSeen existing 0))))) as Hlogs.
    destruct (negb (cachedIPAddress (context (set_restartsSinceSeen existing 0))
                    =? ipAddress dev)%string);
      destruct (isAllowed config _) as [[] evs]; cbn [negb fst snd] in *;
      cbn [run_of events_of accessories set_accessories bump_registered
           newDevices registeredDevices unseenDevices];
      rewrite ?occurrences_app, ?occurrences_cons, ?occurrences_nil,
        ?(Hlogs is_register (λ _, eq_refl)), ?(Hlogs is_update (λ _, eq_refl)),
        ?(Hlogs is_unseen_warning (λ _, eq_refl));
      cbn [is_register is_update is_unseen_warning];
      rewrite length_insert;
      (split_and!; [lia | lia | lia | lia | lia |]);
      intros i;
      rewrite ?length_insert, ?occurrences_app, ?occurrences_cons, ?occurrences_nil,
        ?(Hlogs (is_register_of i) (λ _, eq_refl));
      cbn [is_register_of];
      destruct (Nat.leb_spec (length (accessories r)) i),
        (Nat.ltb_spec i (length (accessories r))); cbn [andb]; lia.
  - destruct (createAccessory dev) as [deviceType | e].
    2: { cbn [run_of events_of].
         rewrite ?occurrences_cons, ?occurrences_nil.
         cbn [is_register is_update is_unseen_warning].
         split_and!; try lia. intros i.
         rewrite ?occurrences_cons, ?occurrences_nil. cbn [is_register_of].
         destruct (Nat.leb_spec (length (accessories r)) i),
           (Nat.ltb_spec i (length (accessories r))); cbn [andb]; lia. }
    destruct (getState (ipAddress dev)) as [state | e].
    2: { cbn [run_of events_of].
         rewrite ?occurrences_cons, ?occurrences_nil.
         cbn [is_register is_update is_unseen_warning].
         split_and!; try lia. intros i.
         rewrite ?occurrences_cons, ?occurrences_nil. cbn [is_register_of].
         destruct (Nat.leb_spec (length (accessories r)) i),
           (Nat.ltb_spec i (length (accessories r))); cbn [andb]; lia. }
    cbv zeta.
    pose proof (isAllowed_only_logs config
                  (uniqueId (set_initialState dev (debugBuffer state)))) as Hlogs.
    destruct (isAllowed config (uniqueId (set_initialState dev (debugBuffer state))))
      as [[] evs]; cbn [negb fst snd] in *;
      cbn [run_of events_of accessories set_accessories bump_registered bump_new
           newDevices registeredDevices unseenDevices];
      rewrite ?occurrences_app, ?occurrences_cons, ?occurrences_nil,
        ?(Hlogs is_register (λ _, eq_refl)), ?(Hlogs is_update (λ _, eq_refl)),
        ?(Hlogs is_unseen_warning (λ _, eq_refl));
      cbn [is_register is_update is_unseen_warning];
      rewrite ?length_app; cbn [length];
      (split_and!; [lia | lia | lia | lia | lia |]);
      intros i;
      rewrite ?length_app, ?occurrences_app, ?occurrences_cons, ?occurrences_nil,
        ?(Hlogs (is_register_of i) (λ _, eq_refl));
      cbn [is_register_of length];
      nat_cases.
Qed.

Lemma for_of_devices_accounting (devices : list Device) :
  ∀ r,
    let o := for_of_devices generate createAccessory getState config devices r in
    newDevices (run_of o)
      = newDevices r + Z.of_nat (occurrences is_register (events_of o))
    ∧ registeredDevices (run_of o)
      = registeredDevices r + Z.of_nat (occurrences is_register (events_of o))
        + Z.of_nat (occurrences is_update (events_of o))
    ∧ unseenDevices (run_of o) = unseenDevices r
    ∧ occurrences is_unseen_warning (events_of o) = 0%nat
    ∧ length (accessories (run_of o))
      = (length (accessories r) + occurrences is_register (events_of o))%nat
    ∧ ∀ i, occurrences (is_register_of i) (events_of o)
           = if ((length (accessories r) <=? i)%nat
                 && (i <? length (accessories (run_of o)))%nat)%bool
             then 1%nat else 0%nat.
Proof.
  induction devices as [| dev devices IH]; intros r; cbn [for_of_devices]; cbv zeta.
  { cbn [run_of events_of]. rewrite !occurrences_nil.
    split_and!; try lia. intros i. rewrite occurrences_nil. nat_cases. }
  pose proof (loop_body_accounting dev r) as Hbody. cbv zeta in Hbody.
  destruct (loop_body generate createAccessory getState config dev r)
    as [r1 evs1 | e r1 evs1]; [| exact Hbody].
  cbn [run_of events_of] in Hbody.
  destruct Hbody as (Hnew & Hreg & Hunseen & Hwarn & Hlen & Hpos).
  specialize (IH r1). cbv zeta in IH.
  destruct IH as (Hnew' & Hreg' & Hunseen' & Hwarn' & Hlen' & Hpos').
  rewrite run_of_after, events_of_after, !occurrences_app.
  split_and!; try lia.
  intros i. rewrite occurrences_app, Hpos, Hpos'. nat_cases.
Qed.

(** One iteration of the pruning sweep: it registers nothing, and counts an
    accessory as registered and unseen exactly when it updates it, with the
    warning that it goes on unseen. *)
Lemma sweep_body_accounting (this : nat) (a : PlatformAccessory) (r : Run) :
  let o := sweep_body config this a r in
  newDevices (run_of o) = newDevices r
  ∧ registeredDevices (run_of o)
    = registeredDevices r + Z.of_nat (occurrences is_update (events_of o))
  ∧ unseenDevices (run_of o)
    = unseenDevices r + Z.of_nat (occurrences is_unseen_warning (events_of o))
  ∧ occurrences is_unseen_warning (events_of o)
    = occurrences is_update (events_of o)
  ∧ occurrences is_register (events_of o) = 0%nat
  ∧ ∀ i, occurrences (is_register_of i) (events_of o) = 0%nat.
Proof.
  unfold sweep_body.
  destruct (marked_for_deletion a).
  { cbn [run_of events_of]. rewrite !occurrences_cons, !occurrences_nil.
    cbn [is_update is_unseen_warning is_register].
    split_and!; try lia. intros i. by rewrite !occurrences_cons. }
  destruct (pruning config) as [p |].
  2: { cbn [run_of events_of]. rewrite !occurrences_nil. split_and!; try lia. done. }
  pose proof (isAllowed_only_logs config (uniqueId (device (context a)))) as Hlogs.
  destruct (isAllowed config (uniqueId (device (context a)))) as [allowed evs].
  cbn [snd] in Hlogs.
  destruct (pruneMissingCachedAccessories p || pruneAllAccessoriesNextRestart p)%bool,
    ((restartsBeforeMissingAccessoriesPruned p <=? restartsSinceSeen (context a))
     || pruneAllAccessoriesNextRestart p)%bool,
    (0 <? restartsSinceSeen (context a)), allowed;
    cbn [negb run_of events_of bump_unseen bump_registered newDevices
         registeredDevices unseenDevices];
    rewrite ?occurrences_app, ?occurrences_cons, ?occurrences_nil,
      ?(Hlogs is_register (λ _, eq_refl)), ?(Hlogs is_update (λ _, eq_refl)),
      ?(Hlogs is_unseen_warning (λ _, eq_refl));
    cbn [is_register is_update is_unseen_warning];
    (split_and!; [lia | lia | lia | lia | lia |]);
    intros i;
    rewrite ?occurrences_app, ?occurrences_cons, ?occurrences_nil,
      ?(Hlogs (is_register_of i) (λ _, eq_refl));
    cbn [is_register_of]; lia.
Qed.

Lemma for_of_accessories_accounting (accs : list PlatformAccessory) :
  ∀ this r,
    let o := for_of_accessories config this accs r in
    newDevices (run_of o) = newDevices r
    ∧ registeredDevices (run_of o)
      = registeredDevices r + Z.of_nat (occurrences is_update (events_of o))
    ∧ unseenDevices (run_of o)
      = unseenDevices r + Z.of_nat (occurrences is_unseen_warning (events_of o))
    ∧ occurrences is_unseen_warning (events_of o)
      = occurrences is_update (events_of o)
    ∧ occurrences is_register (events_of o) = 0%nat
    ∧ ∀ i, occurrences (is_register_of i) (events_of o) = 0%nat.
Proof.
  induction accs as [| a accs IH]; intros this r; cbn [for_of_accessories]; cbv zeta.
  { cbn [run_of events_of]. rewrite !occurrences_nil. split_and!; try lia. done. }
  pose proof (sweep_body_accounting this a r) as Hbody. cbv zeta in Hbody.
  destruct (sweep_body config this a r) as [r1 evs1 | e r1 evs1]; [| exact Hbody].
  cbn [run_of events_of] in Hbody.
  destruct Hbody as (Hnew & Hreg & Hunseen & Hwarn & Hnone & Hpos).
  specialize (IH (S this) r1). cbv zeta in IH.
  destruct IH as (Hnew' & Hreg' & Hunseen' & Hwarn' & Hnone' & Hpos').
  rewrite run_of_after, events_of_after, !occurrences_app.
  split_and!; try lia.
  intros i. rewrite occurrences_app, Hpos, Hpos'. done.
Qed.

(** The scans and the lines about them are all that the scan phase produces. *)
Lemma rescan_outside_loops (f : Event → bool) (remaining : nat) :
  (∀ e, outside_loops e = true → f e = false) →
  ∀ devices scans, occurrences f (rescan scan remaining devices scans).2 = 0%nat.
Proof.
  intros Hf. induction remaining as [| remaining IH]; intros devices scans;
    cbn [rescan]; [done |].
  destruct (Nat.eqb (length devices) 0 && Nat.ltb scans 5)%bool; [| done].
  specialize (IH (scan (S scans)) (S scans)).
  destruct (rescan scan remaining (scan (S scans)) (S scans)) as [[ds sc] evs].
  cbn [snd] in *. by rewrite !occurrences_cons, IH, !Hf.
Qed.

Lemma scan_phase_outside_loops (f : Event → bool) :
  (∀ e, outside_loops e = true → f e = false) →
  occurrences f (scan_phase scan).2 = 0%nat.
Proof.
  intros Hf. unfold scan_phase.
  pose proof (rescan_outside_loops f 5 Hf (scan 0%nat) 0%nat) as Hloop.
  destruct (rescan scan 5 (scan 0%nat) 0) as [[ds sc] evs]. cbn [snd] in *.
  rewrite !occurrences_app, Hloop, !occurrences_cons, !occurrences_nil, !Hf by done.
  by destruct (Nat.eqb (length ds) 0); rewrite Hf.
Qed.

(** A run, cut into its loop and its sweep: the state at the end is that of
    the sweep, and events of a kind produced only inside the two loops are
    those of the loop followed by those of the sweep. *)
Lemma discoverDevices_loops (accs : list PlatformAccessory) :
  let o := discoverDevices generate scan createAccessory getState config accs in
  let looped :=
    for_of_devices generate createAccessory getState config (scan_phase scan).1.1
      (mkRun accs 0 0 0) in
  let swept := sweep config (run_of looped) in
  run_of o = run_of swept
  ∧ ∀ f, (∀ e, outside_loops e = true → f e = false) →
         occurrences f (events_of o)
         = (occurrences f (events_of looped) + occurrences f (events_of swept))%nat.
Proof.
  cbv zeta. unfold discoverDevices.
  pose proof (scan_phase_outside_loops) as Hscan.
  destruct (scan_phase scan) as [[devices scans] evs0]. cbn [fst snd] in *.
  unfold reconcile_and_prune, try_reconcile.
  destruct (for_of_devices generate createAccessory getState config devices
              (mkRun accs 0 0 0)) as [r evs | e r evs]; cbn [run_of events_of];
    destruct (sweep config r) as [r' evs' | e' r' evs'];
    cbn [after run_of events_of]; (split; [done |]); intros f Hf;
    rewrite ?occurrences_app, ?occurrences_cons, ?occurrences_nil, (Hscan f Hf),
      ?Hf by done; lia.
Qed.

Lemma discoverDevices_summary (accs : list PlatformAccessory) (r : Run)
    (evs : list Event) :
  discoverDevices generate scan createAccessory getState config accs
    = Completed r evs →
  ∃ evs0,
    evs = evs0 ++
          [Log log_info
             (Summary (registeredDevices r) (newDevices r)
                (registeredDevices r - newDevices r - unseenDevices r)
                (unseenDevices r))].
Proof.
  unfold discoverDevices.
  destruct (scan_phase scan) as [[devices scans] evs0]. cbn [fst snd].
  unfold reconcile_and_prune.
  destruct (try_reconcile generate createAccessory getState config devices
              (mkRun accs 0 0 0)) as [r1 evs1].
  destruct (sweep config r1) as [r' evs' | e' r' evs']; cbn [after]; [| done].
  intros [= <- <-]. exists (evs0 ++ evs1 ++ evs'). by rewrite <- !app_assoc.
Qed.

(** X1.  The three counters of a run count its effects: [newDevices] the
    registrations, [registeredDevices] the registrations and updates together,
    [unseenDevices] the warnings that an accessory goes on unseen, each of
    which comes with an update.  So the summary logged at the end of a
    completed run tells what the run asked of the registry, and its third
    number, the cached accessories seen, is never negative. *)
Theorem counters_count_effects (accs : list PlatformAccessory) :
  let o := discoverDevices generate scan createAccessory getState config accs in
  let registrations := occurrences is_register (events_of o) in
  let updates := occurrences is_update (events_of o) in
  let unseen := occurrences is_unseen_warning (events_of o) in
  newDevices (run_of o) = Z.of_nat registrations
  ∧ registeredDevices (run_of o) = Z.of_nat (registrations + updates)
  ∧ unseenDevices (run_of o) = Z.of_nat unseen
  ∧ (unseen ≤ updates)%nat
  ∧ ∀ r evs, o = Completed r evs →
      ∃ evs0,
        evs = evs0 ++
              [Log log_info
                 (Summary (Z.of_nat (registrations + updates))
                    (Z.of_nat registrations)
                    (Z.of_nat (updates - unseen))
                    (Z.of_nat unseen))].
Proof.
  intros o registrations updates unseen.
  destruct (discoverDevices_loops accs) as [Hrun Hevs].
  fold o in Hrun, Hevs.
  set (looped := for_of_devices generate createAccessory getState config
                   (scan_phase scan).1.1 (mkRun accs 0 0 0)) in *.
  destruct (for_of_devices_accounting (scan_phase scan).1.1 (mkRun accs 0 0 0))
    as (Hnew & Hreg & Hunseen & Hwarn & _ & _).
  fold looped in Hnew, Hreg, Hunseen, Hwarn.
  cbn [newDevices registeredDevices unseenDevices] in Hnew, Hreg, Hunseen.
  destruct (for_of_accessories_accounting (accessories (run_of looped)) 0
              (run_of looped)) as (Hnew' & Hreg' & Hunseen' & Hwarn' & Hnone & _).
  fold (sweep config (run_of looped)) in Hnew', Hreg', Hunseen', Hwarn', Hnone.
  assert (Hr : registrations = occurrences is_register (events_of looped)).
  { subst registrations. rewrite (Hevs is_register) by kind_inside_loops. lia. }
  assert (Hu : updates = (occurrences is_update (events_of looped)
                          + occurrences is_update
                              (events_of (sweep config (run_of looped))))%nat).
  { subst updates. by rewrite (Hevs is_update) by kind_inside_loops. }
  assert (Hw : unseen = occurrences is_unseen_warning
                          (events_of (sweep config (run_of looped)))).
  { subst unseen. rewrite (Hevs is_unseen_warning) by kind_inside_loops. lia. }
  assert (Hn : newDevices (run_of o) = Z.of_nat registrations)
    by (rewrite Hrun; lia).
  assert (Hg : registeredDevices (run_of o) = Z.of_nat (registrations + updates))
    by (rewrite Hrun; lia).
  assert (Hs : unseenDevices (run_of o) = Z.of_nat unseen) by (rewrite Hrun; lia).
  assert (Hle : (unseen ≤ updates)%nat) by lia.
  split_and!; [done.. |].
  intros r evs Ho. destruct (discoverDevices_summary accs r evs Ho) as [evs0 ->].
  exists evs0. rewrite Ho in Hn, Hg, Hs. cbn [run_of] in Hn, Hg, Hs.
  rewrite Hn, Hg, Hs. do 4 f_equal. lia.
Qed.

(** X2.  The array grows by exactly the registrations of the run, and the
    registrations name the new positions, each once: no accessory that was in
    the array when the run began is registered again, and every accessory
    pushed during the run is registered exactly once. *)
Theorem registrations_fill_new_positions (accs : list PlatformAccessory) :
  let o := discoverDevices generate scan createAccessory getState config accs in
  length (accessories (run_of o))
    = (length accs + occurrences is_register (events_of o))%nat
  ∧ ∀ i, occurrences (is_register_of i) (events_of o)
         = if ((length accs <=? i)%nat
               && (i <? length (accessories (run_of o)))%nat)%bool
           then 1%nat else 0%nat.
Proof.
  intros o.
  destruct (discoverDevices_loops accs) as [Hrun Hevs].
  fold o in Hrun, Hevs.
  set (looped := for_of_devices generate createAccessory getState config
                   (scan_phase scan).1.1 (mkRun accs 0 0 0)) in *.
  destruct (for_of_devices_accounting (scan_phase scan).1.1 (mkRun accs 0 0 0))
    as (_ & _ & _ & _ & Hlen & Hpos).
  fold looped in Hlen, Hpos. cbn [accessories] in Hlen, Hpos.
  destruct (for_of_accessories_accounting (accessories (run_of looped)) 0
              (run_of looped)) as (_ & _ & _ & _ & Hnone & Hnone').
  fold (sweep config (run_of looped)) in Hnone, Hnone'.
  assert (Hsame : accessories (run_of o) = accessories (run_of looped)).
  { rewrite Hrun. apply for_of_accessories_accessories. }
  rewrite Hsame. split.
  - rewrite (Hevs is_register) by kind_inside_loops. lia.
  - intros i. rewrite (Hevs (is_register_of i)) by kind_inside_loops.
    rewrite Hpos, Hnone'. lia.
Qed.

(** ** What a run keeps *)

Lemma for_of_devices_NoDup (devices : list Device) :
  ∀ r,
    NoDup (UUID <$> accessories r) →
    NoDup (UUID <$> accessories
             (run_of (for_of_devices generate createAccessory getState config
                        devices r))).
Proof.
  induction devices as [| dev devices IH]; intros r Hdistinct;
    cbn [for_of_devices]; [done |].
  pose proof (loop_body_iteration generate createAccessory getState config dev r)
    as Hit.
  destruct (loop_body generate createAccessory getState config dev r)
    as [r1 evs1 | e r1 evs1].
  - rewrite run_of_after. apply IH.
    inversion Hit as [| | ? ? a Hnone Haccs Huuid | ? ? this existing Hsome Haccs];
      subst; [done | |].
    + rewrite Haccs, fmap_app. apply NoDup_app. split_and!; [done | | ].
      * intros u Hin Hnew. cbn in Hnew. apply list_elem_of_singleton in Hnew.
        apply list_elem_of_fmap in Hin as (b & -> & Hb).
        apply list_find_None in Hnone.
        rewrite Forall_forall in Hnone. apply (Hnone b Hb). congruence.
      * cbn. apply NoDup_singleton.
    + apply find_index_Some in Hsome as [_ Hthis].
      rewrite Haccs, (UUIDs_insert _ _ existing); done.
  - by inversion Hit; subst.
Qed.

(** X3.  A start never produces two accessories with the same UUID: if the
    UUIDs of the restored accessories are pairwise distinct, so are those of
    the accessories in the array at the end of the run, new ones included. *)
Theorem UUIDs_stay_distinct (cache : list PlatformAccessory) :
  NoDup (UUID <$> cache) →
  NoDup (UUID <$> accessories
           (run_of (startup generate scan createAccessory getState config cache))).
Proof.
  intros Hdistinct. rewrite startup_accessories.
  apply for_of_devices_NoDup. cbn [accessories]. by rewrite UUIDs_restore.
Qed.

(** X4.  A run changes nothing of a cached accessory but its counter and its
    cached address: the accessory stays at its position with the same UUID,
    device type, display name and stored device descriptor (whose own address
    is therefore not refreshed when the cached address is), and it is either
    untouched or has its counter at 0. *)
Theorem run_changes_counter_and_address_only (accs : list PlatformAccessory) :
  let final :=
    accessories
      (run_of (discoverDevices generate scan createAccessory getState config accs)) in
  ∀ i a, accs !! i = Some a →
    ∃ a', final !! i = Some a'
          ∧ UUID a' = UUID a
          ∧ deviceType (context a') = deviceType (context a)
          ∧ displayName (context a') = displayName (context a)
          ∧ device (context a') = device (context a)
          ∧ (a' = a ∨ restartsSinceSeen (context a') = 0).
Proof.
  intros final i a Hi. subst final. rewrite discoverDevices_accessories.
  destruct (for_of_devices_accessories generate createAccessory getState config
              (scan_phase scan).1.1 (mkRun accs 0 0 0)) as (_ & Hold & _).
  destruct (Hold i a Hi) as (a' & Hi' & Hcase).
  exists a'. split; [done |].
  destruct (matched_by generate _ _ i).
  - destruct Hcase as (d & _ & _ & ->). split_and!; [done.. | by right].
  - subst a'. split_and!; [done.. | by left].
Qed.

(** X5.  Counters never go negative: when the counters stored in the cache are
    non-negative, so are those of all accessories at the end of the run. *)
Theorem counters_stay_non_negative (cache : list PlatformAccessory) :
  (∀ a, a ∈ cache → 0 ≤ restartsSinceSeen (context a)) →
  ∀ a', a' ∈ accessories
               (run_of (startup generate scan createAccessory getState config
                          cache)) →
        0 ≤ restartsSinceSeen (context a').
Proof.
  intros Hnonneg a' Hin. rewrite startup_accessories in Hin.
  apply list_elem_of_lookup in Hin as [i Hi'].
  destruct (for_of_devices_accessories generate createAccessory getState config
              (scan_phase scan).1.1 (mkRun (restore cache).1 0 0 0))
    as (_ & Hold & Hnew).
  cbn [accessories] in Hold, Hnew.
  unfold restore in Hold, Hnew, Hi'.
  rewrite restore_from_spec, app_nil_l in Hold, Hnew, Hi'.
  rewrite length_fmap in Hnew.
  destruct (Nat.le_gt_cases (length cache) i) as [Hge | Hlt].
  { rewrite (Hnew i a' Hi' Hge). lia. }
  destruct (lookup_lt_is_Some_2 cache i Hlt) as [a Hi].
  destruct (Hold i (set_restartsSinceSeen a (restartsSinceSeen (context a) + 1)))
    as (a'' & Hi'' & Hcase).
  { by rewrite list_lookup_fmap, Hi. }
  rewrite Hi' in Hi''. injection Hi'' as <-.
  assert (0 ≤ restartsSinceSeen (context a)) as Hpos.
  { apply Hnonneg. by eapply list_elem_of_lookup_2. }
  destruct (matched_by generate _ _ i).
  - destruct Hcase as (d & _ & _ & ->). cbn. lia.
  - subst a'. cbn. lia.
Qed.

(** ** What a run creates *)

(** What one iteration does to [this.accessories]: nothing, or a push of an
    accessory made from the discovered device, or an update in place. *)
Lemma loop_body_shape (dev : Device) (r : Run) :
  let r' := run_of (loop_body generate createAccessory getState config dev r) in
  accessories r' = accessories r
  ∨ (∃ a, accessories r' = accessories r ++ [a]
          ∧ UUID a = generate (uniqueId (device (context a)))
          ∧ (isAllowed config (uniqueId (device (context a)))).1 = true
          ∧ restartsSinceSeen (context a) = 0
          ∧ displayName (context a) = convenientName (deviceType (context a))
          ∧ createAccessory dev = Normal (deviceType (context a))
          ∧ ∃ state, getState (ipAddress dev) = Normal state
                     ∧ device (context a) = set_initialState dev (debugBuffer state))
  ∨ (∃ i e, accessories r !! i = Some e
            ∧ accessories r'
              = <[i := set_cachedIPAddress (set_restartsSinceSeen e 0)
                         (ipAddress dev)]> (accessories r)).
Proof.
  cbv zeta.
  destruct (find_accessory (generate (uniqueId dev)) (accessories r))
    as [[this existing] |] eqn:Hfind.
  - right. right. exists this, existing.
    pose proof (loop_body_iteration generate createAccessory getState config dev r)
      as Hit.
    remember (loop_body generate createAccessory getState config dev r) as o eqn:Ho.
    clear Ho.
    destruct Hit as [? ? Hnone | ? Hnone | ? ? ? Hnone | ? ? this' existing' Hsome Haccs];
      try congruence.
    rewrite Hfind in Hsome. injection Hsome as <- <-.
    apply find_index_Some in Hfind as [_ Hthis]. by split.
  - unfold loop_body. rewrite Hfind.
    destruct (createAccessory dev) as [deviceType0 | e]; [| by left].
    destruct (getState (ipAddress dev)) as [state | e]; [| by left].
    cbv zeta.
    destruct (isAllowed config (uniqueId (set_initialState dev (debugBuffer state))))
      as [[] evs] eqn:Hallowed; cbn [negb]; [| by left].
    right. left. eexists. cbn [run_of accessories set_accessories].
    split; [reflexivity |]. cbn [UUID context device restartsSinceSeen displayName
                                 deviceType].
    split_and!; [done | by rewrite Hallowed | done | done | done |].
    by exists state.
Qed.

Lemma well_made_seen (a : PlatformAccessory) (ip : string) :
  well_made generate config a →
  well_made generate config (set_cachedIPAddress (set_restartsSinceSeen a 0) ip).
Proof. by intros (? & ? & ? & ? & ?). Qed.

Lemma evolves_refl (accs : list PlatformAccessory) :
  evolves generate config accs accs.
Proof.
  split; [by eauto |].
  intros i a' Hi Hge. apply lookup_lt_Some in Hi. lia.
Qed.

Lemma evolves_trans (accs1 accs2 accs3 : list PlatformAccessory) :
  evolves generate config accs1 accs2 →
  evolves generate config accs2 accs3 →
  evolves generate config accs1 accs3.
Proof.
  intros [Hold Hnew] [Hold' Hnew']. split.
  - intros i a Hi. destruct (Hold i a Hi) as (a2 & Hi2 & Hcase).
    destruct (Hold' i a2 Hi2) as (a3 & Hi3 & Hcase').
    exists a3. split; [done |].
    destruct Hcase as [-> | [ip ->]]; [done |].
    destruct Hcase' as [-> | [ip' ->]]; right; by eexists.
  - intros i a3 Hi3 Hge.
    destruct (Nat.le_gt_cases (length accs2) i) as [Hge2 | Hlt2];
      [by apply (Hnew' i) |].
    destruct (lookup_lt_is_Some_2 accs2 i Hlt2) as [a2 Hi2].
    destruct (Hold' i a2 Hi2) as (a3' & Hi3' & Hcase).
    rewrite Hi3 in Hi3'. injection Hi3' as <-.
    pose proof (Hnew i a2 Hi2 Hge) as Hmade.
    destruct Hcase as [-> | [ip ->]]; [done | by apply well_made_seen].
Qed.

Lemma loop_body_evolves (dev : Device) (r : Run) :
  evolves generate config (accessories r)
    (accessories (run_of (loop_body generate createAccessory getState config dev r))).
Proof.
  destruct (loop_body_shape dev r)
    as [-> | [(a & -> & Huuid & Hallowed & Hseen & Hname & _ & state & _ & Hdev)
             | (i & e & Hi & ->)]].
  - apply evolves_refl.
  - split.
    + intros i a0 Hi. exists a0. split; [by apply lookup_app_l_Some | by left].
    + intros i a' Hi' Hge.
      assert (i = length (accessories r)) as ->.
      { apply lookup_lt_Some in Hi'. rewrite length_app in Hi'. cbn in Hi'. lia. }
      rewrite lookup_app_r, Nat.sub_diag in Hi' by lia. injection Hi' as <-.
      split_and!; [done.. |]. by rewrite Hdev.
  - split.
    + intros j a Hj. destruct (decide (j = i)) as [-> | Hne].
      * rewrite Hi in Hj. injection Hj as <-. eexists. split.
        -- apply list_lookup_insert_eq. by eapply lookup_lt_Some.
        -- right. by eexists.
      * exists a. split; [by rewrite list_lookup_insert_ne | by left].
    + intros j a' Hj Hge. apply lookup_lt_Some in Hj.
      rewrite length_insert in Hj. lia.
Qed.

Lemma for_of_devices_evolves (devices : list Device) :
  ∀ r,
    evolves generate config (accessories r)
      (accessories
         (run_of (for_of_devices generate createAccessory getState config devices r))).
Proof.
  induction devices as [| dev devices IH]; intros r; cbn [for_of_devices].
  { apply evolves_refl. }
  pose proof (loop_body_evolves dev r) as Hstep.
  destruct (loop_body generate createAccessory getState config dev r)
    as [r1 evs1 | e r1 evs1]; [| exact Hstep].
  rewrite run_of_after. eapply evolves_trans; [exact Hstep | apply IH].
Qed.

(** X6.  Every accessory that a run adds to the array is well made: its UUID
    is the one generated from the identifier of the device stored in it, that
    device passed the allow list and carries the state snapshot taken when it
    was queried, the display name is the convenient name of the device type,
    and the counter is 0 at the end of the run. *)
Theorem created_accessories_are_well_made (accs : list PlatformAccessory) :
  let final :=
    accessories
      (run_of (discoverDevices generate scan createAccessory getState config accs)) in
  ∀ i a', final !! i = Some a' → (length accs ≤ i)%nat →
    UUID a' = generate (uniqueId (device (context a')))
    ∧ (isAllowed config (uniqueId (device (context a')))).1 = true
    ∧ restartsSinceSeen (context a') = 0
    ∧ displayName (context a') = convenientName (deviceType (context a'))
    ∧ initialState (device (context a')) ≠ None.
Proof.
  intros final i a' Hi Hge. subst final.
  rewrite discoverDevices_accessories in Hi.
  destruct (for_of_devices_evolves (scan_phase scan).1.1 (mkRun accs 0 0 0))
    as [_ Hnew].
  exact (Hnew i a' Hi Hge).
Qed.

(** ** The scan phase *)

Lemma rescan_spec (remaining : nat) :
  ∀ scans,
    (scans + remaining = 5)%nat →
    let result := rescan scan remaining (scan scans) scans in
    let found := result.1.2 in
    result.1.1 = scan found
    ∧ (scans ≤ found ≤ 5)%nat
    ∧ (∀ j, (scans ≤ j < found)%nat → scan j = [])
    ∧ (scan found = [] → found = 5%nat)
    ∧ occurrences is_scan result.2 = (found - scans)%nat
    ∧ occurrences is_rescan_warning result.2 = (found - scans)%nat.
Proof.
  induction remaining as [| remaining IH]; intros scans Hsum; cbn [rescan]; cbv zeta.
  { cbn [fst snd]. rewrite !occurrences_nil. split_and!; try done; lia. }
  destruct (Nat.ltb_spec scans 5) as [Hlt | Hge]; [| lia].
  destruct (scan scans) as [| d ds] eqn:Hscan; cbn [length Nat.eqb andb].
  - specialize (IH (S scans)). cbv zeta in IH.
    destruct (rescan scan remaining (scan (S scans)) (S scans)) as [[ds' sc'] evs].
    cbn [fst snd] in *.
    destruct IH as (Hd & Hrange & Hempty & Hstop & Hscans & Hwarns); [lia |].
    rewrite !occurrences_cons, Hscans, Hwarns. cbn [is_scan is_rescan_warning].
    split_and!; [done | lia | lia | | done | lia | lia].
    intros j Hj. destruct (decide (j = scans)) as [-> | Hne]; [done |].
    apply Hempty. lia.
  - cbn [fst snd]. rewrite !occurrences_nil, Hscan.
    split_and!; [done | lia | lia | intros j Hj; lia | done | lia | lia].
Qed.

(** X7.  The scan phase stops at the first scan that finds a device, or after
    the sixth scan: with [scans] the number of rescans it counted, the devices
    it hands on are the answer to scan number [scans] (counting from 0), all
    scans before that one found nothing, at most five rescans are made, and if
    the devices handed on are none then all five were.  It performs [scans + 1]
    scans and logs [scans] rescan warnings. *)
Theorem scan_phase_stops_at_first_find :
  let devices := (scan_phase scan).1.1 in
  let scans := (scan_phase scan).1.2 in
  let evs := (scan_phase scan).2 in
  devices = scan scans
  ∧ (scans ≤ 5)%nat
  ∧ (∀ j, (j < scans)%nat → scan j = [])
  ∧ (devices = [] → scans = 5%nat)
  ∧ occurrences is_scan evs = S scans
  ∧ occurrences is_rescan_warning evs = scans.
Proof.
  cbv zeta. unfold scan_phase.
  pose proof (rescan_spec 5 0 eq_refl) as Hloop. cbv zeta in Hloop.
  destruct (rescan scan 5 (scan 0%nat) 0) as [[devices scans] evs].
  cbn [fst snd] in *.
  destruct Hloop as (Hd & Hrange & Hempty & Hstop & Hscans & Hwarns).
  rewrite !occurrences_app, Hscans, Hwarns, !occurrences_cons, !occurrences_nil.
  cbn [is_scan is_rescan_warning].
  split_and!; [done | lia | intros j Hj; apply Hempty; lia | | |].
  - intros Hnone. apply Hstop. congruence.
  - destruct (Nat.eqb (length devices) 0); cbn [is_scan]; lia.
  - destruct (Nat.eqb (length devices) 0); cbn [is_rescan_warning]; lia.
Qed.

(** ** The sweep under [pruneAllAccessoriesNextRestart], and without a
       [pruning] section *)

Lemma for_of_accessories_prune_all (p : Pruning) (accs : list PlatformAccessory) :
  pruning config = Some p →
  pruneAllAccessoriesNextRestart p = true →
  ∀ this r,
    ∃ evs,
      for_of_accessories config this accs r = Completed r evs
      ∧ ∀ i, occurrences (is_unregister_of i) evs
             = if ((this <=? i)%nat && (i <? this + length accs)%nat)%bool
               then 1%nat else 0%nat.
Proof.
  intros Hp Hall. induction accs as [| a accs IH]; intros this r;
    cbn [for_of_accessories].
  { exists []. split; [done |]. intros i. rewrite occurrences_nil. cbn [length].
    nat_cases. }
  assert (∃ m, sweep_body config this a r
               = Completed r [UnregisterPlatformAccessories this; Log log_warn m])
    as [m ->].
  { unfold sweep_body. destruct (marked_for_deletion a); [by eexists |].
    rewrite Hp, Hall, !orb_true_r. by eexists. }
  destruct (IH (S this) r) as (evs & -> & Hocc). cbn [after].
  eexists. split; [done |]. intros i.
  rewrite occurrences_app, !occurrences_cons, occurrences_nil, Hocc.
  cbn [is_unregister_of length]. nat_cases.
Qed.

(** X8.  With [pruneAllAccessoriesNextRestart] set, the run completes and its
    sweep unregisters every accessory of the array, those the same run has
    just registered or updated included; none is counted as unseen. *)
Theorem prune_all_unregisters_everything (p : Pruning)
    (accs : list PlatformAccessory) :
  pruning config = Some p →
  pruneAllAccessoriesNextRestart p = true →
  let o := discoverDevices generate scan createAccessory getState config accs in
  unseenDevices (run_of o) = 0
  ∧ (∀ i, (i < length (accessories (run_of o)))%nat →
          (1 ≤ occurrences (is_unregister_of i) (events_of o))%nat)
  ∧ ∃ r evs, o = Completed r evs.
Proof.
  intros Hp Hall o.
  destruct (discoverDevices_loops accs) as [Hrun Hevs]. fold o in Hrun, Hevs.
  set (looped := for_of_devices generate createAccessory getState config
                   (scan_phase scan).1.1 (mkRun accs 0 0 0)) in *.
  destruct (for_of_accessories_prune_all p (accessories (run_of looped)) Hp Hall
              0%nat (run_of looped)) as (swept & Hsweep & Hocc).
  unfold sweep in Hrun, Hevs. rewrite Hsweep in Hrun, Hevs.
  cbn [run_of events_of] in Hrun, Hevs.
  split_and!.
  - rewrite Hrun.
    destruct (for_of_devices_accounting (scan_phase scan).1.1 (mkRun accs 0 0 0))
      as (_ & _ & Hunseen & _).
    fold looped in Hunseen. by rewrite Hunseen.
  - intros i Hi. rewrite Hrun in Hi.
    rewrite (Hevs (is_unregister_of i)) by kind_inside_loops.
    rewrite Hocc. cbn [Nat.leb andb plus].
    destruct (Nat.ltb_spec i (length (accessories (run_of looped)))); lia.
  - subst o. unfold discoverDevices, reconcile_and_prune.
    destruct (scan_phase scan) as [[devices scans] evs0]. cbn [fst snd] in *.
    destruct (try_reconcile generate createAccessory getState config devices
                (mkRun accs 0 0 0)) as [r1 evs1].
    destruct (for_of_accessories_prune_all p (accessories r1) Hp Hall 0%nat r1)
      as (swept' & Hsweep' & _).
    unfold sweep. rewrite Hsweep'. cbn [after]. by eauto.
Qed.

Lemma for_of_accessories_no_pruning (accs : list PlatformAccessory) :
  pruning config = None →
  ∀ this r,
    if forallb marked_for_deletion accs
    then ∃ evs, for_of_accessories config this accs r = Completed r evs
    else ∃ evs, for_of_accessories config this accs r
                = Thrown (TypeError "Cannot read properties of undefined") r evs.
Proof.
  intros Hp. induction accs as [| a accs IH]; intros this r;
    cbn [for_of_accessories forallb]; [by eexists |].
  destruct (marked_for_deletion a) eqn:Hmarked; cbn [andb].
  - assert (sweep_body config this a r
            = Completed r
                [UnregisterPlatformAccessories this;
                 Log log_warn (PrunedMarkedForDeletion (displayName (context a)))])
      as -> by (unfold sweep_body; by rewrite Hmarked).
    specialize (IH (S this) r).
    destruct (forallb marked_for_deletion accs); destruct IH as [evs ->];
      cbn [after]; by eexists.
  - assert (sweep_body config this a r
            = Thrown (TypeError "Cannot read properties of undefined") r [])
      as -> by (unfold sweep_body; by rewrite Hmarked, Hp).
    by eexists.
Qed.

(** X9.  Without a [pruning] section, the run completes exactly when every
    accessory in the array at the end of the reconciliation is marked for
    deletion (in particular when the array is empty); otherwise the sweep
    throws a TypeError at the first accessory that is not, and nothing
    catches it. *)
Theorem missing_pruning_section (accs : list PlatformAccessory) :
  pruning config = None →
  let o := discoverDevices generate scan createAccessory getState config accs in
  if forallb marked_for_deletion (accessories (run_of o))
  then ∃ r evs, o = Completed r evs
  else ∃ r evs, o = Thrown (TypeError "Cannot read properties of undefined") r evs.
Proof.
  intros Hp o. subst o. unfold discoverDevices, reconcile_and_prune.
  destruct (scan_phase scan) as [[devices scans] evs0]. cbn [fst snd].
  destruct (try_reconcile generate createAccessory getState config devices
              (mkRun accs 0 0 0)) as [r1 evs1].
  pose proof (for_of_accessories_no_pruning (accessories r1) Hp 0%nat r1) as Hsweep.
  unfold sweep.
  destruct (forallb marked_for_deletion (accessories r1)) eqn:Hall;
    destruct Hsweep as [evs ->]; cbn [after run_of]; rewrite Hall; by eauto.
Qed.

(** ** The allow list and the deletion mark *)

(** An array of strings includes exactly its elements. *)
Lemma array_includes_listed (l : list string) (x : string) :
  array_includes (map JsString l) x = bool_decide (x ∈ l).
Proof using.
  induction l as [| s l IH]; cbn [map array_includes existsb].
  - symmetry. apply bool_decide_eq_false, not_elem_of_nil.
  - fold (array_includes (map JsString l) x). rewrite IH.
    destruct (String.eqb_spec s x) as [-> | Hne]; cbn [orb].
    + symmetry. apply bool_decide_eq_true. by left.
    + apply bool_decide_ext. rewrite elem_of_cons.
      split; [by right | intros [Heq | Hin]; [by destruct Hne | done]].
Qed.

Lemma isAllowed_well_typed (l : list string) (mode : string) (p : option Pruning)
    (uniqueId : string) :
  isAllowed (allow_list_config (Some l) (Some mode) p) uniqueId
  = (negb (bool_decide (uniqueId ∈ l) && includes mode "blacklist"
           || negb (bool_decide (uniqueId ∈ l)) && includes mode "whitelist"), []).
Proof.
  unfold isAllowed, isAllowed_try, allow_list_config. cbn.
  rewrite array_includes_listed.
  by destruct (bool_decide (uniqueId ∈ l)), (includes mode "blacklist"),
    (includes mode "whitelist").
Qed.

(** X10.  With the same list, a mode that says "blacklist" only and a mode
    that says "whitelist" only decide oppositely on every identifier.  With
    an empty list the first allows every device and the second none. *)
Theorem blacklist_and_whitelist_are_opposite (l : list string)
    (black white : string) (p : option Pruning) (uniqueId : string) :
  includes black "blacklist" = true → includes black "whitelist" = false →
  includes white "whitelist" = true → includes white "blacklist" = false →
  (isAllowed (allow_list_config (Some l) (Some black) p) uniqueId).1
  = negb (isAllowed (allow_list_config (Some l) (Some white) p) uniqueId).1
  ∧ (l = [] →
     (isAllowed (allow_list_config (Some l) (Some black) p) uniqueId).1 = true
     ∧ (isAllowed (allow_list_config (Some l) (Some white) p) uniqueId).1 = false).
Proof.
  intros Hbb Hbw Hww Hwb. rewrite !isAllowed_well_typed, Hbb, Hbw, Hww, Hwb.
  cbn [fst]. split.
  - by destruct (bool_decide (uniqueId ∈ l)).
  - intros ->. by rewrite bool_decide_eq_false_2 by apply not_elem_of_nil.
Qed.

(** X11.  [isAllowed] logs exactly when it fails open: it is silent when the
    list or the mode is undefined and when both have an [includes] method;
    when the section is missing, or both are defined and one of them has no
    such method, it answers true and logs the caught error at debug level. *)
Theorem isAllowed_logs_when_it_fails_open (cfg : PlatformConfig)
    (uniqueId : string) :
  let evaluates :=
    match deviceManagement cfg with
    | None => false
    | Some dm =>
      (negb (not_undefined (blacklistedUniqueIDs dm)
             && not_undefined (blacklistOrWhitelist dm))
       || has_includes (blacklistedUniqueIDs dm)
          && has_includes (blacklistOrWhitelist dm))%bool
    end in
  if evaluates then (isAllowed cfg uniqueId).2 = []
  else ∃ e, isAllowed cfg uniqueId = (true, [Log log_debug (Caught e)]).
Proof.
  cbv zeta. unfold isAllowed, isAllowed_try.
  destruct (deviceManagement cfg) as [[ids mode] |]; [| by eexists].
  cbn [blacklistedUniqueIDs blacklistOrWhitelist].
  destruct ids, mode; cbn [not_undefined has_includes andb orb negb js_includes bindC];
    try done; try (by eexists);
    repeat match goal with
           | |- context [if ?b then _ else _] => destruct b; cbn [bindC negb]
           end; try done; by eexists.
Qed.

Lemma prefix_spec (p s : string) :
  String.prefix p s = true ↔ ∃ t, s = (p ++ t)%string.
Proof.
  revert s. induction p as [| c p IH]; intros s.
  - split; [intros _; by exists s | intros _; by destruct s].
  - destruct s as [| d s].
    + split; [intros [=] | intros [t [=]]].
    + change (String.prefix (String c p) (String d s))
        with (if Ascii.ascii_dec c d then String.prefix p s else false).
      destruct (Ascii.ascii_dec c d) as [-> | Hne].
      * rewrite IH. split; intros [t Ht]; exists t.
        -- by rewrite Ht.
        -- by injection Ht.
      * split; [done | intros [t [= ? ?]]; congruence].
Qed.

Lemma includes_unfold (s pat : string) :
  includes s pat =
  if String.prefix pat s then true
  else match s with
       | EmptyString => false
       | String _ s' => includes s' pat
       end.
Proof. by destruct s. Qed.

(** [includes] is the substring test. *)
Lemma includes_spec (s pat : string) :
  includes s pat = true ↔ ∃ pre post, s = (pre ++ pat ++ post)%string.
Proof.
  split.
  - induction s as [| c s IH]; rewrite includes_unfold;
      destruct (String.prefix pat _) eqn:Hprefix.
    + apply prefix_spec in Hprefix as [t ->]. intros _. by exists EmptyString, t.
    + done.
    + apply prefix_spec in Hprefix as [t ->]. intros _. by exists EmptyString, t.
    + intros (pre & post & ->)%IH. by exists (String c pre), post.
  - intros (pre & post & ->). induction pre as [| c pre IH]; rewrite includes_unfold.
    + change (EmptyString ++ pat ++ post)%string with (pat ++ post)%string.
      by rewrite (proj2 (prefix_spec pat (pat ++ post)%string)) by by eexists.
    + change (String c pre ++ pat ++ post)%string
        with (String c (pre ++ pat ++ post)%string).
      destruct (String.prefix pat _); [done | exact IH].
Qed.

Lemma toLowerCase_app (s1 s2 : string) :
  toLowerCase (s1 ++ s2) = (toLowerCase s1 ++ toLowerCase s2)%string.
Proof.
  induction s1 as [| c s1 IH]; [done |].
  change (toLowerCase (String c (s1 ++ s2)%string)
          = String (lower_ascii c) (toLowerCase s1 ++ toLowerCase s2)%string).
  cbn [toLowerCase]. by rewrite IH.
Qed.

Lemma toLowerCase_split (x y s : string) :
  toLowerCase s = (x ++ y)%string →
  ∃ s1 s2, s = (s1 ++ s2)%string ∧ toLowerCase s1 = x ∧ toLowerCase s2 = y.
Proof.
  revert s. induction x as [| c x IH]; intros s.
  - intros Hy. by exists EmptyString, s.
  - change (String c x ++ y)%string with (String c (x ++ y)%string).
    destruct s as [| d s]; cbn [toLowerCase]; [done |].
    intros [= Hc (s1 & s2 & -> & <- & <-)%IH].
    exists (String d s1), s2. split_and!; [done | | done].
    cbn [toLowerCase]. by rewrite Hc.
Qed.

(** X12.  An accessory is marked for deletion exactly when its display name
    contains a word that reads "delete" once lowered to small letters, that
    is, the word in any mix of capital and small letters. *)
Theorem marked_for_deletion_spec (a : PlatformAccessory) :
  marked_for_deletion a = true ↔
  ∃ pre word post,
    displayName (context a) = (pre ++ word ++ post)%string
    ∧ toLowerCase word = "delete"%string.
Proof.
  unfold marked_for_deletion. rewrite includes_spec. split.
  - intros (x & y & Hlow).
    apply toLowerCase_split in Hlow as (pre & rest & -> & _ & Hrest).
    apply toLowerCase_split in Hrest as (word & post & -> & Hword & _).
    by exists pre, word, post.
  - intros (pre & word & post & -> & Hword).
    exists (toLowerCase pre), (toLowerCase post).
    by rewrite !toLowerCase_app, Hword.
Qed.

(** ** Known devices *)

Lemma loop_body_known (dev : Device) (r : Run) :
  is_Some (find_index generate dev (accessories r)) →
  ∃ r' evs,
    loop_body generate createAccessory getState config dev r = Completed r' evs
    ∧ occurrences is_getState evs = 0%nat
    ∧ UUID <$> accessories r' = UUID <$> accessories r.
Proof.
  intros [i Hi]. unfold find_index in Hi.
  apply fmap_Some in Hi as ([j existing] & Hfind & [= ->]).
  pose proof Hfind as (Hj & _)%list_find_Some.
  unfold loop_body. rewrite Hfind. cbv zeta.
  pose proof (isAllowed_only_logs config
                (uniqueId (device (context
                   (if negb (cachedIPAddress (context
                               (set_restartsSinceSeen existing 0))
                             =? ipAddress dev)%string
                    then set_cachedIPAddress (set_restartsSinceSeen existing 0)
                           (ipAddress dev)
                    else set_restartsSinceSeen existing 0))))
                is_getState (λ _, eq_refl)) as Hlogs.
  destruct (negb (cachedIPAddress (context (set_restartsSinceSeen existing 0))
                  =? ipAddress dev)%string);
    destruct (isAllowed config _) as [[] evs]; cbn [negb snd] in *;
    eexists _, _; (split; [reflexivity |]);
    rewrite ?occurrences_app, ?occurrences_cons, ?occurrences_nil, Hlogs;
    cbn [is_getState accessories set_accessories bump_registered];
    (split; [done |]); by apply (UUIDs_insert _ _ existing).
Qed.

Lemma for_of_devices_known (devices : list Device) :
  ∀ r,
    (∀ d, d ∈ devices → is_Some (find_index generate d (accessories r))) →
    ∃ r' evs,
      for_of_devices generate createAccessory getState config devices r
        = Completed r' evs
      ∧ occurrences is_getState evs = 0%nat.
Proof.
  induction devices as [| dev devices IH]; intros r Hknown; cbn [for_of_devices];
    [by eauto |].
  destruct (loop_body_known dev r) as (r1 & evs1 & -> & Hnone & Huuids);
    [apply Hknown; by left |].
  destruct (IH r1) as (r' & evs & -> & Hnone').
  { intros d Hd. rewrite (find_index_UUIDs generate d _ _ Huuids).
    apply Hknown. by right. }
  cbn [after]. eexists _, _. split; [done |].
  rewrite occurrences_app. lia.
Qed.

Lemma for_of_accessories_no_getState (accs : list PlatformAccessory) :
  ∀ this r,
    occurrences is_getState (events_of (for_of_accessories config this accs r))
      = 0%nat.
Proof.
  induction accs as [| a accs IH]; intros this r; cbn [for_of_accessories]; [done |].
  assert (occurrences is_getState (events_of (sweep_body config this a r)) = 0%nat)
    as Hbody.
  { unfold sweep_body.
    destruct (marked_for_deletion a); [done |].
    destruct (pruning config) as [p |]; [| done].
    pose proof (isAllowed_only_logs config (uniqueId (device (context a)))
                  is_getState (λ _, eq_refl)) as Hlogs.
    destruct (isAllowed config (uniqueId (device (context a)))) as [allowed evs].
    cbn [snd] in Hlogs.
    destruct (pruneMissingCachedAccessories p || pruneAllAccessoriesNextRestart p)%bool,
      ((restartsBeforeMissingAccessoriesPruned p <=? restartsSinceSeen (context a))
       || pruneAllAccessoriesNextRestart p)%bool,
      (0 <? restartsSinceSeen (context a)), allowed;
      cbn [negb events_of]; rewrite ?occurrences_app, ?Hlogs; reflexivity. }
  destruct (sweep_body config this a r) as [r1 evs1 | e r1 evs1]; [| done].
  cbn [events_of] in Hbody. by rewrite events_of_after, occurrences_app, Hbody, IH.
Qed.

(** X13.  Devices that are already in the cache are never queried: when every
    discovered device finds its accessory, the run makes no state query, the
    reconciliation loop runs to its end over all of them, nothing is
    registered and the array keeps its length. *)
Theorem known_devices_are_not_queried (accs : list PlatformAccessory) :
  (∀ d, d ∈ (scan_phase scan).1.1 → is_Some (find_index generate d accs)) →
  let o := discoverDevices generate scan createAccessory getState config accs in
  occurrences is_getState (events_of o) = 0%nat
  ∧ occurrences is_register (events_of o) = 0%nat
  ∧ length (accessories (run_of o)) = length accs
  ∧ processed generate createAccessory getState config (scan_phase scan).1.1
      (mkRun accs 0 0 0) = (scan_phase scan).1.1.
Proof.
  intros Hknown o.
  destruct (for_of_devices_known (scan_phase scan).1.1 (mkRun accs 0 0 0) Hknown)
    as (r' & evs & Hloop & Hnone).
  destruct (for_of_devices_all_matched generate createAccessory getState config
              (scan_phase scan).1.1 (mkRun accs 0 0 0) Hknown)
    as (r'' & evs'' & Hloop' & Hreg & Hlen).
  rewrite Hloop in Hloop'. injection Hloop' as <- <-.
  destruct (discoverDevices_loops accs) as [Hrun Hevs]. fold o in Hrun, Hevs.
  rewrite Hloop in Hrun, Hevs. cbn [run_of events_of] in Hrun, Hevs.
  split_and!.
  - rewrite (Hevs is_getState) by kind_inside_loops.
    unfold sweep. rewrite for_of_accessories_no_getState. lia.
  - rewrite (Hevs is_register) by kind_inside_loops.
    unfold sweep. rewrite for_of_accessories_no_register. lia.
  - rewrite Hrun. unfold sweep. by rewrite for_of_accessories_accessories.
  - by eapply processed_all.
Qed.



End Further.

Lemma counters_count_effects_witness :
  let o := discoverDevices sample_generate (λ _, [device_A1; device_C3])
             sample_createAccessory sample_getState sample_config [lamp_A1 1] in
  o = Completed (run_of o) (events_of o)
  ∧ ∃ evs0, events_of o = evs0 ++ [Log log_info (Summary 2 1 1 0)].
Proof.
  intros o. assert (Ho : o = Completed (run_of o) (events_of o)) by reflexivity.
  split; [exact Ho |].
  destruct (counters_count_effects sample_generate (λ _, [device_A1; device_C3])
              sample_createAccessory sample_getState sample_config [lamp_A1 1])
    as (_ & _ & _ & _ & Hsummary).
  exact (Hsummary _ _ Ho).
Defined.

Lemma UUIDs_stay_distinct_witness :
  NoDup (UUID <$> [lamp_A1 0; lamp_C3 0])
  ∧ NoDup (UUID <$> accessories
             (run_of (startup sample_generate (λ _, [device_A1; device_B2])
                        sample_createAccessory sample_getState sample_config
                        [lamp_A1 0; lamp_C3 0]))).
Proof.
  assert (Hdistinct : NoDup (UUID <$> [lamp_A1 0; lamp_C3 0])).
  { apply (bool_decide_unpack _). by vm_compute. }
  split; [exact Hdistinct |].
  apply (UUIDs_stay_distinct sample_generate (λ _, [device_A1; device_B2])
           sample_createAccessory sample_getState sample_config
           [lamp_A1 0; lamp_C3 0] Hdistinct).
Defined.

Lemma run_changes_counter_and_address_only_witness :
  [lamp_A1 1] !! 0%nat = Some (lamp_A1 1)
  ∧ ∃ a',
      accessories
        (run_of (discoverDevices sample_generate (λ _, [device_A1])
                   sample_createAccessory sample_getState sample_config
                   [lamp_A1 1])) !! 0%nat = Some a'
      ∧ cachedIPAddress (context a') = "10.0.0.9"%string
      ∧ device (context a') = device (context (lamp_A1 1)).
Proof.
  split; [reflexivity |].
  destruct (run_changes_counter_and_address_only sample_generate (λ _, [device_A1])
              sample_createAccessory sample_getState sample_config [lamp_A1 1]
              0%nat (lamp_A1 1) eq_refl)
    as (a' & Hi & _ & _ & _ & Hdev & _).
  exists a'. split_and!; [exact Hi | | exact Hdev].
  vm_compute in Hi. injection Hi as <-. reflexivity.
Defined.

Lemma counters_stay_non_negative_witness :
  (∀ a, a ∈ [lamp_A1 0; lamp_C3 2] → 0 ≤ restartsSinceSeen (context a))
  ∧ ∀ a', a' ∈ accessories
                 (run_of (startup sample_generate (λ _, [device_A1])
                            sample_createAccessory sample_getState sample_config
                            [lamp_A1 0; lamp_C3 2])) →
          0 ≤ restartsSinceSeen (context a').
Proof.
  assert (Hnonneg : ∀ a, a ∈ [lamp_A1 0; lamp_C3 2] →
                         0 ≤ restartsSinceSeen (context a)).
  { intros a Ha.
    apply elem_of_cons in Ha as [-> | Ha]; [cbn; lia |].
    apply list_elem_of_singleton in Ha as ->. cbn. lia. }
  split; [exact Hnonneg |].
  exact (counters_stay_non_negative sample_generate (λ _, [device_A1])
           sample_createAccessory sample_getState sample_config
           [lamp_A1 0; lamp_C3 2] Hnonneg).
Defined.

Lemma created_accessories_are_well_made_witness :
  let final :=
    accessories
      (run_of (discoverDevices sample_generate (λ _, [device_A1])
                 sample_createAccessory sample_getState sample_config [])) in
  final !! 0%nat
    = Some (mkAccessory "uuid-A1"
              (mkContext sample_type "RGB Strip" (set_initialState device_A1 "81")
                 "10.0.0.9" 0))
  ∧ (length ([] : list PlatformAccessory) ≤ 0)%nat
  ∧ well_made sample_generate sample_config
      (mkAccessory "uuid-A1"
         (mkContext sample_type "RGB Strip" (set_initialState device_A1 "81")
            "10.0.0.9" 0)).
Proof.
  intros final.
  assert (Hi : final !! 0%nat
               = Some (mkAccessory "uuid-A1"
                         (mkContext sample_type "RGB Strip"
                            (set_initialState device_A1 "81") "10.0.0.9" 0)))
    by reflexivity.
  assert (Hge : (length ([] : list PlatformAccessory) ≤ 0)%nat) by (cbn; lia).
  split_and!; [exact Hi | exact Hge |].
  exact (created_accessories_are_well_made sample_generate (λ _, [device_A1])
           sample_createAccessory sample_getState sample_config [] 0%nat _ Hi Hge).
Defined.

Lemma scan_phase_stops_at_first_find_witness :
  (scan_phase found_on_third).1.1 = [device_A1]
  ∧ (scan_phase found_on_third).1.2 = 2%nat
  ∧ occurrences is_scan (scan_phase found_on_third).2 = 3%nat.
Proof.
  destruct (scan_phase_stops_at_first_find found_on_third)
    as (Hdevices & _ & _ & _ & Hscans & _).
  split_and!; [exact Hdevices | reflexivity | exact Hscans].
Defined.

Lemma prune_all_unregisters_everything_witness :
  pruning prune_all_config = Some (mkPruning false true 3)
  ∧ pruneAllAccessoriesNextRestart (mkPruning false true 3) = true
  ∧ let o := discoverDevices sample_generate (λ _, [device_C3])
               sample_createAccessory sample_getState prune_all_config
               [lamp_A1 1] in
    length (accessories (run_of o)) = 2%nat
    ∧ ∀ i, (i < length (accessories (run_of o)))%nat →
           (1 ≤ occurrences (is_unregister_of i) (events_of o))%nat.
Proof.
  split_and!; [reflexivity | reflexivity |].
  intros o. split; [reflexivity |].
  apply (prune_all_unregisters_everything sample_generate (λ _, [device_C3])
           sample_createAccessory sample_getState prune_all_config
           (mkPruning false true 3) [lamp_A1 1]); reflexivity.
Defined.

Lemma missing_pruning_section_witness :
  pruning empty_config = None
  ∧ let o := discoverDevices sample_generate never_found sample_createAccessory
               sample_getState empty_config [marked_A1 1] in
    forallb marked_for_deletion (accessories (run_of o)) = true
    ∧ ∃ r evs, o = Completed r evs.
Proof.
  split; [reflexivity |]. intros o. split; [reflexivity |].
  pose proof (missing_pruning_section sample_generate never_found
                sample_createAccessory sample_getState empty_config
                [marked_A1 1] eq_refl) as Hrun.
  exact Hrun.
Defined.

Lemma blacklist_and_whitelist_are_opposite_witness :
  includes "blacklist" "blacklist" = true
  ∧ includes "blacklist" "whitelist" = false
  ∧ includes "whitelist" "whitelist" = true
  ∧ includes "whitelist" "blacklist" = false
  ∧ (isAllowed (allow_list_config (Some ["A1"%string]) (Some "blacklist"%string) None)
       "A1").1
    = negb (isAllowed (allow_list_config (Some ["A1"%string])
                         (Some "whitelist"%string) None) "A1").1.
Proof.
  split_and!; [reflexivity.. |].
  apply (blacklist_and_whitelist_are_opposite ["A1"%string] "blacklist" "whitelist"
           None "A1"); reflexivity.
Defined.

Lemma known_devices_are_not_queried_witness :
  (∀ d, d ∈ (scan_phase (λ _ : nat, [device_A1])).1.1 →
        is_Some (find_index sample_generate d [lamp_A1 1]))
  ∧ occurrences is_getState
      (events_of (discoverDevices sample_generate (λ _, [device_A1])
                    sample_createAccessory sample_getState sample_config
                    [lamp_A1 1])) = 0%nat.
Proof.
  assert (Hknown : ∀ d, d ∈ (scan_phase (λ _ : nat, [device_A1])).1.1 →
                        is_Some (find_index sample_generate d [lamp_A1 1])).
  { intros d Hd. vm_compute in Hd. apply list_elem_of_singleton in Hd as ->.
    by exists 0%nat. }
  split; [exact Hknown |].
  apply (known_devices_are_not_queried sample_generate (λ _, [device_A1])
           sample_createAccessory sample_getState sample_config [lamp_A1 1] Hknown).
Defined.

(** * Runs in which the loop gets past the devices *)

Section Reached.
Variable generate : string → string.
Variable scan : nat → list Device.
Variable createAccessory : Device → Completion DeviceType.
Variable getState : string → Completion TransportState.
Variable config : PlatformConfig.

(** ** Getting past a device *)

Lemma loop_body_reaches (dev : Device) (r : Run) :
  known_or_answers generate createAccessory getState (accessories r) dev →
  ∃ r' evs, loop_body generate createAccessory getState config dev r = Completed r' evs.
Proof.
  intros [Hknown | [[deviceType Hcreate] [state Hstate]]].
  - destruct (loop_body_known generate createAccessory getState config dev r Hknown)
      as (r' & evs & Hbody & _). by eauto.
  - destruct (find_accessory (generate (uniqueId dev)) (accessories r))
      as [[this existing] |] eqn:Hfind.
    + destruct (loop_body_known generate createAccessory getState config dev r)
        as (r' & evs & Hbody & _); [| by eauto].
      unfold find_index. by rewrite Hfind.
    + unfold loop_body. rewrite Hfind, Hcreate, Hstate. cbv zeta.
      destruct (isAllowed config _) as [[] evs]; cbn [negb]; by eauto.
Qed.

Lemma processed_subset (devices : list Device) :
  ∀ r d,
    d ∈ processed generate createAccessory getState config devices r → d ∈ devices.
Proof.
  induction devices as [| dev devices IH]; intros r d; cbn [processed]; [done |].
  destruct (loop_body generate createAccessory getState config dev r)
    as [r1 evs1 | e r1 evs1]; [| by intros ?%elem_of_nil].
  intros [-> | Hin]%elem_of_cons; [by left | right; by eapply IH].
Qed.

Lemma find_index_UUID (dev : Device) (accs : list PlatformAccessory) (i : nat) :
  find_index generate dev accs = Some i →
  ∃ a, accs !! i = Some a ∧ UUID a = generate (uniqueId dev).
Proof.
  unfold find_index, find_accessory.
  intros ([j a] & (Hj & Huuid & _)%list_find_Some & [= ->])%fmap_Some. by eauto.
Qed.

(** The loop leaves the UUIDs of what was in the array where they were. *)
Lemma for_of_devices_UUIDs (devices : list Device) (r : Run) :
  UUID <$> take (length (accessories r))
             (accessories
                (run_of (for_of_devices generate createAccessory getState config
                           devices r)))
  = UUID <$> accessories r.
Proof.
  destruct (for_of_devices_accessories generate createAccessory getState config
              devices r) as (Hlen & Hold & _).
  apply list_eq. intros i. rewrite !list_lookup_fmap.
  destruct (Nat.lt_ge_cases i (length (accessories r))) as [Hlt | Hge].
  - rewrite lookup_take_lt by done.
    destruct (lookup_lt_is_Some_2 _ i Hlt) as [a Hi].
    destruct (Hold i a Hi) as (a' & -> & Hcase). rewrite Hi. cbn. f_equal.
    destruct (matched_by generate _ _ i).
    + by destruct Hcase as (d & _ & _ & ->).
    + by subst a'.
  - rewrite lookup_take_ge by done.
    by rewrite (proj2 (lookup_ge_None _ _) Hge).
Qed.

(** A device that has its accessory keeps it, at the same position. *)
Lemma find_index_stays (devices : list Device) (r : Run) (dev : Device) (i : nat) :
  find_index generate dev (accessories r) = Some i →
  find_index generate dev
    (accessories
       (run_of (for_of_devices generate createAccessory getState config devices r)))
  = Some i.
Proof.
  intros Hfind.
  set (final := accessories
                  (run_of (for_of_devices generate createAccessory getState config
                             devices r))).
  pose proof (for_of_devices_UUIDs devices r) as Huuids. fold final in Huuids.
  destruct (for_of_devices_accessories generate createAccessory getState config
              devices r) as (Hlen & _ & _). fold final in Hlen.
  rewrite <- (take_drop (length (accessories r)) final).
  destruct (find_index_UUID dev _ i Hfind) as (a & Hi & _).
  apply find_index_app.
  - rewrite length_take. apply lookup_lt_Some in Hi. lia.
  - by rewrite (find_index_UUIDs generate dev _ _ Huuids).
Qed.

Lemma loop_body_as_loop (dev : Device) (r : Run) :
  run_of (for_of_devices generate createAccessory getState config [dev] r)
  = run_of (loop_body generate createAccessory getState config dev r).
Proof.
  cbn [for_of_devices].
  by destruct (loop_body generate createAccessory getState config dev r).
Qed.

(** The loop runs to its end over devices that are known or answer. *)
Lemma for_of_devices_reaches (devices : list Device) :
  ∀ r,
    (∀ d, d ∈ devices →
          known_or_answers generate createAccessory getState (accessories r) d) →
    ∃ r' evs,
      for_of_devices generate createAccessory getState config devices r
        = Completed r' evs.
Proof.
  induction devices as [| dev devices IH]; intros r Hall; cbn [for_of_devices];
    [by eauto |].
  destruct (loop_body_reaches dev r) as (r1 & evs1 & Hbody); [apply Hall; by left |].
  rewrite Hbody.
  destruct (IH r1) as (r' & evs & ->).
  { intros d Hd. destruct (Hall d) as [[i Hknown] | Hanswers]; [by right | | by right].
    left. exists i.
    pose proof (find_index_stays [dev] r d i Hknown) as Hstays.
    by rewrite loop_body_as_loop, Hbody in Hstays. }
  cbn [after]. by eauto.
Qed.

(** An accessory whose UUID no device of the list generates is left alone. *)
Lemma for_of_devices_untouched (devices : list Device) (r : Run) (i : nat)
    (a : PlatformAccessory) :
  accessories r !! i = Some a →
  (∀ d, d ∈ devices → generate (uniqueId d) ≠ UUID a) →
  accessories
    (run_of (for_of_devices generate createAccessory getState config devices r))
  !! i = Some a.
Proof.
  intros Hi Hother.
  destruct (for_of_devices_accessories generate createAccessory getState config
              devices r) as (_ & Hold & _).
  destruct (Hold i a Hi) as (a' & Hi' & Hcase). rewrite Hi'. f_equal.
  destruct (matched_by generate _ _ i); [| done].
  destruct Hcase as (d & Hd%processed_subset & Hfd & _).
  destruct (find_index_UUID d _ i Hfd) as (b & Hb & Huuid).
  rewrite Hi in Hb. injection Hb as <-. by destruct (Hother d Hd).
Qed.

(** Whatever the loop pushes has a UUID that was not in the array. *)
Lemma for_of_devices_fresh (devices : list Device) :
  ∀ r j b,
    accessories
      (run_of (for_of_devices generate createAccessory getState config devices r))
    !! j = Some b →
    (length (accessories r) ≤ j)%nat →
    UUID b ∉ UUID <$> accessories r.
Proof.
  induction devices as [| dev devices IH]; intros r j b; cbn [for_of_devices].
  { intros Hj Hge. apply lookup_lt_Some in Hj. cbn in Hj. lia. }
  pose proof (loop_body_iteration generate createAccessory getState config dev r)
    as Hit.
  destruct (loop_body generate createAccessory getState config dev r)
    as [r1 evs1 | e r1 evs1].
  - rewrite run_of_after. intros Hj Hge.
    inversion Hit as [| ? Hnone | ? ? x Hnone Haccs Huuid
                      | ? ? this existing Hsome Haccs]; subst.
    + by eapply IH.
    + destruct (decide (j = length (accessories r))) as [-> | Hne].
      * destruct (for_of_devices_accessories generate createAccessory getState
                    config devices r1) as (_ & Hold & _).
        destruct (Hold (length (accessories r)) x) as (b' & Hb' & Hcase).
        { by rewrite Haccs, lookup_app_r, Nat.sub_diag by lia. }
        rewrite Hj in Hb'. injection Hb' as <-.
        assert (UUID b = UUID x) as ->.
        { destruct (matched_by generate _ _ _);
            [by destruct Hcase as (d & _ & _ & ->) | by subst b]. }
        rewrite Huuid. intros (y & Hy & Hin)%list_elem_of_fmap.
        apply list_find_None in Hnone. rewrite Forall_forall in Hnone.
        by apply (Hnone y Hin).
      * pose proof (IH r1 j b Hj) as Hfresh.
        rewrite Haccs, length_app, fmap_app in Hfresh. cbn [length] in Hfresh.
        intros Hin. apply Hfresh; [lia |]. apply elem_of_app. by left.
    + apply find_index_Some in Hsome as [_ Hthis].
      pose proof (IH r1 j b Hj) as Hfresh.
      rewrite Haccs, length_insert in Hfresh.
      rewrite <- Haccs, Haccs, (UUIDs_insert _ _ existing) in Hfresh by done.
      by apply Hfresh.
  - inversion Hit; subst. intros Hj Hge. apply lookup_lt_Some in Hj.
    cbn [run_of] in Hj. lia.
Qed.

(** ** Counters after a run that gets past every device *)

(** C7 (amended).  Every accessory restored from the cache enters
    reconciliation with its counter one higher than it was stored.  In a run
    whose scans answer and whose loop gets past every discovered device, each
    being in the cache or answering both awaited calls, a restored accessory ends with counter 0 if
    the UUID generated for some discovered device is found at its position,
    and with its incremented counter otherwise, and every accessory created
    during the run ends with counter 0.  Hence, counters in the cache being
    non-negative, the counter is 0 at the end of such a run exactly for the
    accessories seen in it: the new ones and those matched by a discovered
    device. *)
Theorem restartsSinceSeen_zero_iff_seen (cache : list PlatformAccessory) :
  let devices := (scan_phase scan).1.1 in
  let final :=
    accessories
      (run_of (startup generate scan createAccessory getState config cache)) in
  (∀ d, d ∈ devices →
        known_or_answers generate createAccessory getState cache d) →
  (restore cache).1 =
    (λ a, set_restartsSinceSeen a (restartsSinceSeen (context a) + 1)) <$> cache
  ∧ processed generate createAccessory getState config devices
      (mkRun (restore cache).1 0 0 0) = devices
  ∧ (length cache ≤ length final)%nat
  ∧ (∀ i a, cache !! i = Some a →
       ∃ a', final !! i = Some a'
             ∧ UUID a' = UUID a
             ∧ restartsSinceSeen (context a') =
               if matched_by generate devices cache i then 0
               else restartsSinceSeen (context a) + 1)
  ∧ (∀ i a', final !! i = Some a' → (length cache ≤ i)%nat →
       restartsSinceSeen (context a') = 0)
  ∧ ((∀ a, a ∈ cache → 0 ≤ restartsSinceSeen (context a)) →
     ∀ i a', final !! i = Some a' →
       restartsSinceSeen (context a') = 0 ↔
       (length cache ≤ i)%nat ∨ matched_by generate devices cache i = true).
Proof.
  intros devices final Hreach.
  pose proof (UUIDs_restore cache) as Huuids.
  destruct (for_of_devices_reaches devices (mkRun (restore cache).1 0 0 0))
    as (r' & evs & Hloop).
  { intros d Hd. cbn [accessories].
    destruct (Hreach d Hd) as [Hknown | Hanswers]; [left | by right].
    by rewrite (find_index_UUIDs generate d _ _ Huuids). }
  pose proof (processed_all generate createAccessory getState config _ _ _ _ Hloop)
    as Hdone.
  destruct (restartsSinceSeen_over_processed generate scan createAccessory
              getState config cache) as (Hrestored & Hlen & Hold & Hnew & Hiff).
  fold devices in Hold, Hiff. rewrite Hdone in Hold, Hiff.
  fold final in Hlen, Hold, Hnew, Hiff.
  split_and!; [done | done | done | | done |].
  - intros i a Hi. destruct (Hold i a Hi) as (a' & Hi' & Huuid & Hseen).
    exists a'. by rewrite <- (matched_by_UUIDs generate devices _ _ i Huuids).
  - intros Hnonneg i a' Hi'.
    rewrite <- (matched_by_UUIDs generate devices _ _ i Huuids).
    by apply Hiff.
Qed.

(** ** Address drift in a run *)

Lemma discoverDevices_loop_events (accs : list PlatformAccessory) :
  ∃ before behind,
    events_of (discoverDevices generate scan createAccessory getState config accs)
    = before
      ++ events_of (for_of_devices generate createAccessory getState config
                      (scan_phase scan).1.1 (mkRun accs 0 0 0))
      ++ behind.
Proof.
  unfold discoverDevices.
  destruct (scan_phase scan) as [[devices scans] evs0]. cbn [fst snd].
  unfold reconcile_and_prune, try_reconcile.
  destruct (for_of_devices generate createAccessory getState config devices
              (mkRun accs 0 0 0)) as [r evs | e r evs]; cbn [events_of];
    destruct (sweep config r) as [r' evs' | e' r' evs'];
    cbn [after events_of]; exists evs0; eexists;
    rewrite <- ?app_assoc; reflexivity.
Qed.

(** C6 (amended).  Let a discovered device be matched with a cached accessory:
    the accessory is the first of the array whose UUID is the one generated
    from the device's identifier.  Let the scans answer and the loop get to the
    device, every
    device scanned before it being in the cache or answering both awaited
    calls, and let no other discovered device generate the same UUID.  Then at
    the end of the run the accessory is at its position with its counter at 0
    and the discovered address as cached address, and no accessory with that
    UUID was added to the array.  If the cached address differed, the run
    logged the four warnings in a row, the second carrying the old address and
    the third the new one; if it was equal, only the counter changed. *)
Theorem drift_corrected_in_run (accs : list PlatformAccessory)
    (pre post : list Device) (dev : Device) (i : nat) (a : PlatformAccessory) :
  (scan_phase scan).1.1 = pre ++ dev :: post →
  (∀ d, d ∈ pre → known_or_answers generate createAccessory getState accs d) →
  (∀ d, d ∈ pre ++ post → generate (uniqueId d) ≠ generate (uniqueId dev)) →
  accs !! i = Some a →
  UUID a = generate (uniqueId dev) →
  (∀ j b, accs !! j = Some b → (j < i)%nat → UUID b ≠ generate (uniqueId dev)) →
  let o := discoverDevices generate scan createAccessory getState config accs in
  let final := accessories (run_of o) in
  final !! i
    = Some (set_cachedIPAddress (set_restartsSinceSeen a 0) (ipAddress dev))
  ∧ (∀ j b, final !! j = Some b → UUID b = generate (uniqueId dev) →
            (j < length accs)%nat)
  ∧ (cachedIPAddress (context a) ≠ ipAddress dev →
     ∃ before behind,
       events_of o
       = before
         ++ [Log log_warn (IpDiscrepancyFound (displayName (context a)));
             Log log_warn (ExpectedIp (cachedIPAddress (context a)));
             Log log_warn (DiscoveredIp (ipAddress dev));
             Log log_warn (IpReassigned (ipAddress dev))]
         ++ behind)
  ∧ (cachedIPAddress (context a) = ipAddress dev →
     final !! i = Some (set_restartsSinceSeen a 0)).
Proof.
  intros Hdevices Hreach Hunique Hi Huuid Hfirst o final.
  set (r0 := mkRun accs 0 0 0).
  (* the devices in front *)
  destruct (for_of_devices_reaches pre r0 Hreach) as (r1 & evs1 & Hpre).
  assert (Hi1 : accessories r1 !! i = Some a).
  { pose proof (for_of_devices_untouched pre r0 i a Hi) as Hsame.
    rewrite Hpre in Hsame. apply Hsame.
    intros d Hd. rewrite Huuid. apply Hunique, elem_of_app. by left. }
  assert (Hfind0 : find_index generate dev accs = Some i).
  { unfold find_index, find_accessory.
    rewrite (proj2 (list_find_Some _ accs i a)); [done |].
    split_and!; [done | done |]. intros j b Hj Hlt. by apply (Hfirst j b). }
  assert (Hfind1 : find_accessory (generate (uniqueId dev)) (accessories r1)
                   = Some (i, a)).
  { apply find_accessory_index; [| done].
    pose proof (find_index_stays pre r0 dev i Hfind0) as Hstays.
    by rewrite Hpre in Hstays. }
  (* the device itself *)
  destruct (loop_body_corrects_drift generate createAccessory getState config
              dev r1 i a Hfind1)
    as (r2 & evs2 & a2 & Hbody & Haccs2 & _ & _ & _ & _ & Hdiffer & Hequal).
  assert (Ha2 : a2 = set_cachedIPAddress (set_restartsSinceSeen a 0) (ipAddress dev)).
  { pose proof (loop_body_iteration generate createAccessory getState config dev r1)
      as Hit. rewrite Hbody in Hit.
    inversion Hit as [| ? Hnone | ? ? ? Hnone | ? ? this existing Hsome Haccs];
      subst; try congruence.
    rewrite Hfind1 in Hsome. injection Hsome as <- <-.
    assert (accessories r2 !! i = Some a2) as Hget.
    { rewrite Haccs2. apply list_lookup_insert_eq. by eapply lookup_lt_Some. }
    rewrite Haccs, list_lookup_insert_eq in Hget by by eapply lookup_lt_Some.
    congruence. }
  assert (Hi2 : accessories r2 !! i = Some a2).
  { rewrite Haccs2. apply list_lookup_insert_eq. by eapply lookup_lt_Some. }
  (* the devices behind *)
  assert (Hloop : for_of_devices generate createAccessory getState config
                    (pre ++ dev :: post) r0
                  = after evs1
                      (after evs2
                         (for_of_devices generate createAccessory getState config
                            post r2))).
  { rewrite for_of_devices_app, Hpre. cbn [for_of_devices]. by rewrite Hbody. }
  assert (Hfinal : final
                   = accessories
                       (run_of (for_of_devices generate createAccessory getState
                                  config post r2))).
  { subst final o. rewrite discoverDevices_accessories, Hdevices. fold r0.
    by rewrite Hloop, !run_of_after. }
  assert (Hlast : final !! i = Some a2).
  { rewrite Hfinal. apply for_of_devices_untouched; [done |].
    intros d Hd. rewrite Ha2, UUID_set_cachedIPAddress, UUID_set_restartsSinceSeen, Huuid. apply Hunique, elem_of_app. by right. }
  split_and!.
  - by rewrite Hlast, Ha2.
  - intros j b Hj Hb.
    destruct (Nat.lt_ge_cases j (length accs)) as [Hlt | Hge]; [done |].
    exfalso. subst final o. rewrite discoverDevices_accessories in Hj.
    apply (for_of_devices_fresh _ _ _ _ Hj Hge). cbn [accessories].
    apply list_elem_of_fmap. exists a. split; [congruence |].
    by eapply list_elem_of_lookup_2.
  - intros Hne. destruct (Hdiffer Hne) as [evs2' Hevs2].
    destruct (discoverDevices_loop_events accs) as (before & behind & Hevs).
    fold o in Hevs. rewrite Hdevices in Hevs. fold r0 in Hevs.
    rewrite Hloop, !events_of_after, Hevs2 in Hevs.
    exists (before ++ evs1),
      (evs2' ++ events_of (for_of_devices generate createAccessory getState config
                             post r2) ++ behind).
    rewrite Hevs, <- !app_assoc. reflexivity.
  - intros Heq. destruct (Hequal Heq) as (-> & _). exact Hlast.
Qed.

End Reached.

(** * The awaited calls in front of the [try] *)

Section Launched.
Variable generate : string → string.
Variable networkInterfaceDefault : Completion string.
Variable broadcastAddress : string → Completion string.
Variable awaited_scan : nat → Completion (list Device).
Variable createAccessory : Device → Completion DeviceType.
Variable getState : string → Completion TransportState.
Variable config : PlatformConfig.

(** The [while] loop is left normally exactly when no rescan rejects: the
    devices at hand are not empty, or five rescans were made, or a later scan,
    none before it rejecting, is the first to find a device or is the sixth. *)
Lemma rescan_awaited_scanned (remaining : nat) :
  ∀ devices scans,
    (remaining + scans = 5)%nat →
    (∃ devices' scans' evs,
       rescan_awaited awaited_scan remaining devices scans
         = Scanned devices' scans' evs)
    ↔ (devices ≠ [] ∨ scans = 5%nat
       ∨ ∃ n found,
           (scans < n ≤ 5)%nat
           ∧ (∀ k, (scans < k < n)%nat → awaited_scan k = Normal [])
           ∧ awaited_scan n = Normal found
           ∧ (found = [] → n = 5%nat)).
Proof using.
  induction remaining as [| remaining IH]; intros devices scans Hsum.
  { cbn [rescan_awaited]. split; [intros _; right; left; lia | by eauto]. }
  cbn [rescan_awaited].
  destruct devices as [| d devices]; cbn [length Nat.eqb andb].
  2: { split; [by left | by eauto]. }
  assert (Hlt : (scans <? 5)%nat = true) by (apply Nat.ltb_lt; lia).
  rewrite Hlt.
  destruct (awaited_scan (S scans)) as [found1 | e] eqn:Hnext.
  - specialize (IH found1 (S scans) ltac:(lia)).
    transitivity (∃ devices' scans' evs,
                    rescan_awaited awaited_scan remaining found1 (S scans)
                      = Scanned devices' scans' evs).
    { destruct (rescan_awaited awaited_scan remaining found1 (S scans))
        as [ds sc evs | e evs]; split; intros (? & ? & ? & [=]); by eauto. }
    rewrite IH. split.
    + intros Hcases. right. right.
      destruct found1 as [| d1 found1].
      * destruct Hcases as [? | [Hfive | (n & found & Hn & Hempty & Hfound & Hlast)]];
          [done | |].
        -- exists (S scans), []. split_and!; [lia | lia | intros; lia | done | done].
        -- exists n, found. split_and!; [lia | lia | | done | done].
           intros k Hk. destruct (decide (k = S scans)) as [-> | Hne]; [done |].
           apply Hempty. lia.
      * exists (S scans), (d1 :: found1).
        split_and!; [lia | lia | intros; lia | done | done].
    + intros [? | [? | (n & found & Hn & Hempty & Hfound & Hlast)]]; [done | lia |].
      destruct (decide (n = S scans)) as [-> | Hne].
      * rewrite Hnext in Hfound. injection Hfound as <-.
        destruct found1 as [| d1 found1]; [right; left; by apply Hlast | by left].
      * assert (Hnil : found1 = []).
        { rewrite Hempty in Hnext by lia. congruence. }
        right. right. exists n, found.
        split_and!; [lia | lia | | done | done].
        intros k Hk. apply Hempty. lia.
  - split; [by intros (? & ? & ? & [=]) |].
    intros [? | [? | (n & found & Hn & Hempty & Hfound & Hlast)]]; [done | lia |].
    destruct (decide (n = S scans)) as [-> | Hne]; [congruence |].
    rewrite Hempty in Hnext by lia. congruence.
Qed.

(** A rejected rescan is one of the five rescans. *)
Lemma rescan_awaited_thrown (remaining : nat) :
  ∀ devices scans e evs,
    (remaining + scans = 5)%nat →
    rescan_awaited awaited_scan remaining devices scans = ScanThrown e evs →
    ∃ k, (scans < k ≤ 5)%nat ∧ awaited_scan k = Throw e.
Proof using.
  induction remaining as [| remaining IH]; intros devices scans e evs Hsum;
    cbn [rescan_awaited]; [done |].
  destruct (Nat.eqb (length devices) 0 && Nat.ltb scans 5)%bool; [| done].
  destruct (awaited_scan (S scans)) as [found | e0] eqn:Hnext.
  - destruct (rescan_awaited awaited_scan remaining found (S scans))
      as [ds sc evs0 | e0 evs0] eqn:Hrest; [done |].
    intros [= <- _].
    destruct (IH found (S scans) e0 evs0 ltac:(lia) Hrest) as (k & Hk & Hthrow).
    exists k. split; [lia | done].
  - intros [= <- _]. exists (S scans). split; [lia | done].
Qed.

(** The scan phase is left normally exactly when [scans_succeed]. *)
Lemma scans_succeed_scanned :
  scans_succeed awaited_scan
  ↔ ∃ devices0 devices scans evs,
      awaited_scan 0%nat = Normal devices0
      ∧ rescan_awaited awaited_scan 5 devices0 0 = Scanned devices scans evs.
Proof using.
  split.
  - intros (n & found & Hn & Hempty & Hfound & Hlast).
    destruct n as [| n].
    + exists found.
      destruct (proj2 (rescan_awaited_scanned 5 found 0 eq_refl))
        as (devices & scans & evs & Hscanned); [| by eauto 6].
      left. intros ->. by specialize (Hlast eq_refl).
    + exists [].
      destruct (proj2 (rescan_awaited_scanned 5 [] 0 eq_refl))
        as (devices & scans & evs & Hscanned).
      { right. right. exists (S n), found.
        split_and!; [lia | lia | | done | done].
        intros k Hk. apply Hempty. lia. }
      exists devices, scans, evs. split; [apply Hempty; lia | done].
  - intros (devices0 & devices & scans & evs & Hfirst & Hscanned).
    destruct (proj1 (rescan_awaited_scanned 5 devices0 0 eq_refl))
      as [Hsome | [? | (n & found & Hn & Hempty & Hfound & Hlast)]];
      [by eauto | | lia |].
    + exists 0%nat, devices0. split_and!; [lia | intros; lia | done | done].
    + destruct devices0 as [| d0 devices0].
      * exists n, found. split_and!; [lia | | done | done].
        intros k Hk. destruct k as [| k]; [done | apply Hempty; lia].
      * exists 0%nat, (d0 :: devices0).
        split_and!; [lia | intros; lia | done | done].
Qed.

(** When no awaited scan rejects, the loop with rejecting scans is the loop of
    [rescan]. *)
Lemma rescan_awaited_rescan (scan : nat → list Device) (remaining : nat) :
  (∀ k, awaited_scan k = Normal (scan k)) →
  ∀ devices scans,
    rescan_awaited awaited_scan remaining devices scans
    = let '(devices', scans', evs) := rescan scan remaining devices scans in
      Scanned devices' scans' evs.
Proof using.
  intros Hsame. induction remaining as [| remaining IH]; intros devices scans;
    cbn [rescan_awaited rescan]; [done |].
  destruct (Nat.eqb (length devices) 0 && Nat.ltb scans 5)%bool; [| done].
  rewrite Hsame, IH.
  by destruct (rescan scan remaining (scan (S scans)) (S scans)) as [[? ?] ?].
Qed.

(** When the interface and the broadcast address are obtained and no scan
    rejects, the method is [discoverDevices] as it is studied above. *)
Lemma discoverDevices_awaited_discoverDevices (scan : nat → list Device)
    (interface address : string) (accs : list PlatformAccessory) :
  networkInterfaceDefault = Normal interface →
  broadcastAddress interface = Normal address →
  (∀ k, awaited_scan k = Normal (scan k)) →
  discoverDevices_awaited generate networkInterfaceDefault broadcastAddress
    awaited_scan createAccessory getState config accs
  = discoverDevices generate scan createAccessory getState config accs.
Proof using.
  intros Hinterface Haddress Hsame.
  unfold discoverDevices_awaited, discoverDevices, scan_phase.
  rewrite Hinterface, Haddress, Hsame, (rescan_awaited_rescan scan 5 Hsame).
  by destruct (rescan scan 5 (scan 0%nat) 0) as [[devices scans] evs].
Qed.

(** C9 (amended).  [discoverDevices] is taken from its first line, with the
    calls it awaits in front of the [try]; the calls of the registry, of the
    handler constructor and of the logger return, and the cached contexts hold
    the fields this file writes.  With a [pruning] section in the
    configuration, and whatever [createAccessory] and [getState] do, the cache
    holds and the [deviceManagement] section contains, the method completes
    without an uncaught exception exactly when the default interface and its
    broadcast address are obtained and no scan it awaits rejects; a rejection
    of one of these calls rejects the promise of the method.  [isAllowed]
    itself never throws: it answers true whenever its evaluation throws, which
    is the case when the section is missing and when the list or the mode is a
    value without an [includes] method. *)
Theorem discoverDevices_completes_iff_awaited_calls_succeed (p : Pruning)
    (accs : list PlatformAccessory) :
  pruning config = Some p →
  ((∃ r evs,
      discoverDevices_awaited generate networkInterfaceDefault broadcastAddress
        awaited_scan createAccessory getState config accs
      = Completed r evs)
   ↔ (∃ interface address,
        networkInterfaceDefault = Normal interface
        ∧ broadcastAddress interface = Normal address)
     ∧ scans_succeed awaited_scan)
  ∧ (∀ e r evs,
       discoverDevices_awaited generate networkInterfaceDefault broadcastAddress
         awaited_scan createAccessory getState config accs
       = Thrown e r evs →
       networkInterfaceDefault = Throw e
       ∨ (∃ interface, networkInterfaceDefault = Normal interface
                       ∧ broadcastAddress interface = Throw e)
       ∨ (∃ k, (k ≤ 5)%nat ∧ awaited_scan k = Throw e))
  ∧ (∀ cfg uniqueId e,
       isAllowed_try cfg uniqueId = Throw e →
       isAllowed cfg uniqueId = (true, [Log log_debug (Caught e)]))
  ∧ (∀ pr uniqueId, (isAllowed (mkConfig None pr) uniqueId).1 = true)
  ∧ (∀ ids mode pr uniqueId,
       has_includes ids = false ∨ has_includes mode = false →
       (isAllowed (mkConfig (Some (mkDeviceManagement ids mode)) pr) uniqueId).1
         = true).
Proof using.
  intros Hp.
  assert (Hafter : ∀ devices evs0,
            ∃ r evs,
              after evs0
                (reconcile_and_prune generate createAccessory getState config
                   devices accs)
              = Completed r evs).
  { intros devices evs0. unfold reconcile_and_prune.
    destruct (try_reconcile generate createAccessory getState config devices
                (mkRun accs 0 0 0)) as [r evs].
    unfold sweep.
    destruct (for_of_accessories_completes config p (accessories r) Hp 0%nat r)
      as (r' & evs' & ->).
    cbn [after]. by eauto. }
  split_and!.
  - rewrite scans_succeed_scanned. unfold discoverDevices_awaited. split.
    + intros (r & evs & Hrun).
      destruct networkInterfaceDefault as [interface | e] eqn:Hinterface;
        [| done].
      destruct (broadcastAddress interface) as [address | e] eqn:Haddress;
        [| done].
      destruct (awaited_scan 0%nat) as [devices0 | e] eqn:Hfirst; [| done].
      destruct (rescan_awaited awaited_scan 5 devices0 0)
        as [devices scans evs0 | e evs0] eqn:Hrescan; [| done].
      split; [by exists interface, address |].
      by exists devices0, devices, scans, evs0.
    + intros [(interface & address & Hinterface & Haddress)
                (devices0 & devices & scans & evs0 & Hfirst & Hrescan)].
      rewrite Hinterface, Haddress, Hfirst, Hrescan. apply Hafter.
  - intros e r evs Hrun. unfold discoverDevices_awaited in Hrun.
    destruct networkInterfaceDefault as [interface | e0] eqn:Hinterface;
      [| left; congruence].
    destruct (broadcastAddress interface) as [address | e0] eqn:Haddress;
      [| right; left; exists interface; split; congruence].
    right. right.
    destruct (awaited_scan 0%nat) as [devices0 | e0] eqn:Hfirst;
      [| exists 0%nat; split; [lia | congruence]].
    destruct (rescan_awaited awaited_scan 5 devices0 0)
      as [devices scans evs0 | e0 evs0] eqn:Hrescan.
    + destruct (Hafter devices
                  ([Log log_info ScanningBroadcast; Scan 2000] ++ evs0 ++
                   [if Nat.eqb (length devices) 0 then Log log_warn FoundZeroDevices
                    else Log log_info (FoundDevices (length devices))]))
        as (r' & evs' & Hdone).
      congruence.
    + injection Hrun as <- _ _.
      destruct (rescan_awaited_thrown 5 devices0 0 e0 evs0 eq_refl Hrescan)
        as (k & Hk & Hthrow).
      exists k. split; [lia | done].
  - intros cfg uniqueId e Htry. unfold isAllowed. by rewrite Htry.
  - done.
  - intros ids mode pr uniqueId Hbad.
    unfold isAllowed, isAllowed_try.
    cbn [deviceManagement blacklistedUniqueIDs blacklistOrWhitelist].
    destruct (not_undefined ids && not_undefined mode)%bool eqn:Hguard; [| done].
    destruct Hbad as [Hids | Hmode].
    + destruct (js_includes_throws ids uniqueId Hids) as [e ->]. done.
    + destruct (js_includes ids uniqueId) as [[] | e] eqn:Hlisted; cbn [bindC];
        [| | done].
      * destruct (js_includes_throws mode "blacklist" Hmode) as [e ->]. done.
      * cbn [negb].
        destruct (js_includes_throws mode "whitelist" Hmode) as [e ->]. done.
Qed.

End Launched.

(** C7, as stated, fails: [device_A1] is discovered and is the device of the
    cached accessory, but the state query for the device scanned before it
    rejects, the loop is left, and the accessory ends the run with counter 1. *)
Lemma restartsSinceSeen_zero_iff_seen_counterexample :
  let scan := λ _ : nat, [device_B2; device_A1] in
  let cache := [lamp_A1 0] in
  device_A1 ∈ (scan_phase scan).1.1
  ∧ find_accessory (sample_generate (uniqueId device_A1)) cache
    = Some (0%nat, lamp_A1 0)
  ∧ matched_by sample_generate (scan_phase scan).1.1 cache 0 = true
  ∧ sample_getState (ipAddress device_B2)
    = Throw (RejectedPromise "getState timed out")
  ∧ accessories
      (run_of (startup sample_generate scan sample_createAccessory sample_getState
                 sample_config cache))
    = [lamp_A1 1].
Proof.
  intros scan cache. split_and!; try by vm_compute.
  vm_compute. right. by left.
Qed.

Lemma restartsSinceSeen_zero_iff_seen_witness :
  let scan := λ _ : nat, [device_C3; device_A1] in
  let cache := [lamp_A1 0; lamp_C3 2] in
  let final :=
    accessories
      (run_of (startup sample_generate scan sample_createAccessory
                 sample_getState sample_config cache)) in
  (∀ d, d ∈ (scan_phase scan).1.1 →
        known_or_answers sample_generate sample_createAccessory sample_getState
          cache d)
  ∧ (∀ a, a ∈ cache → 0 ≤ restartsSinceSeen (context a))
  ∧ ∀ i a', final !! i = Some a' →
      restartsSinceSeen (context a') = 0 ↔
      (length cache ≤ i)%nat
      ∨ matched_by sample_generate (scan_phase scan).1.1 cache i = true.
Proof.
  intros scan cache final.
  assert (Hreach : ∀ d, d ∈ (scan_phase scan).1.1 →
                        known_or_answers sample_generate sample_createAccessory
                          sample_getState cache d).
  { intros d Hd. vm_compute in Hd.
    apply elem_of_cons in Hd as [-> | Hd]; [left; by exists 1%nat |].
    apply list_elem_of_singleton in Hd as ->. left. by exists 0%nat. }
  assert (Hnonneg : ∀ a, a ∈ cache → 0 ≤ restartsSinceSeen (context a)).
  { intros a Ha. subst cache.
    apply elem_of_cons in Ha as [-> | Ha]; [cbn; lia |].
    apply list_elem_of_singleton in Ha as ->. cbn. lia. }
  split_and!; [exact Hreach | exact Hnonneg |].
  destruct (restartsSinceSeen_zero_iff_seen sample_generate scan
              sample_createAccessory sample_getState sample_config cache Hreach)
    as (_ & _ & _ & _ & _ & Hiff).
  exact (Hiff Hnonneg).
Defined.

(** C6, as stated, fails: [device_A1] is discovered at 10.0.0.9 and the cached
    accessory for it records 10.0.0.5, but the state query for the device
    scanned before it rejects; the loop is left, and the run ends with the old
    cached address and without any address warning. *)
Lemma drift_corrected_in_run_counterexample :
  let scan := λ _ : nat, [device_B2; device_A1] in
  let o := discoverDevices sample_generate scan sample_createAccessory
             sample_getState sample_config [lamp_A1 1] in
  device_A1 ∈ (scan_phase scan).1.1
  ∧ UUID (lamp_A1 1) = sample_generate (uniqueId device_A1)
  ∧ cachedIPAddress (context (lamp_A1 1)) ≠ ipAddress device_A1
  ∧ sample_getState (ipAddress device_B2)
    = Throw (RejectedPromise "getState timed out")
  ∧ accessories (run_of o) = [lamp_A1 1]
  ∧ occurrences is_ip_warning (events_of o) = 0%nat.
Proof.
  intros scan o. split_and!; try by vm_compute.
  vm_compute. right. by left.
Qed.

Lemma drift_corrected_in_run_witness :
  let scan := λ _ : nat, [device_C3; device_A1] in
  let o := discoverDevices sample_generate scan sample_createAccessory
             sample_getState sample_config [lamp_A1 1] in
  (scan_phase scan).1.1 = [device_C3] ++ device_A1 :: []
  ∧ (∀ d, d ∈ [device_C3] →
          known_or_answers sample_generate sample_createAccessory sample_getState
            [lamp_A1 1] d)
  ∧ (∀ d, d ∈ [device_C3] ++ [] →
          sample_generate (uniqueId d) ≠ sample_generate (uniqueId device_A1))
  ∧ [lamp_A1 1] !! 0%nat = Some (lamp_A1 1)
  ∧ UUID (lamp_A1 1) = sample_generate (uniqueId device_A1)
  ∧ (∀ j b, [lamp_A1 1] !! j = Some b → (j < 0)%nat →
            UUID b ≠ sample_generate (uniqueId device_A1))
  ∧ accessories (run_of o) !! 0%nat
    = Some (set_cachedIPAddress (set_restartsSinceSeen (lamp_A1 1) 0) "10.0.0.9").
Proof.
  intros scan o.
  assert (Hreach : ∀ d, d ∈ [device_C3] →
                        known_or_answers sample_generate sample_createAccessory
                          sample_getState [lamp_A1 1] d).
  { intros d ->%list_elem_of_singleton. right. split; by eexists. }
  assert (Hunique : ∀ d, d ∈ [device_C3] ++ [] →
                         sample_generate (uniqueId d)
                         ≠ sample_generate (uniqueId device_A1)).
  { intros d ->%list_elem_of_singleton. by vm_compute. }
  assert (Hfirst : ∀ j b, [lamp_A1 1] !! j = Some b → (j < 0)%nat →
                          UUID b ≠ sample_generate (uniqueId device_A1))
    by (intros j b _ Hlt; lia).
  split_and!; [reflexivity | exact Hreach | exact Hunique | reflexivity
               | reflexivity | exact Hfirst |].
  apply (drift_corrected_in_run sample_generate scan sample_createAccessory
           sample_getState sample_config [lamp_A1 1] [device_C3] [] device_A1
           0%nat (lamp_A1 1) eq_refl Hreach Hunique eq_refl eq_refl Hfirst).
Defined.

(** C9, as stated, fails twice.  Without a [pruning] section, the interface,
    the broadcast address and all six scans being obtained, the sweep over a
    cache holding one ordinary accessory throws, and nothing catches it.  And a
    malformed allow list need not be ignored: given as one string instead of an
    array, it still black-lists the identifiers occurring in it. *)
Lemma discoverDevices_completes_iff_awaited_calls_succeed_counterexample :
  discoverDevices_awaited sample_generate sample_interface sample_broadcast
    (λ _, Normal []) sample_createAccessory sample_getState (mkConfig None None)
    [lamp_A1 1]
  = Thrown (TypeError "Cannot read properties of undefined")
      (mkRun [lamp_A1 1] 0 0 0)
      [Log log_info ScanningBroadcast; Scan 2000;
       Log log_warn (FoundZeroRescanning 1); Scan 2000;
       Log log_warn (FoundZeroRescanning 2); Scan 2000;
       Log log_warn (FoundZeroRescanning 3); Scan 2000;
       Log log_warn (FoundZeroRescanning 4); Scan 2000;
       Log log_warn (FoundZeroRescanning 5); Scan 2000;
       Log log_warn FoundZeroDevices] ∧
  isAllowed
    (mkConfig (Some (mkDeviceManagement (JsString "A1,B2") (JsString "blacklist")))
       None) "A1"
  = (false, []).
Proof. by vm_compute. Qed.

Lemma discoverDevices_completes_iff_awaited_calls_succeed_witness :
  pruning sample_config = Some sample_pruning ∧
  ∃ r evs,
    discoverDevices_awaited sample_generate sample_interface sample_broadcast
      scan_finds_A1 sample_createAccessory sample_getState sample_config
      [lamp_A1 1]
    = Completed r evs.
Proof.
  split; [reflexivity |].
  apply (proj1 (discoverDevices_completes_iff_awaited_calls_succeed
                  sample_generate sample_interface sample_broadcast scan_finds_A1
                  sample_createAccessory sample_getState sample_config
                  sample_pruning [lamp_A1 1] eq_refl)).
  split.
  - exists "eth0", "10.0.0.255". split; reflexivity.
  - exists 0%nat, [device_A1]. split_and!; [lia | intros; lia | reflexivity | done].
Defined.

(** With a [pruning] section: the first scan finds nothing and the rescan
    rejects; the method rejects with that error after its first three lines of
    output, and neither loop is entered. *)
Example rejected_rescan_rejects_the_method :
  discoverDevices_awaited sample_generate sample_interface sample_broadcast
    second_scan_rejects sample_createAccessory sample_getState sample_config
    [lamp_A1 1]
  = Thrown (RejectedPromise "socket closed") (mkRun [lamp_A1 1] 0 0 0)
      [Log log_info ScanningBroadcast; Scan 2000;
       Log log_warn (FoundZeroRescanning 1); Scan 2000].
Proof. by vm_compute. Qed.
